(** * GestionProjet: store-layout projects kept on a filesystem

    Shallow embedding of [App1/controleurs/gestion_projet.py].

    - Python values that travel through [json.load]/[json.dump] are the
      inductive [json]; a Python [dict] is an association list in insertion
      order with the update discipline of [dict] (assignment to an existing
      key keeps its position).
    - Strings are sequences of characters with code points below 256.
    - [os.path] is [posixpath]; paths are strings, and the filesystem is a
      finite map from resolved locations to nodes.  There are no symbolic
      links and no permissions: a filesystem call fails only for the
      structural reasons written out below.  Names are taken without the
      NUL character, which a filesystem call refuses.
    - Every method of the class is a computation in the monad [M] of state
      (disk and [self.projet_actuel]) and Python exceptions. *)

From Stdlib Require Import ZArith Lia Ascii.
From stdpp Require Import gmap strings list fin_maps.

Local Open Scope Z_scope.
Local Set Warnings "-register-all".

(* ===================================================================== *)
(** ** Python strings *)

Module PyStr.

Definition barre : ascii := "/"%char.
(** The backslash, code 92. *)
Definition contre_barre : ascii :=
  Ascii false false true true true false true false.
Definition point : ascii := "."%char.

Definition est_vide (s : string) : bool :=
  match s with EmptyString => true | _ => false end.

(** Truth value of a [str]: non-empty. *)
Definition vrai (s : string) : bool := negb (est_vide s).

Definition startswith (c : ascii) (s : string) : bool :=
  match s with String x _ => Ascii.eqb x c | EmptyString => false end.

Fixpoint endswith (c : ascii) (s : string) : bool :=
  match s with
  | EmptyString => false
  | String x EmptyString => Ascii.eqb x c
  | String _ r => endswith c r
  end.

(** [s.split(sep)] for a one-character separator. *)
Fixpoint split (sep : ascii) (s : string) : list string :=
  match s with
  | EmptyString => [EmptyString]
  | String c r =>
      if Ascii.eqb c sep then EmptyString :: split sep r
      else match split sep r with
           | h :: t => String c h :: t
           | [] => [String c EmptyString]
           end
  end.

(** [sep.join(l)]. *)
Fixpoint join (sep : ascii) (l : list string) : string :=
  match l with
  | [] => EmptyString
  | [x] => x
  | x :: r => x +:+ String sep (join sep r)
  end.

(** [s.replace(a, b)] for one-character [a] and [b]. *)
Fixpoint replace (a b : ascii) (s : string) : string :=
  match s with
  | EmptyString => EmptyString
  | String c r => String (if Ascii.eqb c a then b else c) (replace a b r)
  end.

(** [c in s] for a character. *)
Fixpoint contient_car (c : ascii) (s : string) : bool :=
  match s with
  | EmptyString => false
  | String x r => Ascii.eqb x c || contient_car c r
  end.

Fixpoint prefixe (p s : string) : bool :=
  match p, s with
  | EmptyString, _ => true
  | String a p', String b s' => Ascii.eqb a b && prefixe p' s'
  | String _ _, EmptyString => false
  end.

(** [p in s] for strings: [p] occurs as a contiguous slice of [s]. *)
Fixpoint sous_chaine (p s : string) : bool :=
  prefixe p s ||
  match s with
  | EmptyString => false
  | String _ r => sous_chaine p r
  end.

(** [str.isspace] on one character (code points below 256). *)
Definition est_espace (c : ascii) : bool :=
  let n := Z.of_nat (nat_of_ascii c) in
  ((9 <=? n) && (n <=? 13)) || ((28 <=? n) && (n <=? 32))
  || (n =? 133) || (n =? 160).

Fixpoint lstrip (s : string) : string :=
  match s with
  | EmptyString => EmptyString
  | String c r => if est_espace c then lstrip r else s
  end.

Fixpoint rstrip (s : string) : string :=
  match s with
  | EmptyString => EmptyString
  | String c r =>
      let r' := rstrip r in
      if est_espace c && est_vide r' then EmptyString else String c r'
  end.

(** [s.strip()]. *)
Definition strip (s : string) : string := rstrip (lstrip s).

(** [s.rfind(c)]: the highest index of [c] in [s], [-1] when absent. *)
Fixpoint rfind_depuis (c : ascii) (s : string) (i acc : Z) : Z :=
  match s with
  | EmptyString => acc
  | String x r => rfind_depuis c r (i + 1) (if Ascii.eqb x c then i else acc)
  end.

Definition rfind (c : ascii) (s : string) : Z := rfind_depuis c s 0 (-1).

(** Slices [s[:i]] and [s[i:]] for [0 <= i]. *)
Fixpoint jusqua (i : nat) (s : string) : string :=
  match i, s with
  | O, _ => EmptyString
  | S _, EmptyString => EmptyString
  | S i', String c r => String c (jusqua i' r)
  end.

Fixpoint depuis (i : nat) (s : string) : string :=
  match i, s with
  | O, _ => s
  | S _, EmptyString => EmptyString
  | S i', String _ r => depuis i' r
  end.

(** [s[i:i+1]]. *)
Definition car_en (i : nat) (s : string) : string := jusqua 1 (depuis i s).

End PyStr.

(* ===================================================================== *)
(** ** [posixpath] *)

Module OsPath.
Import PyStr.

(** [os.path.join(a, b)]. *)
Definition join2 (a b : string) : string :=
  if startswith barre b then b
  else if est_vide a || endswith barre a then a +:+ b
  else a +:+ String barre b.

(** [os.path.join(a, *p)]. *)
Definition join (a : string) (p : list string) : string :=
  fold_left join2 p a.

(** One turn of the loop of [normpath].  [new_comps] is kept with its
    last element first, so [new_comps[-1]] is its head. *)
Definition normpath_pas (initial_slashes : nat)
    (new_comps : list string) (comp : string) : list string :=
  if bool_decide (comp = "") || bool_decide (comp = ".") then new_comps
  else if negb (bool_decide (comp = ".."))
          || (bool_decide (initial_slashes = 0%nat)
              && bool_decide (new_comps = []))
          || bool_decide (head new_comps = Some "..")
       then comp :: new_comps
       else tail new_comps.

Definition initial_slashes (path : string) : nat :=
  match path with
  | String a (String b (String c _)) =>
      if Ascii.eqb a barre then
        if Ascii.eqb b barre && negb (Ascii.eqb c barre) then 2%nat
        else 1%nat
      else 0%nat
  | String a (String b EmptyString) =>
      if Ascii.eqb a barre then
        if Ascii.eqb b barre then 2%nat else 1%nat
      else 0%nat
  | String a EmptyString => if Ascii.eqb a barre then 1%nat else 0%nat
  | EmptyString => 0%nat
  end.

Fixpoint barres (n : nat) (s : string) : string :=
  match n with O => s | S n' => String barre (barres n' s) end.

(** [os.path.normpath(path)]. *)
Definition normpath (path : string) : string :=
  if est_vide path then "."
  else
    let ini := initial_slashes path in
    let comps := rev (fold_left (normpath_pas ini) (split barre path) []) in
    let path' := barres ini (PyStr.join barre comps) in
    if est_vide path' then "." else path'.

(** The loop of [genericpath._splitext] that skips the leading dots of
    the file name; [n] bounds the number of turns. *)
Fixpoint splitext_boucle (p : string) (dotIndex : Z) (filenameIndex : Z)
    (n : nat) : string * string :=
  match n with
  | O => (p, EmptyString)
  | S n' =>
      if filenameIndex <? dotIndex then
        if negb (bool_decide (car_en (Z.to_nat filenameIndex) p = "."))
        then (jusqua (Z.to_nat dotIndex) p, depuis (Z.to_nat dotIndex) p)
        else splitext_boucle p dotIndex (filenameIndex + 1) n'
      else (p, EmptyString)
  end.

(** [os.path.splitext(p)]. *)
Definition splitext (p : string) : string * string :=
  let sepIndex := rfind barre p in
  let dotIndex := rfind point p in
  if sepIndex <? dotIndex then
    splitext_boucle p dotIndex (sepIndex + 1)
      (S (Z.to_nat (dotIndex - (sepIndex + 1))))
  else (p, EmptyString).

(** [os.path.basename(p)]. *)
Definition basename (p : string) : string :=
  depuis (Z.to_nat (rfind barre p + 1)) p.

End OsPath.

(** The shape of the paths [normpath] returns, on the stack of its loop. *)
Module FormeNormale.
Import PyStr.

(** A component [normpath] keeps. *)
Definition propre (c : string) : Prop :=
  c ≠ "" ∧ c ≠ "." ∧ contient_car barre c = false.

(** The stacks the loop of [normpath] builds: components it keeps, a
    [".."] only at the bottom or on another one, and only for a
    relative path. *)
Fixpoint pile_ok (ini : nat) (st : list string) : Prop :=
  match st with
  | [] => True
  | c :: r =>
      propre c
      ∧ (c = ".." → ini = 0%nat ∧ (r = [] ∨ head r = Some ".."))
      ∧ pile_ok ini r
  end.

End FormeNormale.

(* ===================================================================== *)
(** ** Python values and dictionaries *)

(** The values [json.load] produces and [json.dump] accepts.  Numbers are
    integers; no claim depends on floating-point values. *)
Inductive json : Type :=
| JNull
| JBool (b : bool)
| JNum (n : Z)
| JStr (s : string)
| JArr (l : list json)
| JObj (d : list (string * json)).

(** A Python [dict] with [str] keys, in insertion order. *)
Abbreviation dict := (list (string * json)).

(** Python exceptions the class can raise.  Every [raise] of the source is
    a [ValueError]; [message] tells them apart by their text. *)
Inductive message : Type :=
| DonneesIncompletes              (* "Données incomplètes pour la création du projet" *)
| NomRequis                       (* "Le nom du projet est requis" *)
| ProjetExisteDeja (nom : string) (* "Un projet nommé '{nom}' existe déjà" *)
| PlanIntrouvable (plan : string) (* "Le fichier plan spécifié est introuvable : {plan}" *)
| ProjetIntrouvable (nom : string)(* "Le projet '{nom}' est introuvable" *)
| ErreurChargement                (* "Erreur lors du chargement de la configuration : ..." *)
| ConfigurationInvalide           (* "Configuration du projet invalide ou incomplète" *)
| ErreurSuppression               (* "Erreur lors de la suppression : ..." *)
| AucunProjetASauvegarder         (* "Aucun projet actif à sauvegarder" *)
| ErreurSauvegarde                (* "Erreur lors de la sauvegarde : ..." *)
| AucunProjetActif.               (* "Aucun projet actif" *)

Inductive erreur_os : Type :=
| FileNotFoundError | FileExistsError | NotADirectoryError
| IsADirectoryError | SameFileError | AutreErreurOS.

Inductive exn : Type :=
| ValueError (m : message)
| KeyError (k : string)
| TypeError
| AttributeError
| JSONDecodeError
| OSError (e : erreur_os).

Inductive res (A : Type) : Type :=
| Ok (a : A)
| Err (e : exn).
Arguments Ok {A} a.
Arguments Err {A} e.

Module Dict.

(** [d.get(k)], [None] when [k] is absent. *)
Fixpoint get (k : string) (d : dict) : option json :=
  match d with
  | [] => None
  | (k', v) :: r => if bool_decide (k' = k) then Some v else get k r
  end.

(** [k in d]. *)
Definition contient (k : string) (d : dict) : bool :=
  match get k d with Some _ => true | None => false end.

(** [d[k] = v]: an existing key keeps its place, a new one goes last. *)
Fixpoint set (k : string) (v : json) (d : dict) : dict :=
  match d with
  | [] => [(k, v)]
  | (k', v') :: r =>
      if bool_decide (k' = k) then (k', v) :: r else (k', v') :: set k v r
  end.

(** [del d[k]] (for a key that is present): no binding of [k] is left;
    a [dict] has at most one. *)
Fixpoint del (k : string) (d : dict) : dict :=
  match d with
  | [] => []
  | (k', v') :: r =>
      if bool_decide (k' = k) then del k r else (k', v') :: del k r
  end.

(** [d[k]], raising [KeyError]. *)
Definition item (k : string) (d : dict) : res json :=
  match get k d with Some v => Ok v | None => Err (KeyError k) end.

Definition cles (d : dict) : list string := d.*1.
Definition valeurs (d : dict) : list json := d.*2.

End Dict.

Module Py.

(** Truth value of a Python object. *)
Definition vrai (j : json) : bool :=
  match j with
  | JNull => false
  | JBool b => b
  | JNum n => negb (n =? 0)
  | JStr s => PyStr.vrai s
  | JArr l => match l with [] => false | _ => true end
  | JObj d => match d with [] => false | _ => true end
  end.

(** [x == s] for a [str] [s]. *)
Definition egal_str (s : string) (x : json) : bool :=
  match x with JStr t => bool_decide (t = s) | _ => false end.

(** [s in x] for a [str] [s]: key of a dict, element of a list, slice of
    a string; other objects are not containers. *)
Definition dans (s : string) (x : json) : res bool :=
  match x with
  | JObj d => Ok (Dict.contient s d)
  | JArr l => Ok (existsb (egal_str s) l)
  | JStr t => Ok (PyStr.sous_chaine s t)
  | _ => Err TypeError
  end.

(** [all(champ in x for champ in champs)]: stops at the first [False]. *)
Fixpoint tous_dans (champs : list string) (x : json) : res bool :=
  match champs with
  | [] => Ok true
  | c :: r =>
      match dans c x with
      | Err e => Err e
      | Ok false => Ok false
      | Ok true => tous_dans r x
      end
  end.

(** The elements [list.extend(x)] appends. *)
Fixpoint caracteres (s : string) : list json :=
  match s with
  | EmptyString => []
  | String c r => JStr (String c EmptyString) :: caracteres r
  end.

Definition iterer (x : json) : res (list json) :=
  match x with
  | JArr l => Ok l
  | JStr s => Ok (caracteres s)
  | JObj d => Ok (JStr <$> Dict.cles d)
  | _ => Err TypeError
  end.

End Py.

(* ===================================================================== *)
(** ** The filesystem *)

(** A resolved location: the names from the root down to the node, the
    innermost first.  [[]] is the root directory. *)
Abbreviation chemin := (list string).

(** What a regular file holds: a JSON text, given by the value it parses to,
    or bytes that are not JSON. *)
Inductive contenu : Type :=
| Document (j : json)
| Octets (b : string).

Inductive noeud : Type :=
| Dossier
| Fichier (c : contenu).

Abbreviation sysfich := (gmap chemin noeud).

Module FS.
Import PyStr.

Definition noeud_en (fs : sysfich) (k : chemin) : option noeud :=
  match k with [] => Some Dossier | _ => fs !! k end.

Definition est_dossier (fs : sysfich) (k : chemin) : bool :=
  match noeud_en fs k with Some Dossier => true | _ => false end.

Definition est_fichier (fs : sysfich) (k : chemin) : bool :=
  match noeud_en fs k with Some (Fichier _) => true | _ => false end.

Definition present (fs : sysfich) (k : chemin) : bool :=
  match noeud_en fs k with Some _ => true | None => false end.

(** A component that names an entry, as opposed to [""], ["."], [".."]. *)
Definition est_nom (c : string) : bool :=
  negb (bool_decide (c = "") || bool_decide (c = ".")
        || bool_decide (c = "..")).

(** Following one component from the directory [cur]. *)
Definition avancer (cur : chemin) (c : string) : chemin :=
  if bool_decide (c = "") || bool_decide (c = ".") then cur
  else if bool_decide (c = "..") then tail cur
  else c :: cur.

(** Path resolution: every component is looked up in a directory. The
    last component need not exist. *)
Fixpoint marcher (fs : sysfich) (cur : chemin) (comps : list string)
    : option chemin :=
  match comps with
  | [] => Some cur
  | c :: reste =>
      if est_dossier fs cur then marcher fs (avancer cur c) reste
      else None
  end.

Definition depart (cwd : chemin) (p : string) : chemin :=
  if startswith barre p then [] else cwd.

Definition resoudre (cwd : chemin) (fs : sysfich) (p : string)
    : option chemin :=
  if est_vide p then None
  else marcher fs (depart cwd p) (split barre p).

(** [os.path.exists], [os.path.isdir], [os.path.isfile]. *)
Definition existe (cwd : chemin) (fs : sysfich) (p : string) : bool :=
  match resoudre cwd fs p with Some k => present fs k | None => false end.

Definition isdir (cwd : chemin) (fs : sysfich) (p : string) : bool :=
  match resoudre cwd fs p with Some k => est_dossier fs k | None => false end.

Definition isfile (cwd : chemin) (fs : sysfich) (p : string) : bool :=
  match resoudre cwd fs p with Some k => est_fichier fs k | None => false end.

(** Dropping the trailing slashes of a path, on its components. *)
Fixpoint sans_vides_finaux (comps : list string) : list string :=
  match comps with
  | [] => []
  | c :: r =>
      match sans_vides_finaux r with
      | [] => if est_vide c then [] else [c]
      | r' => c :: r'
      end
  end.

(** [os.makedirs(name)] along the components of [name]: every missing
    directory on the way is created, then the leaf, which must be new.
    [frais] records that a directory was created on the way: [makedirs]
    returns at once on a final ["."] in that case. The disk is returned
    also on failure, with the directories created so far. *)
Fixpoint makedirs_marche (fs : sysfich) (cur : chemin) (frais : bool)
    (comps : list string) : res unit * sysfich :=
  match comps with
  | [] => (Err (OSError FileExistsError), fs)
  | c :: reste =>
      if negb (est_dossier fs cur) then (Err (OSError NotADirectoryError), fs)
      else if est_nom c then
        let k := c :: cur in
        match reste with
        | [] =>
            match noeud_en fs k with
            | None => (Ok tt, <[k := Dossier]> fs)
            | Some _ => (Err (OSError FileExistsError), fs)
            end
        | _ =>
            match noeud_en fs k with
            | None => makedirs_marche (<[k := Dossier]> fs) k true reste
            | Some Dossier => makedirs_marche fs k frais reste
            | Some (Fichier _) => (Err (OSError NotADirectoryError), fs)
            end
        end
      else
        match reste with
        | [] =>
            if frais && bool_decide (c = ".") then (Ok tt, fs)
            else (Err (OSError FileExistsError), fs)
        | _ => makedirs_marche fs (avancer cur c) frais reste
        end
  end.

Definition makedirs (cwd : chemin) (fs : sysfich) (p : string)
    : res unit * sysfich :=
  if est_vide p then (Err (OSError FileNotFoundError), fs)
  else makedirs_marche fs (depart cwd p) false
         (sans_vides_finaux (split barre p)).

(** [open(p, "w")] followed by a complete write of [c]. *)
Definition ecrire (cwd : chemin) (fs : sysfich) (p : string) (c : contenu)
    : res unit * sysfich :=
  match resoudre cwd fs p with
  | Some (n :: parent) =>
      if negb (est_dossier fs parent) then
        (Err (OSError FileNotFoundError), fs)
      else if est_dossier fs (n :: parent) then
        (Err (OSError IsADirectoryError), fs)
      else (Ok tt, <[n :: parent := Fichier c]> fs)
  | Some [] => (Err (OSError IsADirectoryError), fs)
  | None => (Err (OSError FileNotFoundError), fs)
  end.

(** [open(p, "r")] followed by a complete read. *)
Definition lire (cwd : chemin) (fs : sysfich) (p : string) : res contenu :=
  match resoudre cwd fs p with
  | Some k =>
      match noeud_en fs k with
      | Some (Fichier c) => Ok c
      | Some Dossier => Err (OSError IsADirectoryError)
      | None => Err (OSError FileNotFoundError)
      end
  | None => Err (OSError FileNotFoundError)
  end.

(** [os.path.samefile] as [shutil] uses it: false when either is absent. *)
Definition meme_fichier (cwd : chemin) (fs : sysfich) (a b : string) : bool :=
  match resoudre cwd fs a, resoudre cwd fs b with
  | Some ka, Some kb => present fs ka && present fs kb && bool_decide (ka = kb)
  | _, _ => false
  end.

(** [shutil.copy2(src, dst)]; the metadata it copies is not modelled. *)
Definition copy2 (cwd : chemin) (fs : sysfich) (src dst : string)
    : res unit * sysfich :=
  let dst := if isdir cwd fs dst
             then OsPath.join2 dst (OsPath.basename src) else dst in
  if meme_fichier cwd fs src dst then (Err (OSError SameFileError), fs)
  else match lire cwd fs src with
       | Err e => (Err e, fs)
       | Ok c => ecrire cwd fs dst c
       end.

(** [k'] is [k] or lies below it. *)
Definition sous (k k' : chemin) : Prop := k `suffix_of` k'.

(** [shutil.rmtree(p)]: everything below the directory goes, then the
    directory itself, which fails for the root and for a path that ends
    in ["."] or [".."]. *)
Definition rmtree (cwd : chemin) (fs : sysfich) (p : string)
    : res unit * sysfich :=
  match resoudre cwd fs p with
  | None => (Err (OSError FileNotFoundError), fs)
  | Some k =>
      if negb (est_dossier fs k) then
        if present fs k then (Err (OSError NotADirectoryError), fs)
        else (Err (OSError FileNotFoundError), fs)
      else if bool_decide (k ≠ [])
              && est_nom (default "" (last (sans_vides_finaux (split barre p))))
      then (Ok tt, filter (λ e, ¬ sous k e.1) fs)
      else (Err (OSError AutreErreurOS),
            filter (λ e, ¬ (sous k e.1 ∧ e.1 ≠ k)) fs)
  end.

End FS.

(* ===================================================================== *)
(** ** State and exceptions *)

(** The state a method runs in: the disk and [self.projet_actuel]. *)
Record etat : Type := Etat {
  disque : sysfich;
  projet_actuel : option dict
}.

(** A method body: it ends with a value or an exception, and leaves a
    state in both cases. *)
Definition M (A : Type) : Type := etat → res A * etat.

Definition ret {A} (a : A) : M A := λ s, (Ok a, s).

Definition lever {A} (e : exn) : M A := λ s, (Err e, s).

Definition lier {A B} (m : M A) (k : A → M B) : M B :=
  λ s, match m s with
       | (Ok a, s') => k a s'
       | (Err e, s') => (Err e, s')
       end.

Notation "'soit' x <- m 'dans' k" := (lier m (λ x, k))
  (at level 10, x name, m at level 100, k at level 200,
   format "'[v' 'soit'  x  <-  m  'dans' '/' k ']'").
Notation "m >> k" := (lier m (λ _, k))
  (at level 100, k at level 200, right associativity).

(** A [res] computed without touching the state. *)
Definition de_res {A} (r : res A) : M A := λ s, (r, s).

(** [try: m except Exception: raise ValueError(msg)]. *)
Definition essayer {A} (m : M A) (msg : message) : M A :=
  λ s, match m s with
       | (Ok a, s') => (Ok a, s')
       | (Err _, s') => (Err (ValueError msg), s')
       end.

Definition lire_disque {A} (f : sysfich → A) : M A :=
  λ s, (Ok (f (disque s)), s).

Definition sur_disque {A} (f : sysfich → res A * sysfich) : M A :=
  λ s, let '(r, fs) := f (disque s) in
       (r, {| disque := fs; projet_actuel := projet_actuel s |}).

Definition obtenir_projet : M (option dict) :=
  λ s, (Ok (projet_actuel s), s).

Definition affecter_projet (p : option dict) : M unit :=
  λ s, (Ok tt, {| disque := disque s; projet_actuel := p |}).

(** Truth value of [self.projet_actuel]: [None] and [{}] are false. *)
Definition projet_vrai (p : option dict) : bool :=
  match p with
  | Some (_ :: _) => true
  | _ => false
  end.

(* ===================================================================== *)
(** ** The class [GestionProjet] *)

Section GestionProjet.

(** [config.DOSSIER_PROJETS], imported by the module, and the working
    directory of the process, against which relative paths resolve. *)
Variable DOSSIER_PROJETS : string.
Variable cwd : chemin.

(** [__init__]. *)
Definition init (fs : sysfich) : etat :=
  {| disque := fs; projet_actuel := None |}.

(** [mon_dossier = os.path.join(DOSSIER_PROJETS, nom)]. *)
Definition mon_dossier (nom : string) : string :=
  OsPath.join DOSSIER_PROJETS [nom].

(** [mon_fichier = os.path.join(mon_dossier, "config.json")]. *)
Definition mon_fichier (nom : string) : string :=
  OsPath.join (mon_dossier nom) ["config.json"].

(** [extension = os.path.splitext(plan)[1]]. *)
Definition extension (plan : string) : string := (OsPath.splitext plan).2.

(** [mon_plan], the destination of the copy: lines 63-64. *)
Definition mon_plan (nom plan : string) : string :=
  OsPath.normpath
    (OsPath.join "App1" ["projets"; nom; "plan" +:+ extension plan]).

(** [mon_plan] as stored in the document: line 68. *)
Definition chemin_plan (nom plan : string) : string :=
  PyStr.replace PyStr.contre_barre PyStr.barre (mon_plan nom plan).

Definition ma_config (nom magasin auteur plan : string) : dict :=
  [ ("nom", JStr nom);
    ("magasin", JStr magasin);
    ("auteur", JStr auteur);
    ("chemin_plan", JStr (chemin_plan nom plan));
    ("produits", JObj []) ].

(** [json.dump(d, f)] on [open(p, "w")].  The call fails when the file
    cannot be opened.  The encoder is taken to complete on the values of
    [json]: a document nested beyond the recursion limit of the
    interpreter, or a value that holds itself, makes it raise after the
    file was truncated, and is outside this model.  What is stated below
    of a save that raises is stated of a file that cannot be opened. *)
Definition json_dump (d : dict) (p : string) : M unit :=
  sur_disque (λ fs, FS.ecrire cwd fs p (Document (JObj d))).

(** [json.load(f)] on [open(p, "r")]. *)
Definition json_load (p : string) : M json :=
  soit c <- lire_disque (λ fs, FS.lire cwd fs p) dans
  match c with
  | Ok (Document j) => ret j
  | Ok (Octets _) => lever JSONDecodeError
  | Err e => lever e
  end.

Definition creer_projet (nom magasin auteur plan : string) : M unit :=
  if negb (forallb PyStr.vrai [nom; magasin; auteur; plan]) then
    lever (ValueError DonneesIncompletes)
  else
    let nom := PyStr.strip nom in
    if negb (PyStr.vrai nom) then lever (ValueError NomRequis)
    else
      soit deja <- lire_disque (λ fs, FS.existe cwd fs (mon_dossier nom)) dans
      if deja then lever (ValueError (ProjetExisteDeja nom))
      else
        soit plan_ok <- lire_disque (λ fs, FS.isfile cwd fs plan) dans
        if negb plan_ok then lever (ValueError (PlanIntrouvable plan))
        else
          sur_disque (λ fs, FS.makedirs cwd fs (mon_dossier nom)) >>
          sur_disque (λ fs, FS.copy2 cwd fs plan (mon_plan nom plan)) >>
          let ma_config := ma_config nom magasin auteur plan in
          json_dump ma_config (mon_fichier nom) >>
          affecter_projet (Some ma_config).

Definition champs_requis : list string :=
  ["nom"; "magasin"; "auteur"; "chemin_plan"].

(** Lines 113-119: the placements field brought to its current shape. *)
Definition compatibilite_produits (ma_config : dict) : dict :=
  if Dict.contient "produits_par_case" ma_config then
    match Dict.get "produits_par_case" ma_config with
    | Some v =>
        Dict.set "produits" v (Dict.del "produits_par_case" ma_config)
    | None => ma_config
    end
  else if negb (Dict.contient "produits" ma_config) then
    Dict.set "produits" (JObj []) ma_config
  else
    match Dict.get "produits" ma_config with
    | Some (JArr _) => Dict.set "produits" (JObj []) ma_config
    | _ => ma_config
    end.

Definition charger_projet (nom : string) : M dict :=
  soit la <- lire_disque (λ fs, FS.isdir cwd fs (mon_dossier nom)) dans
  if negb la then lever (ValueError (ProjetIntrouvable nom))
  else
    soit ma_config <- essayer (json_load (mon_fichier nom)) ErreurChargement dans
    soit complet <- de_res (Py.tous_dans champs_requis ma_config) dans
    if negb complet then lever (ValueError ConfigurationInvalide)
    else
      match ma_config with
      | JObj ma_config =>
          soit chemin <- de_res (Dict.item "chemin_plan" ma_config) dans
          match chemin with
          | JStr chemin =>
              let ma_config :=
                Dict.set "chemin_plan"
                  (JStr (PyStr.replace PyStr.contre_barre PyStr.barre
                           (OsPath.normpath chemin)))
                  ma_config in
              let ma_config := compatibilite_produits ma_config in
              affecter_projet (Some ma_config) >>
              ret ma_config
          | _ => lever TypeError
          end
      | _ => lever TypeError
      end.

Definition supprimer_projet (nom : string) : M unit :=
  soit la <- lire_disque (λ fs, FS.isdir cwd fs (mon_dossier nom)) dans
  if negb la then lever (ValueError (ProjetIntrouvable nom))
  else
    essayer (sur_disque (λ fs, FS.rmtree cwd fs (mon_dossier nom)))
      ErreurSuppression >>
    soit p <- obtenir_projet dans
    match p with
    | Some d =>
        if projet_vrai p then
          soit n <- de_res (Dict.item "nom" d) dans
          if Py.egal_str nom n then affecter_projet None else ret tt
        else ret tt
    | None => ret tt
    end.

Definition sauvegarder : M unit :=
  soit p <- obtenir_projet dans
  match p with
  | Some d =>
      if negb (projet_vrai p) then lever (ValueError AucunProjetASauvegarder)
      else
        soit n <- de_res (Dict.item "nom" d) dans
        match n with
        | JStr nom => essayer (json_dump d (mon_fichier nom)) ErreurSauvegarde
        | _ => lever TypeError
        end
  | None => lever (ValueError AucunProjetASauvegarder)
  end.

Definition obtenir_produits_case (case : string) : M json :=
  soit p <- obtenir_projet dans
  match p with
  | Some d =>
      if negb (projet_vrai p) then ret (JArr [])
      else
        soit produits <- de_res (Dict.item "produits" d) dans
        match produits with
        | JObj m => ret (default (JArr []) (Dict.get case m))
        | _ => lever AttributeError
        end
  | None => ret (JArr [])
  end.

(** [self.projet_actuel["produits"]] replaced by [f] of itself: the
    mutation in place of the inner dictionary.  Only a [dict] supports
    assignment and deletion by a [str] key. *)
Definition modifier_produits (f : dict → dict) (d : dict) : M unit :=
  soit produits <- de_res (Dict.item "produits" d) dans
  match produits with
  | JObj m => affecter_projet (Some (Dict.set "produits" (JObj (f m)) d))
  | _ => lever TypeError
  end.

Definition definir_produits_case (case : string) (produits : json) : M unit :=
  soit p <- obtenir_projet dans
  match p with
  | Some d =>
      if negb (projet_vrai p) then lever (ValueError AucunProjetActif)
      else
        (if Py.vrai produits then
           modifier_produits (Dict.set case produits) d
         else
           soit anciens <- de_res (Dict.item "produits" d) dans
           soit present <- de_res (Py.dans case anciens) dans
           if present then modifier_produits (Dict.del case) d
           else ret tt) >>
        sauvegarder
  | None => lever (ValueError AucunProjetActif)
  end.

(** The loop of lines 193-194 on the values of the placements. *)
Fixpoint etendre (tous_produits : list json) (valeurs : list json)
    : res (list json) :=
  match valeurs with
  | [] => Ok tous_produits
  | produits :: reste =>
      match Py.iterer produits with
      | Ok l => etendre (tous_produits ++ l) reste
      | Err e => Err e
      end
  end.

Definition obtenir_tous_produits_places : M (list json) :=
  soit p <- obtenir_projet dans
  match p with
  | Some d =>
      if negb (projet_vrai p) then ret []
      else
        soit produits <- de_res (Dict.item "produits" d) dans
        match produits with
        | JObj m => de_res (etendre [] (Dict.valeurs m))
        | _ => lever AttributeError
        end
  | None => ret []
  end.

(** The loop of lines 204-207 on the items of the placements. *)
Fixpoint chercher_case (produit : string) (items : dict)
    : res (option string) :=
  match items with
  | [] => Ok None
  | (case, produits) :: reste =>
      match Py.dans produit produits with
      | Ok true => Ok (Some case)
      | Ok false => chercher_case produit reste
      | Err e => Err e
      end
  end.

Definition trouver_case_produit (produit : string) : M (option string) :=
  soit p <- obtenir_projet dans
  match p with
  | Some d =>
      if negb (projet_vrai p) then ret None
      else
        soit produits <- de_res (Dict.item "produits" d) dans
        match produits with
        | JObj m => de_res (chercher_case produit m)
        | _ => lever AttributeError
        end
  | None => ret None
  end.

End GestionProjet.

(* ===================================================================== *)
(** ** Sequences of calls *)

(** The public methods, as calls a client can make. *)
Inductive appel : Type :=
| ACreer (nom magasin auteur plan : string)
| ACharger (nom : string)
| ASupprimer (nom : string)
| ASauvegarder
| AObtenir (case : string)
| ADefinir (case : string) (produits : json)
| ATousProduits
| ATrouver (produit : string).

Section Appels.
Variable DOSSIER_PROJETS : string.
Variable cwd : chemin.

(** The state a call leaves, whether it returns or raises. *)
Definition executer (a : appel) (s : etat) : etat :=
  match a with
  | ACreer nom magasin auteur plan =>
      (creer_projet DOSSIER_PROJETS cwd nom magasin auteur plan s).2
  | ACharger nom => (charger_projet DOSSIER_PROJETS cwd nom s).2
  | ASupprimer nom => (supprimer_projet DOSSIER_PROJETS cwd nom s).2
  | ASauvegarder => (sauvegarder DOSSIER_PROJETS cwd s).2
  | AObtenir case => (obtenir_produits_case case s).2
  | ADefinir case produits =>
      (definir_produits_case DOSSIER_PROJETS cwd case produits s).2
  | ATousProduits => (obtenir_tous_produits_places s).2
  | ATrouver produit => (trouver_case_produit produit s).2
  end.

(** The states an instance goes through: it starts with no current
    project on some disk, and then serves calls. *)
Inductive atteignable : etat → Prop :=
| att_init (fs : sysfich) : atteignable (init fs)
| att_appel (a : appel) (s : etat) :
    atteignable s → atteignable (executer a s).

(** Successive calls of [obtenir_produits_case]. *)
Fixpoint appels_obtenir (cases : list string) (s : etat)
    : list (res json) * etat :=
  match cases with
  | [] => ([], s)
  | case :: reste =>
      let '(r, s') := obtenir_produits_case case s in
      let '(rs, s'') := appels_obtenir reste s' in
      (r :: rs, s'')
  end.

End Appels.

(* ===================================================================== *)
(** ** Properties of the data of a project *)

(** The placements of a project hold no location bound to an empty list. *)
Definition sans_case_vide (p : option dict) : Prop :=
  ∀ d m case,
    p = Some d → Dict.get "produits" d = Some (JObj m) →
    Dict.get case m ≠ Some (JArr []).

(** The placements are a mapping from locations to product sequences. *)
Definition placements_types (m : dict) : Prop :=
  Forall (λ e, ∃ produits : list json, e.2 = JArr produits) m.

(** The shape [creer_projet] and [charger_projet] give the current project:
    the required fields and the placements are there, the plan path is a
    string, and the legacy placements key is gone. *)
Definition projet_normalise (d : dict) : Prop :=
  Py.tous_dans champs_requis (JObj d) = Ok true
  ∧ Dict.contient "produits" d = true
  ∧ Dict.contient "produits_par_case" d = false
  ∧ ∃ chemin, Dict.get "chemin_plan" d = Some (JStr chemin).

(** The current project, when there is one, is normalised. *)
Definition invariant (s : etat) : Prop :=
  ∀ d, projet_actuel s = Some d → projet_normalise d.

(** A path that ends in an entry name: its last component, trailing
    slashes apart, is not [""], ["."] or [".."].  [makedirs] creates the
    leaf of such a path. *)
Definition nom_final (p : string) : Prop :=
  FS.est_nom
    (default "" (last (FS.sans_vides_finaux (PyStr.split PyStr.barre p))))
  = true.

(** Every directory entry lies in a directory. *)
Definition bien_forme (fs : sysfich) : Prop :=
  map_Forall (λ k _, FS.est_dossier fs (tail k) = true) fs.

(** [avant ++ (case, produits) :: apres] splits the placements at the first
    location, in iteration order, whose products contain [produit]. *)
Definition premiere_occurrence (produit : string) (m : dict) (case : string)
    : Prop :=
  ∃ avant produits apres,
    m = avant ++ (case, JArr produits) :: apres
    ∧ JStr produit ∈ produits
    ∧ Forall (λ e, ∀ ps, e.2 = JArr ps → JStr produit ∉ ps) avant.

(** No location holds [produit]. *)
Definition aucune_occurrence (produit : string) (m : dict) : Prop :=
  ∀ case produits, (case, JArr produits) ∈ m → JStr produit ∉ produits.

(** The in-memory step of [definir_produits_case] on placements that are
    a dictionary: lines 177-180. *)
Definition placer (case : string) (produits : json) (m : dict) : dict :=
  if Py.vrai produits then Dict.set case produits m
  else if Dict.contient case m then Dict.del case m else m.

(** The keys the methods subscript on the current project. *)
Definition cles_presentes (p : option dict) : Prop :=
  ∀ d, p = Some d →
       Dict.contient "produits" d = true ∧ Dict.contient "nom" d = true.

(** The placements a document carries, under the legacy key or, without
    it, under the current one, bind no location to an empty list. *)
Definition document_sans_case_vide (d : dict) : Prop :=
  ∀ m case,
    Dict.get "produits_par_case" d = Some (JObj m)
    ∨ (Dict.get "produits_par_case" d = None
       ∧ Dict.get "produits" d = Some (JObj m)) →
    Dict.get case m ≠ Some (JArr []).

(* ===================================================================== *)
(** ** Sample disks *)

Module Exemples.

Definition racine : string := "App1/projets".
Definition cwd : chemin := ["depot"].

(** A checkout with an empty projects directory and a plan to import. *)
Definition disque_vide : sysfich :=
  list_to_map
    [ (["depot"], Dossier);
      (["App1"; "depot"], Dossier);
      (["projets"; "App1"; "depot"], Dossier);
      (["plan.png"; "depot"], Fichier (Octets "PNG")) ].

(** A project written by an earlier version: the placements are under
    the legacy key, as an empty list. *)
Definition config_ancienne : dict :=
  [ ("nom", JStr "p"); ("magasin", JStr "m"); ("auteur", JStr "a");
    ("chemin_plan", JStr "App1/projets/p/plan.png");
    ("produits_par_case", JArr []) ].

Definition disque_ancien : sysfich :=
  <[ ["config.json"; "p"; "projets"; "App1"; "depot"] :=
       Fichier (Document (JObj config_ancienne)) ]>
  (<[ ["p"; "projets"; "App1"; "depot"] := Dossier ]> disque_vide).

(** A document whose placements bind a location to an empty list. *)
Definition config_case_vide : dict :=
  [ ("nom", JStr "p"); ("magasin", JStr "m"); ("auteur", JStr "a");
    ("chemin_plan", JStr "App1/projets/p/plan.png");
    ("produits", JObj [("A", JArr [])]) ].

Definition disque_case_vide : sysfich :=
  <[ ["config.json"; "p"; "projets"; "App1"; "depot"] :=
       Fichier (Document (JObj config_case_vide)) ]>
  (<[ ["p"; "projets"; "App1"; "depot"] := Dossier ]> disque_vide).

(** The projects root is elsewhere than the asset root [App1/projets],
    where a directory of the name already is. *)
Definition autre_racine : string := "projets".

Definition disque_autre_racine : sysfich :=
  <[ ["p"; "projets"; "App1"; "depot"] := Dossier ]> disque_vide.

Definition config_placee : dict :=
  [ ("nom", JStr "p"); ("magasin", JStr "m"); ("auteur", JStr "a");
    ("chemin_plan", JStr "App1/projets/p/plan.png");
    ("produits", JObj [("A", JArr [JStr "x"; JStr "y"]);
                       ("B", JArr [JStr "z"; JStr "y"])]) ].

Definition etat_place : etat :=
  {| disque :=
       <[ ["config.json"; "p"; "projets"; "App1"; "depot"] :=
            Fichier (Document (JObj config_placee)) ]>
       (<[ ["p"; "projets"; "App1"; "depot"] := Dossier ]> disque_vide);
     projet_actuel := Some config_placee |}.

End Exemples.

(* ===================================================================== *)
(** ** What the placements hold *)

(** The products of one location, when its value is a list. *)
Definition produits_de (v : json) : list json :=
  match v with JArr l => l | _ => [] end.

(** The products of every location, in the order of the dictionary. *)
Definition tous_les_produits (m : dict) : list json :=
  concat (produits_de <$> Dict.valeurs m).

(** A result that is a value or an [OSError]: what the calls of the
    filesystem give. *)
Definition au_plus_OSError {A} (r : res A) : Prop :=
  match r with Ok _ => True | Err e => ∃ o, e = OSError o end.

(** [open(p, "w")] goes through: [p] names an entry of a directory, and
    the entry is not a directory. *)
Definition ouvrable (cwd : chemin) (fs : sysfich) (p : string) : bool :=
  match FS.resoudre cwd fs p with
  | Some (n :: parent) =>
      FS.est_dossier fs parent && negb (FS.est_dossier fs (n :: parent))
  | _ => false
  end.

(** Further states for the properties below. *)
Module ExemplesSuite.
Import Exemples.

(** The directory of the current project is gone from the disk. *)
Definition etat_sans_dossier : etat :=
  {| disque := disque_vide; projet_actuel := Some config_placee |}.

(** A project directory whose [config.json] holds the document [j]. *)
Definition disque_document (j : json) : sysfich :=
  <[ ["config.json"; "p"; "projets"; "App1"; "depot"] :=
       Fichier (Document j) ]>
  (<[ ["p"; "projets"; "App1"; "depot"] := Dossier ]> disque_vide).

(** The asset root, spelled another way. *)
Definition racine_epelee : string := "./App1//projets/".

(** The project ["p"] is current, and a project ["q"] lies beside it. *)
Definition etat_deux_projets : etat :=
  {| disque :=
       <[ ["config.json"; "q"; "projets"; "App1"; "depot"] :=
            Fichier (Document (JObj config_ancienne)) ]>
       (<[ ["q"; "projets"; "App1"; "depot"] := Dossier ]>
          (disque etat_place));
     projet_actuel := Some config_placee |}.

(** A project directory without a [config.json]. *)
Definition disque_sans_document : sysfich :=
  <[ ["p"; "projets"; "App1"; "depot"] := Dossier ]> disque_vide.

End ExemplesSuite.

(* ===================================================================== *)
(** * Properties *)

(** ** The library functions on examples *)

Example normpath_ex1 : OsPath.normpath "App1/projets/a/../b//plan.png" = "App1/projets/b/plan.png".
Proof. reflexivity. Qed.

Example normpath_ex2 : OsPath.normpath "//a/./../../b/" = "//b".
Proof. reflexivity. Qed.

Example normpath_ex3 : OsPath.normpath "../../a/.." = "../..".
Proof. reflexivity. Qed.

Example splitext_ex1 : OsPath.splitext "dir.d/plan.v2.png" = ("dir.d/plan.v2", ".png").
Proof. reflexivity. Qed.

Example splitext_ex2 : OsPath.splitext "dir.d/..cache" = ("dir.d/..cache", "").
Proof. reflexivity. Qed.

Example splitext_ex3 : OsPath.splitext "dir.d/.a.b" = ("dir.d/.a", ".b").
Proof. reflexivity. Qed.

Example strip_ex : PyStr.strip "  mon projet  " = "mon projet".
Proof. reflexivity. Qed.

(* ===================================================================== *)
(** ** Strings *)

Module PyStrFaits.
Import PyStr.

Lemma app_cons (x : ascii) (a b : string) :
  String x a +:+ b = String x (a +:+ b).
Proof. reflexivity. Qed.

Lemma app_nil (b : string) : "" +:+ b = b.
Proof. reflexivity. Qed.

Lemma app_assoc (a b c : string) : (a +:+ b) +:+ c = a +:+ (b +:+ c).
Proof.
  induction a as [|x a IH]; [done|]. rewrite !app_cons. by f_equal.
Qed.

Lemma split_non_vide (sep : ascii) (s : string) : split sep s ≠ [].
Proof.
  destruct s as [|c s]; cbn; [done|].
  destruct (Ascii.eqb c sep); [done|]. by destruct (split sep s).
Qed.

Lemma split_app_sep (sep : ascii) (a b : string) :
  split sep (a +:+ String sep b) = split sep a ++ split sep b.
Proof.
  induction a as [|c a IH]; rewrite ?app_nil, ?app_cons; cbn [split].
  - by rewrite Ascii.eqb_refl.
  - destruct (Ascii.eqb c sep); rewrite IH; [done|].
    pose proof (split_non_vide sep a).
    by destruct (split sep a).
Qed.

Lemma endswith_app (c : ascii) (a : string) :
  endswith c a = true → ∃ a', a = a' +:+ String c "".
Proof.
  induction a as [|x a IH]; cbn; [done|].
  destruct a as [|y a].
  - intros ->%Ascii.eqb_eq. by exists "".
  - intros [a' ->]%IH. by exists (String x a').
Qed.

Lemma est_vide_app (a b : string) : est_vide (a +:+ b) = est_vide a && est_vide b.
Proof. by destruct a. Qed.

End PyStrFaits.

(* ===================================================================== *)
(** ** Dictionaries *)

Module DictFaits.
Lemma get_set_eq k v d : Dict.get k (Dict.set k v d) = Some v.
Proof.
  induction d as [|[k' v'] d IH]; cbn.
  - by rewrite bool_decide_eq_true_2.
  - case_bool_decide as Hk; cbn.
    + by rewrite bool_decide_eq_true_2.
    + by rewrite bool_decide_eq_false_2.
Qed.

Lemma get_set_ne k k' v d : k ≠ k' → Dict.get k' (Dict.set k v d) = Dict.get k' d.
Proof.
  intros Hne. induction d as [|[k0 v0] d IH]; cbn.
  - by rewrite bool_decide_eq_false_2.
  - case_bool_decide as Hk; cbn.
    + subst k0. by rewrite !bool_decide_eq_false_2.
    + by rewrite IH.
Qed.

Lemma get_del_eq k d : Dict.get k (Dict.del k d) = None.
Proof.
  induction d as [|[k0 v0] d IH]; cbn; [done|].
  case_bool_decide as Hk; cbn; [done|]. by rewrite bool_decide_eq_false_2.
Qed.

Lemma get_del_ne k k' d : k ≠ k' → Dict.get k' (Dict.del k d) = Dict.get k' d.
Proof.
  intros Hne. induction d as [|[k0 v0] d IH]; cbn; [done|].
  case_bool_decide as Hk; cbn.
  - subst k0. by rewrite bool_decide_eq_false_2.
  - by rewrite IH.
Qed.

Lemma contient_get k d : Dict.contient k d = true ↔ is_Some (Dict.get k d).
Proof.
  unfold Dict.contient. destruct (Dict.get k d); split;
    first [done | by eexists | by intros [? ?]].
Qed.

Lemma contient_set k k' v d :
  Dict.contient k' (Dict.set k v d) = bool_decide (k = k') || Dict.contient k' d.
Proof.
  unfold Dict.contient. case_bool_decide as Hk.
  - subst. by rewrite get_set_eq.
  - by rewrite get_set_ne.
Qed.

Lemma set_get_id k v d : Dict.get k d = Some v → Dict.set k v d = d.
Proof.
  induction d as [|[k0 v0] d IH]; cbn; [done|].
  case_bool_decide as Hk; [by intros [= ->]|]. intros H. by rewrite IH.
Qed.

Lemma set_non_vide k v d : Dict.set k v d ≠ [].
Proof. destruct d as [|[k' v'] d]; cbn; [done|]. by case_bool_decide. Qed.
End DictFaits.

(* ===================================================================== *)
(** ** Resolution, reading and writing *)

Module FSFaits.
Import PyStr FS.

Lemma noeud_en_insert (fs : sysfich) (k k' : chemin) (n : noeud) :
  k ≠ [] →
  noeud_en (<[k := n]> fs) k' = if decide (k = k') then Some n else noeud_en fs k'.
Proof.
  intros Hk. unfold noeud_en. destruct k' as [|x k'].
  - by rewrite decide_False.
  - by rewrite lookup_insert.
Qed.

Lemma marcher_app (fs : sysfich) (cur : chemin) (l1 l2 : list string) :
  marcher fs cur (l1 ++ l2)
  = match marcher fs cur l1 with
    | Some c => marcher fs c l2
    | None => None
    end.
Proof.
  revert cur. induction l1 as [|c l1 IH]; intros cur; cbn; [done|].
  destruct (est_dossier fs cur); [apply IH|done].
Qed.

(** Resolution only looks at which locations are directories. *)
Lemma marcher_mono (fs fs' : sysfich) (cur : chemin) (l : list string) (k : chemin) :
  (∀ x, est_dossier fs x = true → est_dossier fs' x = true) →
  marcher fs cur l = Some k → marcher fs' cur l = Some k.
Proof.
  intros Hd. revert cur. induction l as [|c l IH]; intros cur; cbn; [done|].
  destruct (est_dossier fs cur) eqn:Hc; [|done].
  rewrite (Hd _ Hc). apply IH.
Qed.

Lemma resoudre_mono (cwd : chemin) (fs fs' : sysfich) (p : string) (k : chemin) :
  (∀ x, est_dossier fs x = true → est_dossier fs' x = true) →
  resoudre cwd fs p = Some k → resoudre cwd fs' p = Some k.
Proof.
  intros Hd. unfold resoudre. destruct (est_vide p); [done|].
  by apply marcher_mono.
Qed.

(** Writing a regular file keeps every directory. *)
Lemma est_dossier_insert_fichier (fs : sysfich) (k x : chemin) (c : contenu) :
  k ≠ [] → est_dossier fs k = false →
  est_dossier fs x = true → est_dossier (<[k := Fichier c]> fs) x = true.
Proof.
  intros Hk Hnd Hx. unfold est_dossier. rewrite noeud_en_insert by done.
  case_decide as Hkx; [|exact Hx]. subst x. congruence.
Qed.

Lemma est_dossier_insert_dossier (fs : sysfich) (k x : chemin) :
  k ≠ [] →
  est_dossier fs x = true → est_dossier (<[k := Dossier]> fs) x = true.
Proof.
  intros Hk Hx. unfold est_dossier. rewrite noeud_en_insert by done.
  by case_decide.
Qed.

Lemma ecrire_ok (cwd : chemin) (fs fs' : sysfich) (p : string) (c : contenu) :
  ecrire cwd fs p c = (Ok tt, fs') →
  ∃ n parent,
    resoudre cwd fs p = Some (n :: parent)
    ∧ est_dossier fs parent = true
    ∧ est_dossier fs (n :: parent) = false
    ∧ fs' = <[n :: parent := Fichier c]> fs.
Proof.
  unfold ecrire. destruct (resoudre cwd fs p) as [[|n parent]|]; try discriminate.
  destruct (est_dossier fs parent) eqn:Hp; cbn [negb]; [|discriminate].
  destruct (est_dossier fs (n :: parent)) eqn:Hk; [discriminate|].
  intros [= <-]. by exists n, parent.
Qed.

Lemma ecrire_dossiers (cwd : chemin) (fs fs' : sysfich) (p : string) (c : contenu)
    (r : res unit) (x : chemin) :
  ecrire cwd fs p c = (r, fs') →
  est_dossier fs x = true → est_dossier fs' x = true.
Proof.
  unfold ecrire. destruct (resoudre cwd fs p) as [[|n parent]|]; try by intros [= _ <-].
  destruct (est_dossier fs parent) eqn:Hp; cbn [negb]; [|by intros [= _ <-]].
  destruct (est_dossier fs (n :: parent)) eqn:Hk; [by intros [= _ <-]|].
  intros [= _ <-]. by apply est_dossier_insert_fichier.
Qed.

(** The file just written reads back. *)
Lemma lire_ecrire (cwd : chemin) (fs fs' : sysfich) (p : string) (c : contenu) :
  ecrire cwd fs p c = (Ok tt, fs') → lire cwd fs' p = Ok c.
Proof.
  intros He. pose proof (λ x, ecrire_dossiers _ _ _ _ _ _ x He) as Hd.
  apply ecrire_ok in He as (n & parent & Hr & Hp & Hk & ->).
  unfold lire. rewrite (resoudre_mono _ _ _ _ _ (λ x, Hd x) Hr).
  rewrite noeud_en_insert by done. by rewrite decide_True.
Qed.

Lemma avancer_nom (cur : chemin) (c : string) :
  est_nom c = true → avancer cur c = c :: cur.
Proof.
  unfold est_nom, avancer. intros H%negb_true_iff.
  apply orb_false_iff in H as [H1 H2]. by rewrite H1, H2.
Qed.

(** The path a file was written under names it inside a directory. *)
Lemma isdir_parent (cwd : chemin) (fs : sysfich) (d f : string) (k : chemin) :
  d ≠ "" → split barre f = [f] → est_nom f = true →
  resoudre cwd fs (OsPath.join2 d f) = Some k →
  ∃ kd, resoudre cwd fs d = Some kd ∧ est_dossier fs kd = true ∧ k = f :: kd.
Proof.
  intros Hd Hf Hn. unfold OsPath.join2.
  assert (Hs : startswith barre f = false).
  { destruct f as [|x f]; [done|]. cbn in *.
    destruct (Ascii.eqb x barre); [by destruct (split barre f)|done]. }
  rewrite Hs. assert (Hv : est_vide d = false) by by destruct d.
  rewrite Hv. cbn [orb].
  assert (Hcur : ∀ cur k', marcher fs cur [f] = Some k' →
             est_dossier fs cur = true ∧ k' = f :: cur).
  { intros cur k' H. cbn in H. destruct (est_dossier fs cur) eqn:Hc; [|done].
    rewrite avancer_nom in H by done. by injection H as <-. }
  destruct (endswith barre d) eqn:He.
  - apply PyStrFaits.endswith_app in He as [d' ->].
    rewrite PyStrFaits.app_assoc, PyStrFaits.app_cons, PyStrFaits.app_nil.
    unfold resoudre. rewrite !PyStrFaits.est_vide_app. cbn [est_vide andb].
    rewrite !andb_false_r.
    assert (Hdep : depart cwd (d' +:+ String barre f) = depart cwd (d' +:+ String barre "")).
    { unfold depart. by destruct d'. }
    rewrite Hdep, !PyStrFaits.split_app_sep, Hf. cbn [split].
    rewrite !marcher_app.
    destruct (marcher fs _ (split barre d')) as [c0|]; [|done].
    intros [Hc ->]%Hcur. exists c0. cbn. by rewrite Hc.
  - unfold resoudre. rewrite PyStrFaits.est_vide_app, Hv. cbn [andb].
    assert (Hdep : depart cwd (d +:+ String barre f) = depart cwd d).
    { unfold depart. by destruct d. }
    rewrite Hdep, PyStrFaits.split_app_sep, Hf, marcher_app.
    destruct (marcher fs _ (split barre d)) as [c0|]; [|done].
    intros [Hc ->]%Hcur. by exists c0.
Qed.
End FSFaits.

(* ===================================================================== *)
(** ** Splitting and joining *)

Module DecoupeFaits.
Import PyStr PyStrFaits.

Lemma join_cons (sep : ascii) (x : string) (l : list string) :
  l ≠ [] → join sep (x :: l) = x +:+ String sep (join sep l).
Proof. by destruct l. Qed.

Lemma join_split (sep : ascii) (s : string) : join sep (split sep s) = s.
Proof.
  induction s as [|c s IH]; [done|]. cbn [split].
  pose proof (split_non_vide sep s) as Hne.
  destruct (Ascii.eqb c sep) eqn:Hc.
  - apply Ascii.eqb_eq in Hc as ->. rewrite join_cons by done.
    by rewrite IH.
  - destruct (split sep s) as [|h t]; [done|].
    destruct t as [|h' t].
    + cbn in *. by rewrite IH.
    + rewrite join_cons by done. rewrite join_cons in IH by done.
      rewrite app_cons. by rewrite IH.
Qed.

Lemma contient_car_app (c : ascii) (a b : string) :
  contient_car c (a +:+ b) = contient_car c a || contient_car c b.
Proof.
  induction a as [|x a IH]; [done|]. rewrite app_cons. cbn.
  by rewrite IH, orb_assoc.
Qed.

Lemma split_sans_sep (sep : ascii) (s : string) :
  contient_car sep s = false → split sep s = [s].
Proof.
  induction s as [|c s IH]; [done|]. cbn.
  intros [Hc Hs]%orb_false_iff. rewrite Hc. by rewrite IH.
Qed.

(** No piece of a split holds the separator; the pieces hold no
    character the string does not hold. *)
Lemma split_morceaux (sep c : ascii) (s : string) :
  c = sep ∨ contient_car c s = false →
  Forall (λ x, contient_car c x = false) (split sep s).
Proof.
  intros Hc. induction s as [|x s IH]; [by constructor|]. cbn [split].
  assert (Hs : c = sep ∨ contient_car c s = false).
  { destruct Hc as [->|Hc]; [by left|right]. cbn in Hc.
    by apply orb_false_iff in Hc as [_ ?]. }
  specialize (IH Hs).
  destruct (Ascii.eqb x sep) eqn:Hx; [by constructor|].
  pose proof (split_non_vide sep s).
  destruct (split sep s) as [|h t]; [done|].
  apply Forall_cons_1 in IH as [Hh Ht]. constructor; [|done].
  cbn. rewrite Hh, orb_false_r.
  destruct Hc as [->|Hc]; [done|].
  cbn in Hc. by apply orb_false_iff in Hc as [? _].
Qed.

Lemma split_join (sep : ascii) (l : list string) :
  l ≠ [] → Forall (λ x, contient_car sep x = false) l →
  split sep (join sep l) = l.
Proof.
  induction l as [|x l IH]; [done|]. intros _ [Hx Hl]%Forall_cons_1.
  destruct l as [|y l]; [by apply split_sans_sep|].
  rewrite join_cons by done. rewrite split_app_sep, IH by done.
  by rewrite split_sans_sep.
Qed.

Lemma contient_car_join (sep c : ascii) (l : list string) :
  c ≠ sep → Forall (λ x, contient_car c x = false) l →
  contient_car c (join sep l) = false.
Proof.
  intros Hc. induction l as [|x l IH]; [done|].
  intros [Hx Hl]%Forall_cons_1. destruct l as [|y l]; [done|].
  rewrite join_cons by done. rewrite contient_car_app, Hx.
  cbn [orb contient_car]. rewrite IH by done. rewrite orb_false_r.
  apply Ascii.eqb_neq. congruence.
Qed.

Lemma replace_sans (a b : ascii) (s : string) :
  contient_car a s = false → replace a b s = s.
Proof.
  induction s as [|c s IH]; [done|]. cbn.
  intros [Hc Hs]%orb_false_iff. rewrite Hc. by rewrite IH.
Qed.

End DecoupeFaits.

(* ===================================================================== *)
(** ** [normpath] *)

Module OsPathFaits.
Import PyStr PyStrFaits DecoupeFaits OsPath FormeNormale.

Lemma pile_ok_suffixe (ini : nat) (a b : list string) :
  pile_ok ini (a ++ b) → pile_ok ini b.
Proof. induction a as [|x a IH]; [done|]. intros (_ & _ & H). by apply IH. Qed.

Lemma pile_ok_propres (ini : nat) (st : list string) :
  pile_ok ini st → Forall propre st.
Proof.
  induction st as [|c st IH]; [by constructor|].
  intros (Hc & _ & Hst). constructor; [done|by apply IH].
Qed.

Lemma normpath_pas_ok (ini : nat) (st : list string) (c : string) :
  contient_car barre c = false →
  pile_ok ini st → pile_ok ini (normpath_pas ini st c).
Proof.
  intros Hc Hst. unfold normpath_pas.
  destruct (bool_decide (c = "")) eqn:H1; [done|].
  destruct (bool_decide (c = ".")) eqn:H2; [done|]. cbn [orb].
  apply bool_decide_eq_false in H1, H2.
  destruct (bool_decide (c = "..")) eqn:H3; cbn [negb orb].
  - apply bool_decide_eq_true in H3 as ->.
    destruct (bool_decide (ini = 0%nat) && bool_decide (st = [])) eqn:H4;
      cbn [orb].
    + apply andb_true_iff in H4 as [Hi%bool_decide_eq_true Hs%bool_decide_eq_true].
      subst st. cbn. repeat split; try done. by left.
    + destruct (bool_decide (head st = Some "..")) eqn:H5.
      * apply bool_decide_eq_true in H5.
        destruct st as [|x st]; [done|]. cbn in H5. injection H5 as ->.
        cbn. destruct Hst as (Hp & Hd & Hr).
        destruct (Hd eq_refl) as [Hi Hbas].
        repeat split; try done. by right.
      * destruct st as [|x st]; [done|]. by destruct Hst as (_ & _ & ?).
  - apply bool_decide_eq_false in H3. cbn. repeat split; done.
Qed.

Lemma normpath_pas_propre (ini : nat) (st : list string) (c : string) :
  pile_ok ini (c :: st) → normpath_pas ini st c = c :: st.
Proof.
  intros ((H1 & H2 & _) & Hd & _). unfold normpath_pas.
  rewrite (bool_decide_eq_false_2 _ H1), (bool_decide_eq_false_2 _ H2).
  cbn [orb]. destruct (bool_decide (c = "..")) eqn:H3; [|done].
  apply bool_decide_eq_true in H3. destruct (Hd H3) as [-> [-> | Hh]].
  - done.
  - cbn. by rewrite (bool_decide_eq_true_2 _ Hh), orb_true_r.
Qed.

Lemma boucle_ok (ini : nat) (comps st : list string) :
  Forall (λ c, contient_car barre c = false) comps →
  pile_ok ini st → pile_ok ini (fold_left (normpath_pas ini) comps st).
Proof.
  intros Hc. revert st. induction Hc as [|c comps Hc _ IH]; intros st Hst.
  - done.
  - cbn. apply IH. by apply normpath_pas_ok.
Qed.

(** On components that are already in normal form the loop only pushes. *)
Lemma boucle_normale (ini : nat) (l st : list string) :
  pile_ok ini (rev l ++ st) →
  fold_left (normpath_pas ini) l st = rev l ++ st.
Proof.
  revert st. induction l as [|c l IH]; intros st; [done|].
  cbn [rev fold_left]. rewrite <- List.app_assoc. cbn [app]. intros H.
  rewrite normpath_pas_propre by by eapply pile_ok_suffixe.
  by apply IH.
Qed.

Lemma boucle_vides (ini n : nat) (l st : list string) :
  fold_left (normpath_pas ini) (replicate n "" ++ l) st
  = fold_left (normpath_pas ini) l st.
Proof. induction n as [|n IH]; [done|]. exact IH. Qed.

Lemma split_barres (n : nat) (s : string) :
  split barre (barres n s) = replicate n "" ++ split barre s.
Proof. induction n as [|n IH]; [done|]. cbn. by rewrite IH. Qed.

Lemma initial_slashes_max (p : string) : (initial_slashes p ≤ 2)%nat.
Proof.
  destruct p as [|a [|b [|c p]]]; cbn; repeat case_match; lia.
Qed.

(** A string that does not start with a slash, behind [n] of them. *)
Lemma initial_slashes_barres (n : nat) (s : string) :
  (n ≤ 2)%nat → startswith barre s = false →
  initial_slashes (barres n s) = n.
Proof.
  intros Hn Hs.
  destruct n as [|[|[|n]]]; [| | |lia]; cbn.
  - destruct s as [|a [|b [|c s]]]; cbn in *; by rewrite ?Hs.
  - destruct s as [|a [|b s]]; cbn in *; by rewrite ?Hs.
  - destruct s as [|a s]; cbn in *; by rewrite ?Hs.
Qed.

Lemma startswith_join (l : list string) :
  Forall propre l → startswith barre (PyStr.join barre l) = false.
Proof.
  destruct l as [|x l]; [done|]. intros [(Hx & _ & Hb) _]%Forall_cons_1.
  assert (H : startswith barre x = false).
  { destruct x as [|a x]; [done|]. cbn in *.
    by apply orb_false_iff in Hb as [? _]. }
  destruct l as [|y l]; [done|]. rewrite join_cons by done.
  destruct x; [done|]. by rewrite app_cons.
Qed.

(** The components of a path in normal form, and what [normpath] makes
    of a path that has them. *)
Lemma normpath_normale (p : string) (l : list string) :
  p ≠ "" → split barre p = replicate (initial_slashes p) "" ++ l →
  l ≠ [] → pile_ok (initial_slashes p) (rev l) →
  normpath p = p.
Proof.
  intros Hp Hs Hl Hok. unfold normpath.
  assert (Hv : est_vide p = false) by by destruct p.
  rewrite Hv, Hs, boucle_vides.
  rewrite boucle_normale by by rewrite app_nil_r.
  rewrite app_nil_r, rev_involutive.
  assert (Hq : barres (initial_slashes p) (PyStr.join barre l) = p).
  { rewrite <- (join_split barre p) at 2. rewrite Hs.
    generalize (initial_slashes p). intros n. induction n as [|n IH]; [done|].
    cbn [barres replicate app]. rewrite join_cons.
    - by rewrite IH.
    - destruct n; [done|]. done. }
  rewrite Hq. by rewrite Hv.
Qed.

Theorem normpath_idempotent (p : string) :
  normpath (normpath p) = normpath p.
Proof.
  unfold normpath at 2 3.
  destruct (est_vide p) eqn:Hv; [by vm_compute|].
  pose proof (initial_slashes_max p) as Hini.
  remember (initial_slashes p) as ini eqn:Hi. clear Hi.
  assert (Hok : pile_ok ini (fold_left (normpath_pas ini) (split barre p) [])).
  { apply boucle_ok; [|done]. apply split_morceaux. by left. }
  remember (fold_left (normpath_pas ini) (split barre p) []) as st eqn:Hst.
  clear Hst Hv p.
  rewrite <- (rev_involutive st) in Hok.
  remember (rev st) as l eqn:Hl. clear Hl st.
  assert (Hpr : Forall propre l).
  { rewrite <- (rev_involutive l). apply Forall_rev.
    by eapply pile_ok_propres. }
  destruct (est_vide (barres ini (PyStr.join barre l))) eqn:Hq;
    [by vm_compute|].
  destruct l as [|x l].
  - (* only slashes are left *)
    cbn [PyStr.join] in *.
    destruct ini as [|[|[|]]]; [done|by vm_compute|by vm_compute|lia].
  - assert (Hiq : initial_slashes (barres ini (PyStr.join barre (x :: l)))
                  = ini).
    { apply initial_slashes_barres; [done|]. by apply startswith_join. }
    apply (normpath_normale _ (x :: l)).
    + intros H. by rewrite H in Hq.
    + rewrite Hiq, split_barres. f_equal.
      apply split_join; [done|].
      eapply Forall_impl; [exact Hpr|]. by intros c (_ & _ & ?).
    + done.
    + by rewrite Hiq.
Qed.

(** [normpath] brings in no character besides the slash and the dot. *)
Lemma normpath_sans (c : ascii) (p : string) :
  c ≠ barre → c ≠ point →
  contient_car c p = false → contient_car c (normpath p) = false.
Proof.
  intros Hb Hpt Hp. unfold normpath.
  assert (Hdot : contient_car c "." = false).
  { change (contient_car c ".") with (Ascii.eqb point c || false).
    rewrite orb_false_r. apply Ascii.eqb_neq. congruence. }
  destruct (est_vide p); [done|].
  set (ini := initial_slashes p).
  assert (Hst : ∀ comps st,
            Forall (λ x, contient_car c x = false) comps →
            Forall (λ x, contient_car c x = false) st →
            Forall (λ x, contient_car c x = false)
              (fold_left (normpath_pas ini) comps st)).
  { intros comps. induction comps as [|x comps IH]; intros st Hc Hs; [done|].
    apply Forall_cons_1 in Hc as [Hx Hc]. cbn. apply IH; [done|].
    unfold normpath_pas. repeat case_match; try done.
    - by constructor.
    - destruct st; [done|]. by apply Forall_cons_1 in Hs as [_ ?]. }
  assert (Hj : contient_car c
            (PyStr.join barre (rev (fold_left (normpath_pas ini) (split barre p) [])))
            = false).
  { apply contient_car_join; [done|]. apply Forall_rev, Hst; [|done].
    apply split_morceaux. by right. }
  assert (Hbarres : ∀ n s, contient_car c s = false →
            contient_car c (barres n s) = false).
  { intros n s Hs. induction n as [|n IH]; [done|].
    cbn [barres contient_car]. rewrite IH.
    rewrite orb_false_r. apply Ascii.eqb_neq. congruence. }
  destruct (est_vide _); [done|]. by apply Hbarres.
Qed.

End OsPathFaits.

(* ===================================================================== *)
(** ** [splitext] and [join] *)

Module CheminFaits.
Import PyStr PyStrFaits DecoupeFaits OsPath.

Lemma rfind_depuis_borne (c : ascii) (s : string) (i acc : Z) :
  rfind_depuis c s i acc = acc ∨ i ≤ rfind_depuis c s i acc.
Proof.
  revert i acc. induction s as [|x s IH]; intros i acc; [by left|].
  cbn [rfind_depuis].
  destruct (IH (i + 1) (if Ascii.eqb x c then i else acc)) as [H|H].
  - rewrite H. destruct (Ascii.eqb x c); [right; lia|by left].
  - right. lia.
Qed.

(** Nothing after the index [rfind] returns is the character. *)
Lemma rfind_depuis_apres (c : ascii) (s : string) (i acc : Z) (n : nat) :
  rfind_depuis c s i acc < i + Z.of_nat n →
  contient_car c (depuis n s) = false.
Proof.
  revert i acc n. induction s as [|x s IH]; intros i acc n H.
  - by destruct n.
  - cbn [rfind_depuis] in H. destruct n as [|n].
    + cbn [depuis contient_car].
      destruct (Ascii.eqb x c) eqn:Hx.
      * destruct (rfind_depuis_borne c s (i + 1) i); lia.
      * cbn [orb]. apply (IH (i + 1) acc 0%nat). lia.
    + cbn [depuis].
      apply (IH (i + 1) (if Ascii.eqb x c then i else acc) n). lia.
Qed.

Lemma splitext_boucle_ext (p : string) (d f : Z) (n : nat) :
  (splitext_boucle p d f n).2 = ""
  ∨ (splitext_boucle p d f n).2 = depuis (Z.to_nat d) p.
Proof.
  revert f. induction n as [|n IH]; intros f; [by left|].
  cbn [splitext_boucle]. destruct (f <? d); [|by left].
  destruct (negb _); [by right|apply IH].
Qed.

(** The extension holds no slash. *)
Lemma splitext_sans_barre (p : string) :
  contient_car barre (splitext p).2 = false.
Proof.
  unfold splitext. destruct (rfind barre p <? rfind point p) eqn:Hlt; [|done].
  apply Z.ltb_lt in Hlt.
  destruct (splitext_boucle_ext p (rfind point p) (rfind barre p + 1)
              (S (Z.to_nat (rfind point p - (rfind barre p + 1)))))
    as [-> | ->]; [done|].
  apply (rfind_depuis_apres barre p 0 (-1)). fold (rfind barre p).
  assert (0 ≤ rfind point p).
  { unfold rfind in *.
    destruct (rfind_depuis_borne barre p 0 (-1));
      destruct (rfind_depuis_borne point p 0 (-1)); lia. }
  lia.
Qed.

Lemma endswith_contient (c : ascii) (s : string) :
  endswith c s = true → contient_car c s = true.
Proof.
  intros [s' ->]%endswith_app. rewrite contient_car_app. cbn.
  by rewrite Ascii.eqb_refl, orb_true_r.
Qed.

Lemma startswith_contient (c : ascii) (s : string) :
  startswith c s = true → contient_car c s = true.
Proof. destruct s as [|x s]; [done|]. cbn. by intros ->. Qed.

Lemma endswith_cons (c x : ascii) (s : string) :
  s ≠ "" → endswith c (String x s) = endswith c s.
Proof. by destruct s. Qed.

Lemma endswith_app_d (c : ascii) (a b : string) :
  b ≠ "" → endswith c (a +:+ b) = endswith c b.
Proof.
  intros Hb. induction a as [|x a IH]; [done|]. rewrite app_cons.
  cbn [endswith]. rewrite IH.
  destruct (a +:+ b) eqn:Hab; [|done]. by destruct a, b.
Qed.

(** [join2] of a directory and a name that holds no slash. *)
Lemma join2_nom (a b : string) :
  a ≠ "" → endswith barre a = false → contient_car barre b = false →
  join2 a b = a +:+ String barre b.
Proof.
  intros Ha He Hb. unfold join2.
  destruct (startswith barre b) eqn:Hs.
  - apply startswith_contient in Hs. congruence.
  - destruct a; [done|]. by rewrite He.
Qed.

Lemma join2_sans (c : ascii) (a b : string) :
  c ≠ barre → contient_car c a = false → contient_car c b = false →
  contient_car c (join2 a b) = false.
Proof.
  intros Hc Ha Hb. unfold join2. repeat case_match; try done.
  - by rewrite contient_car_app, Ha, Hb.
  - rewrite contient_car_app, Ha. cbn [orb contient_car]. rewrite Hb.
    rewrite orb_false_r. apply Ascii.eqb_neq. congruence.
Qed.

End CheminFaits.

(* ===================================================================== *)
(** ** [makedirs] along names *)

Module MakedirsFaits.
Import PyStr FS FSFaits.

Lemma noeud_en_insert_present (fs : sysfich) (k x : chemin) (n : noeud) :
  k ≠ [] → noeud_en fs k = None → is_Some (noeud_en fs x) →
  noeud_en (<[k := n]> fs) x = noeud_en fs x.
Proof.
  intros Hk Hnone [v Hx]. rewrite noeud_en_insert by done.
  case_decide; [congruence|done].
Qed.

(** What a successful [makedirs] did when every component is a name:
    the leaf [rev comps ++ cur] is new, is a directory afterwards and
    is where the path resolves; nothing that was there changed; and
    whatever is new lies on the way from [cur] to the leaf. *)
Lemma makedirs_marche_noms (comps : list string) :
  ∀ (fs : sysfich) (cur : chemin) (frais : bool) (fs' : sysfich),
  Forall (λ c, est_nom c = true) comps →
  makedirs_marche fs cur frais comps = (Ok tt, fs') →
  noeud_en fs (rev comps ++ cur) = None
  ∧ noeud_en fs' (rev comps ++ cur) = Some Dossier
  ∧ marcher fs' cur comps = Some (rev comps ++ cur)
  ∧ (∀ k, is_Some (noeud_en fs k) → noeud_en fs' k = noeud_en fs k)
  ∧ (∀ k, is_Some (noeud_en fs' k) →
          is_Some (noeud_en fs k)
          ∨ ∃ avant apres, comps = avant ++ apres ∧ k = rev avant ++ cur).
Proof.
  induction comps as [|c reste IH]; intros fs cur frais fs' Hn; [done|].
  apply Forall_cons_1 in Hn as [Hc Hn]. cbn [makedirs_marche].
  destruct (est_dossier fs cur) eqn:Hcur; cbn [negb]; [|done].
  rewrite Hc. cbn [rev]. rewrite <- List.app_assoc. cbn [app].
  destruct reste as [|c' reste'].
  - (* the leaf *)
    destruct (noeud_en fs (c :: cur)) eqn:Hk; [done|].
    intros [= <-]. cbn [rev app]. split; [done|]. split.
    { rewrite noeud_en_insert by done. by rewrite decide_True. }
    split.
    { cbn [marcher]. rewrite est_dossier_insert_dossier by done.
      by rewrite avancer_nom. }
    split.
    { intros k Hp. by apply noeud_en_insert_present. }
    intros k Hp. rewrite noeud_en_insert in Hp by done.
    case_decide as Hkk; [|by left]. right. exists [c], []. by subst k.
  - destruct (noeud_en fs (c :: cur)) as [[|contenu]|] eqn:Hk; [| done |].
    + (* the directory is there *)
      intros Hrec.
      destruct (IH fs (c :: cur) frais fs' Hn Hrec)
        as (Hnew & Hdir & Hres & Hpres & Hnouv).
      split; [done|]. split; [done|]. split.
      { cbn [marcher]. rewrite avancer_nom by done.
        assert (est_dossier fs' cur = true) as ->; [|done].
        unfold est_dossier in *. rewrite Hpres; [done|].
        by destruct (noeud_en fs cur). }
      split; [done|].
      intros k Hp. destruct (Hnouv k Hp) as [?|(avant & apres & Heq & ->)];
        [by left|right].
      exists (c :: avant), apres. rewrite Heq. split; [done|].
      cbn [rev]. by rewrite <- List.app_assoc.
    + (* the directory is made *)
      intros Hrec.
      destruct (IH (<[c :: cur := Dossier]> fs) (c :: cur) true fs' Hn Hrec)
        as (Hnew & Hdir & Hres & Hpres & Hnouv).
      assert (Hsame : ∀ k, is_Some (noeud_en fs k) →
                noeud_en (<[c :: cur := Dossier]> fs) k = noeud_en fs k).
      { intros k Hp. by apply noeud_en_insert_present. }
      split.
      { rewrite noeud_en_insert in Hnew by done. by case_decide. }
      split; [done|]. split.
      { cbn [marcher]. rewrite avancer_nom by done.
        assert (est_dossier fs' cur = true) as ->; [|done].
        unfold est_dossier in *. rewrite Hpres, Hsame; [done| |].
        - by destruct (noeud_en fs cur).
        - rewrite Hsame; by destruct (noeud_en fs cur). }
      split.
      { intros k Hp. rewrite Hpres; [by apply Hsame|].
        by rewrite Hsame. }
      intros k Hp. destruct (Hnouv k Hp) as [Hp1|(avant & apres & Heq & ->)].
      * rewrite noeud_en_insert in Hp1 by done.
        case_decide as Hkk; [|by left]. right.
        exists [c], (c' :: reste'). by subst k.
      * right. exists (c :: avant), apres. rewrite Heq. split; [done|].
        cbn [rev]. by rewrite <- List.app_assoc.
Qed.

(** On a well-formed disk the new leaf is empty. *)
Lemma makedirs_marche_feuille_vide (comps : list string)
    (fs : sysfich) (cur : chemin) (frais : bool) (fs' : sysfich) (x : string) :
  bien_forme fs →
  Forall (λ c, est_nom c = true) comps →
  makedirs_marche fs cur frais comps = (Ok tt, fs') →
  noeud_en fs' (x :: rev comps ++ cur) = None.
Proof.
  intros Hbf Hn Hm.
  destruct (makedirs_marche_noms comps fs cur frais fs' Hn Hm)
    as (Hnew & _ & _ & _ & Hnouv).
  destruct (noeud_en fs' (x :: rev comps ++ cur)) as [v|] eqn:Hx; [|done].
  exfalso. destruct (Hnouv (x :: rev comps ++ cur)) as [Hp|Hp].
  - by rewrite Hx.
  - destruct Hp as [v' Hv]. cbn in Hv. apply Hbf in Hv. cbn [tail] in Hv.
    unfold est_dossier in Hv. by rewrite Hnew in Hv.
  - destruct Hp as (avant & apres & -> & Heq).
    apply (f_equal length) in Heq.
    rewrite rev_app_distr in Heq. cbn [length] in Heq.
    rewrite !length_app, !length_rev in Heq. lia.
Qed.

End MakedirsFaits.

(* ===================================================================== *)
(** ** Removing a tree, making directories on any path *)

Module ArbreFaits.
Import PyStr FS FSFaits.

Lemma rmtree_ok (cwd : chemin) (fs fs' : sysfich) (p : string) :
  rmtree cwd fs p = (Ok tt, fs') →
  ∃ k, resoudre cwd fs p = Some k ∧ est_dossier fs k = true ∧ k ≠ []
       ∧ fs' = filter (λ e, ¬ sous k e.1) fs.
Proof.
  unfold rmtree. destruct (resoudre cwd fs p) as [k|]; [|done].
  destruct (est_dossier fs k) eqn:Hk; cbn [negb].
  - destruct (bool_decide (k ≠ [])) eqn:Hne; cbn [andb]; [|done].
    apply bool_decide_eq_true in Hne.
    destruct (est_nom _); [|done]. intros [= <-]. by exists k.
  - by destruct (present fs k).
Qed.

(** After the removal: what lay below is gone, the rest is as before. *)
Lemma noeud_en_filtre (fs : sysfich) (k x : chemin) :
  k ≠ [] →
  noeud_en (filter (λ e, ¬ sous k e.1) fs) x
  = if decide (sous k x) then None else noeud_en fs x.
Proof.
  intros Hk. destruct x as [|n x].
  - cbn. rewrite decide_False; [done|].
    intros H%suffix_nil_inv. done.
  - cbn [noeud_en]. case_decide as Hs.
    + apply map_lookup_filter_None. right. intros v _ Hn. by apply Hn.
    + destruct (fs !! (n :: x)) as [v|] eqn:Hv.
      * by apply map_lookup_filter_Some.
      * apply map_lookup_filter_None. by left.
Qed.

Lemma est_dossier_filtre (fs : sysfich) (k x : chemin) :
  k ≠ [] →
  est_dossier (filter (λ e, ¬ sous k e.1) fs) x = true →
  est_dossier fs x = true.
Proof.
  intros Hk. unfold est_dossier. rewrite noeud_en_filtre by done.
  by case_decide.
Qed.

(** A path that named the removed directory names nothing afterwards. *)
Lemma isdir_apres_rmtree (cwd : chemin) (fs fs' : sysfich) (p : string) :
  rmtree cwd fs p = (Ok tt, fs') →
  isdir cwd fs' p = false ∧ existe cwd fs' p = false.
Proof.
  intros (k & Hr & Hd & Hk & ->)%rmtree_ok.
  unfold isdir, existe, est_dossier, present.
  destruct (resoudre cwd (filter _ fs) p) as [k'|] eqn:Hr'; [|done].
  pose proof (resoudre_mono _ _ fs _ _
                (λ x, est_dossier_filtre fs k x Hk) Hr') as Hr''.
  rewrite Hr in Hr''. injection Hr'' as <-.
  rewrite noeud_en_filtre by done. by rewrite decide_True.
Qed.

Lemma sans_vides_finaux_vides (l : list string) :
  ∃ n, l = sans_vides_finaux l ++ replicate n "".
Proof.
  induction l as [|c l [n IH]]; [by exists 0%nat|]. cbn.
  destruct (sans_vides_finaux l) as [|c' l'] eqn:Hl.
  - destruct c as [|a c]; cbn.
    + exists (S n). by rewrite IH.
    + exists n. by rewrite IH.
  - exists n. by rewrite IH at 1.
Qed.

Lemma marcher_vides (fs : sysfich) (k : chemin) (n : nat) :
  est_dossier fs k = true → marcher fs k (replicate n "") = Some k.
Proof.
  intros Hk. induction n as [|n IH]; [done|]. cbn. by rewrite Hk.
Qed.

(** A successful [makedirs] keeps the directories there were, and the
    path it was given then resolves to a directory. *)
Lemma makedirs_marche_dossier (comps : list string) :
  ∀ (fs : sysfich) (cur : chemin) (frais : bool) (fs' : sysfich),
  makedirs_marche fs cur frais comps = (Ok tt, fs') →
  (∀ x, est_dossier fs x = true → est_dossier fs' x = true)
  ∧ ∃ k, marcher fs' cur comps = Some k ∧ est_dossier fs' k = true.
Proof.
  induction comps as [|c reste IH]; intros fs cur frais fs'; [done|].
  cbn [makedirs_marche marcher].
  destruct (est_dossier fs cur) eqn:Hcur; cbn [negb]; [|done].
  destruct (est_nom c) eqn:Hc.
  - rewrite avancer_nom by done. destruct reste as [|c' reste'].
    + destruct (noeud_en fs (c :: cur)) eqn:Hn; [done|]. intros [= <-].
      split; [intros x; by apply est_dossier_insert_dossier|].
      exists (c :: cur). rewrite est_dossier_insert_dossier by done.
      split; [done|]. unfold est_dossier.
      rewrite noeud_en_insert by done. by rewrite decide_True.
    + destruct (noeud_en fs (c :: cur)) as [[|contenu]|] eqn:Hn; [|done|].
      * intros Hrec. destruct (IH _ _ _ _ Hrec) as (Hd & k & Hk & Hkd).
        split; [done|]. exists k. by rewrite (Hd _ Hcur).
      * intros Hrec. destruct (IH _ _ _ _ Hrec) as (Hd & k & Hk & Hkd).
        assert (Hd' : ∀ x, est_dossier fs x = true → est_dossier fs' x = true).
        { intros x Hx. by apply Hd, est_dossier_insert_dossier. }
        split; [done|]. exists k. by rewrite (Hd' _ Hcur).
  - destruct reste as [|c' reste'].
    + destruct (frais && bool_decide (c = ".")) eqn:Hf; [|done].
      intros [= <-]. split; [done|]. rewrite Hcur.
      apply andb_true_iff in Hf as [_ ->%bool_decide_eq_true].
      by exists cur.
    + intros Hrec. destruct (IH _ _ _ _ Hrec) as (Hd & k & Hk & Hkd).
      split; [done|]. exists k. by rewrite (Hd _ Hcur).
Qed.

Lemma makedirs_dossier (cwd : chemin) (fs fs' : sysfich) (p : string) :
  makedirs cwd fs p = (Ok tt, fs') →
  (∀ x, est_dossier fs x = true → est_dossier fs' x = true)
  ∧ isdir cwd fs' p = true.
Proof.
  unfold makedirs, isdir, resoudre.
  destruct (est_vide p); [done|]. intros Hm.
  destruct (makedirs_marche_dossier _ _ _ _ _ Hm) as (Hd & k & Hk & Hkd).
  split; [done|].
  destruct (sans_vides_finaux_vides (split barre p)) as [n ->].
  rewrite marcher_app, Hk. by rewrite marcher_vides.
Qed.

(** [copy2] leaves the disk as it was when it fails, and keeps every
    directory when it succeeds. *)
Lemma copy2_dossiers (cwd : chemin) (fs fs' : sysfich) (src dst : string)
    (r : res unit) (x : chemin) :
  copy2 cwd fs src dst = (r, fs') →
  est_dossier fs x = true → est_dossier fs' x = true.
Proof.
  unfold copy2. destruct (meme_fichier _ _ _ _); [by intros [= _ <-]|].
  destruct (lire cwd fs src); [|by intros [= _ <-]].
  apply ecrire_dossiers.
Qed.

Lemma isdir_mono (cwd : chemin) (fs fs' : sysfich) (p : string) :
  (∀ x, est_dossier fs x = true → est_dossier fs' x = true) →
  isdir cwd fs p = true → isdir cwd fs' p = true.
Proof.
  intros Hd. unfold isdir.
  destruct (resoudre cwd fs p) as [k|] eqn:Hr; [|done].
  rewrite (resoudre_mono _ _ _ _ _ Hd Hr). apply Hd.
Qed.

Lemma isdir_existe (cwd : chemin) (fs : sysfich) (p : string) :
  isdir cwd fs p = true → existe cwd fs p = true.
Proof.
  unfold isdir, existe, est_dossier, present.
  destruct (resoudre cwd fs p); [|done]. by destruct (noeud_en fs _).
Qed.

End ArbreFaits.

(* ===================================================================== *)
(** ** Normal forms and resolution *)

Module NormFaits.
Import PyStr OsPath FormeNormale FS PyStrFaits DecoupeFaits OsPathFaits FSFaits ArbreFaits.

Lemma initial_slashes_absolu (p : string) :
  startswith barre p = true → initial_slashes p ≠ 0%nat.
Proof.
  destruct p as [|a [|b [|c p]]]; cbn; try done; intros ->; try done.
  - by destruct (Ascii.eqb b barre).
  - by destruct (Ascii.eqb b barre && negb (Ascii.eqb c barre)).
Qed.

Lemma initial_slashes_zero (p : string) :
  startswith barre p = false → initial_slashes p = 0%nat.
Proof.
  destruct p as [|a [|b [|c p]]]; cbn; try done; by intros ->.
Qed.

Lemma propre_avancer (cur : chemin) (c : string) :
  propre c → c ≠ ".." → avancer cur c = c :: cur.
Proof.
  intros (H1 & H2 & _) H3. unfold avancer.
  by rewrite !bool_decide_eq_false_2.
Qed.

(** One turn of the loop of [normpath] follows one step of the
    resolution: the stack resolves to where the walk is. *)
Lemma marcher_normpath_pas (fs : sysfich) (ini : nat) (start : chemin) :
  (ini ≠ 0%nat → start = []) →
  ∀ (comps st : list string) (cur k : chemin),
  Forall (λ c, contient_car barre c = false) comps →
  pile_ok ini st →
  marcher fs start (rev st) = Some cur →
  marcher fs cur comps = Some k →
  marcher fs start (rev (fold_left (normpath_pas ini) comps st)) = Some k.
Proof.
  intros Habs. induction comps as [|c comps IH]; intros st cur k Hsl Hok Hst.
  - cbn. by intros [= <-].
  - apply Forall_cons_1 in Hsl as [Hc Hsl]. cbn [marcher fold_left].
    destruct (est_dossier fs cur) eqn:Hcur; [|done].
    intros Hk.
    apply (IH _ (avancer cur c)); [done|by apply normpath_pas_ok| |done].
    unfold normpath_pas, avancer.
    destruct (bool_decide (c = "") || bool_decide (c = ".")) eqn:Hvide;
      [exact Hst|].
    destruct (negb (bool_decide (c = ".."))
              || bool_decide (ini = 0%nat) && bool_decide (st = [])
              || bool_decide (head st = Some "..")) eqn:Hpush.
    + (* pushed *)
      cbn [rev]. rewrite marcher_app, Hst. cbn [marcher]. rewrite Hcur.
      unfold avancer. by rewrite Hvide.
    + (* popped *)
      apply orb_false_iff in Hpush as [Hpush Hh].
      apply orb_false_iff in Hpush as [Hdd Hvid].
      apply negb_false_iff in Hdd. rewrite Hdd.
      apply bool_decide_eq_false in Hh.
      destruct st as [|c0 st'].
      * cbn in Hst. injection Hst as <-.
        rewrite (bool_decide_eq_true_2 (@nil string = [])) in Hvid by done.
        rewrite andb_true_r in Hvid.
        apply bool_decide_eq_false in Hvid. by rewrite (Habs Hvid).
      * cbn [tail]. cbn [rev] in Hst. rewrite marcher_app in Hst.
        destruct (marcher fs start (rev st')) as [cur'|]; [|done].
        cbn [marcher] in Hst.
        destruct (est_dossier fs cur'); [|done].
        destruct Hok as (Hp & _ & _).
        rewrite propre_avancer in Hst; [|done|].
        -- by injection Hst as <-.
        -- intros ->. by apply Hh.
Qed.

(** A path that resolves and its normal form resolve to the same
    location: there are no symbolic links. *)
Lemma resoudre_normpath (cwd : chemin) (fs : sysfich) (p : string)
    (k : chemin) :
  resoudre cwd fs p = Some k → resoudre cwd fs (normpath p) = Some k.
Proof.
  unfold resoudre at 1. destruct (est_vide p) eqn:Hv; [done|]. intros Hk.
  set (ini := initial_slashes p).
  set (start := depart cwd p) in *.
  assert (Habs : ini ≠ 0%nat → start = []).
  { unfold start, depart, ini. destruct (startswith barre p) eqn:Hs; [done|].
    by rewrite initial_slashes_zero. }
  assert (Hrel : ini = 0%nat → start = cwd).
  { unfold start, depart, ini. destruct (startswith barre p) eqn:Hs; [|done].
    intros H. by apply initial_slashes_absolu in Hs. }
  assert (Hstart : est_dossier fs start = true).
  { pose proof (split_non_vide barre p).
    destruct (split barre p); [done|]. cbn in Hk.
    by destruct (est_dossier fs start). }
  assert (Hsl : Forall (λ c, contient_car barre c = false) (split barre p))
    by (apply split_morceaux; by left).
  pose proof (marcher_normpath_pas fs ini start Habs (split barre p) []
                start k Hsl I eq_refl Hk) as Hn.
  pose proof (boucle_ok ini (split barre p) [] Hsl I) as Hok.
  unfold normpath. rewrite Hv. fold ini.
  set (st := fold_left (normpath_pas ini) (split barre p) []) in *.
  pose proof (initial_slashes_max p) as Hmax. fold ini in Hmax.
  destruct (rev st) as [|c l] eqn:Hrev.
  - cbn in Hn. injection Hn as <-.
    destruct ini as [|[|[|n]]]; [| | |lia]; cbn.
    + unfold resoudre. cbn. rewrite (Hrel eq_refl) in Hstart.
      rewrite Hstart. by rewrite <- (Hrel eq_refl).
    + by rewrite Habs.
    + by rewrite Habs.
  - assert (Hprop : Forall propre (c :: l)).
    { rewrite <- Hrev. apply Forall_rev. by apply pile_ok_propres in Hok. }
    assert (Hsans : Forall (λ x, contient_car barre x = false) (c :: l)).
    { eapply Forall_impl; [exact Hprop|]. by intros x (_ & _ & ?). }
    assert (Hne : est_vide (PyStr.join barre (c :: l)) = false).
    { apply Forall_cons_1 in Hprop as [(Hc & _) _].
      destruct l; cbn; [by destruct c|]. by destruct c. }
    assert (Hvp : est_vide (barres ini (PyStr.join barre (c :: l))) = false).
    { by destruct ini. }
    rewrite Hvp. unfold resoudre. rewrite Hvp, split_barres.
    rewrite split_join by done.
    assert (depart cwd (barres ini (PyStr.join barre (c :: l))) = start)
      as ->.
    { destruct ini as [|n].
      - cbn [barres]. unfold depart. rewrite startswith_join by done.
        by rewrite Hrel.
      - cbn. by rewrite Habs. }
    rewrite marcher_app, marcher_vides by done. exact Hn.
Qed.

End NormFaits.

(* ===================================================================== *)
(** ** [makedirs] on a path that ends in a name; names below a path *)

Module FeuilleFaits.
Import PyStr OsPath FS PyStrFaits DecoupeFaits CheminFaits FSFaits
  MakedirsFaits ArbreFaits.

Lemma est_dossier_noeud (fs : sysfich) (k : chemin) :
  est_dossier fs k = true → noeud_en fs k = Some Dossier.
Proof. unfold est_dossier. by destruct (noeud_en fs k) as [[|?]|]. Qed.

Lemma bien_forme_enfant (fs : sysfich) (k : chemin) (x : string) :
  bien_forme fs → noeud_en fs k = None → noeud_en fs (x :: k) = None.
Proof.
  intros Hbf Hk. destruct (noeud_en fs (x :: k)) as [v|] eqn:Hx; [|done].
  cbn in Hx. apply Hbf in Hx. cbn [tail] in Hx.
  unfold est_dossier in Hx. by rewrite Hk in Hx.
Qed.

Lemma bien_forme_insert_dossier (fs : sysfich) (cur : chemin) (c : string) :
  bien_forme fs → est_dossier fs cur = true →
  bien_forme (<[c :: cur := Dossier]> fs).
Proof.
  intros Hbf Hcur. apply map_Forall_insert_2.
  - cbn [tail]. by apply est_dossier_insert_dossier.
  - intros k v Hk. apply est_dossier_insert_dossier; [done|].
    by apply (Hbf k v).
Qed.

Lemma last_cons_cons {A} (x y : A) (l : list A) :
  last (x :: y :: l) = last (y :: l).
Proof. done. Qed.

(** What a successful [makedirs] did on a path that ends in a name: the
    leaf is new, is a directory afterwards, is where the path resolves,
    and is empty; nothing that was there changed. *)
Lemma makedirs_marche_feuille (comps : list string) :
  ∀ (fs : sysfich) (cur : chemin) (frais : bool) (fs' : sysfich),
  bien_forme fs →
  est_nom (default "" (last comps)) = true →
  makedirs_marche fs cur frais comps = (Ok tt, fs') →
  ∃ kd, marcher fs' cur comps = Some kd
        ∧ noeud_en fs kd = None
        ∧ noeud_en fs' kd = Some Dossier
        ∧ (∀ x, noeud_en fs' (x :: kd) = None)
        ∧ (∀ k, is_Some (noeud_en fs k) → noeud_en fs' k = noeud_en fs k).
Proof.
  induction comps as [|c reste IH]; intros fs cur frais fs' Hbf Hl; [done|].
  cbn [makedirs_marche].
  destruct (est_dossier fs cur) eqn:Hcur; cbn [negb]; [|done].
  assert (Hmono : ∀ fs2 : sysfich,
            (∀ k, is_Some (noeud_en fs k) → noeud_en fs2 k = noeud_en fs k) →
            est_dossier fs2 cur = true).
  { intros fs2 Hp. unfold est_dossier in *. rewrite Hp; [done|].
    by destruct (noeud_en fs cur). }
  destruct reste as [|c' reste'].
  - (* the leaf *)
    cbn in Hl. rewrite Hl.
    destruct (noeud_en fs (c :: cur)) eqn:Hk; [done|].
    intros [= <-]. exists (c :: cur). split.
    { cbn [marcher]. rewrite est_dossier_insert_dossier by done.
      by rewrite avancer_nom. }
    split; [done|]. split.
    { rewrite noeud_en_insert by done. by rewrite decide_True. }
    split.
    { intros x. rewrite noeud_en_insert by done.
      rewrite decide_False.
      - by apply bien_forme_enfant.
      - intros H. apply (f_equal length) in H. cbn in H. lia. }
    intros k Hp. by apply noeud_en_insert_present.
  - rewrite last_cons_cons in Hl.
    destruct (est_nom c) eqn:Hc.
    + destruct (noeud_en fs (c :: cur)) as [[|contenu]|] eqn:Hk; [| done |].
      * intros Hrec.
        destruct (IH fs (c :: cur) frais fs' Hbf Hl Hrec)
          as (kd & Hres & Hnew & Hdir & Hvide & Hpres).
        exists kd. split; [|done].
        cbn [marcher]. rewrite avancer_nom by done.
        by rewrite (Hmono fs' Hpres).
      * intros Hrec.
        assert (Hsame : ∀ k, is_Some (noeud_en fs k) →
                  noeud_en (<[c :: cur := Dossier]> fs) k = noeud_en fs k).
        { intros k Hp. by apply noeud_en_insert_present. }
        destruct (IH (<[c :: cur := Dossier]> fs) (c :: cur) true fs'
                    (bien_forme_insert_dossier _ _ _ Hbf Hcur) Hl Hrec)
          as (kd & Hres & Hnew & Hdir & Hvide & Hpres).
        assert (Hpres' : ∀ k, is_Some (noeud_en fs k) →
                  noeud_en fs' k = noeud_en fs k).
        { intros k Hp. rewrite Hpres; [by apply Hsame|]. by rewrite Hsame. }
        exists kd. split.
        { cbn [marcher]. rewrite avancer_nom by done.
          by rewrite (Hmono fs' Hpres'). }
        split.
        { rewrite noeud_en_insert in Hnew by done. by case_decide. }
        done.
    + intros Hrec.
      destruct (IH fs (avancer cur c) frais fs' Hbf Hl Hrec)
        as (kd & Hres & Hnew & Hdir & Hvide & Hpres).
      exists kd. split; [|done].
      cbn [marcher]. by rewrite (Hmono fs' Hpres).
Qed.

Lemma sans_vides_finaux_app (l1 l2 : list string) :
  sans_vides_finaux l2 ≠ [] →
  sans_vides_finaux (l1 ++ l2) = l1 ++ sans_vides_finaux l2.
Proof.
  intros H. induction l1 as [|c l1 IH]; [done|].
  cbn [app sans_vides_finaux]. rewrite IH.
  destruct (l1 ++ sans_vides_finaux l2) eqn:He; [|done].
  by apply app_eq_nil in He as [_ ?].
Qed.

Lemma nom_final_non_vide (p : string) :
  nom_final p → sans_vides_finaux (split barre p) ≠ [].
Proof. unfold nom_final. by destruct (sans_vides_finaux _). Qed.

Lemma nom_final_app (a b : string) :
  nom_final b → nom_final (a +:+ String barre b).
Proof.
  intros Hb. pose proof (nom_final_non_vide b Hb) as Hne.
  unfold nom_final in *. rewrite split_app_sep, sans_vides_finaux_app by done.
  rewrite last_app. by destruct (last (sans_vides_finaux (split barre b))).
Qed.

Lemma nom_final_join2 (a b : string) :
  nom_final b → nom_final (join2 a b).
Proof.
  intros Hb. unfold join2. destruct (startswith barre b); [done|].
  destruct (est_vide a) eqn:Ha; cbn [orb].
  - destruct a; [|done]. by rewrite app_nil.
  - destruct (endswith barre a) eqn:He; [|by apply nom_final_app].
    apply endswith_app in He as [a' ->].
    rewrite app_assoc, app_cons, app_nil. by apply nom_final_app.
Qed.

Lemma nom_final_est_vide (p : string) : nom_final p → est_vide p = false.
Proof. unfold nom_final. by destruct p. Qed.

(** [makedirs] changes no entry that was there. *)
Lemma makedirs_marche_conserve (comps : list string) :
  ∀ (fs : sysfich) (cur : chemin) (frais : bool) (r : res unit)
    (fs' : sysfich),
  makedirs_marche fs cur frais comps = (r, fs') →
  ∀ k, is_Some (noeud_en fs k) → noeud_en fs' k = noeud_en fs k.
Proof.
  induction comps as [|c reste IH]; intros fs cur frais r fs';
    cbn [makedirs_marche]; [by intros [= _ <-]|].
  destruct (est_dossier fs cur); cbn [negb]; [|by intros [= _ <-]].
  destruct (est_nom c).
  - destruct reste as [|c' reste'].
    + destruct (noeud_en fs (c :: cur)) eqn:Hk; [by intros [= _ <-]|].
      intros [= _ <-] k Hp. by apply noeud_en_insert_present.
    + destruct (noeud_en fs (c :: cur)) as [[|?]|] eqn:Hk.
      * apply IH.
      * by intros [= _ <-].
      * intros Hrec k Hp. rewrite (IH _ _ _ _ _ Hrec).
        -- by apply noeud_en_insert_present.
        -- by rewrite noeud_en_insert_present.
  - destruct reste as [|c' reste'].
    + destruct (frais && bool_decide (c = ".")); by intros [= _ <-].
    + apply IH.
Qed.

Lemma makedirs_lire (cwd : chemin) (fs fs' : sysfich) (p src : string)
    (r : res unit) (c : contenu) :
  makedirs cwd fs p = (r, fs') →
  lire cwd fs src = Ok c → lire cwd fs' src = Ok c.
Proof.
  unfold makedirs. destruct (est_vide p); [by intros [= _ <-]|].
  intros Hm. pose proof (makedirs_marche_conserve _ _ _ _ _ _ Hm) as Hpres.
  unfold lire.
  destruct (resoudre cwd fs src) as [k|] eqn:Hk; [|done].
  assert (Hd : ∀ x, est_dossier fs x = true → est_dossier fs' x = true).
  { intros x Hx. unfold est_dossier in *. rewrite Hpres; [done|].
    by destruct (noeud_en fs x). }
  rewrite (resoudre_mono _ _ _ _ _ Hd Hk).
  destruct (noeud_en fs k) as [[|c0]|] eqn:Hn; try done.
  intros [= <-]. rewrite Hpres by by rewrite Hn. by rewrite Hn.
Qed.

(** [makedirs] on a path that ends in a name. *)
Lemma makedirs_feuille (cwd : chemin) (fs fs' : sysfich) (p : string) :
  bien_forme fs → nom_final p →
  makedirs cwd fs p = (Ok tt, fs') →
  ∃ kd, resoudre cwd fs' p = Some kd
        ∧ noeud_en fs kd = None
        ∧ noeud_en fs' kd = Some Dossier
        ∧ (∀ x, noeud_en fs' (x :: kd) = None)
        ∧ (∀ k, is_Some (noeud_en fs k) → noeud_en fs' k = noeud_en fs k).
Proof.
  intros Hbf Hn. unfold makedirs, resoudre.
  rewrite (nom_final_est_vide p Hn). intros Hm.
  destruct (makedirs_marche_feuille _ _ _ _ _ Hbf Hn Hm)
    as (kd & Hres & Hnew & Hdir & Hvide & Hpres).
  exists kd. split; [|done].
  destruct (sans_vides_finaux_vides (split barre p)) as [n Hsp].
  rewrite Hsp, marcher_app, Hres. apply marcher_vides.
  unfold est_dossier. by rewrite Hdir.
Qed.

(** A name below a directory that a path resolves to. *)
Lemma resoudre_join2_nom (cwd : chemin) (fs : sysfich) (d f : string)
    (kd : chemin) :
  split barre f = [f] → est_nom f = true →
  resoudre cwd fs d = Some kd → est_dossier fs kd = true →
  resoudre cwd fs (join2 d f) = Some (f :: kd).
Proof.
  intros Hf Hn Hr Hk. unfold join2.
  assert (Hs : startswith barre f = false).
  { destruct f as [|x f]; [done|]. cbn in *.
    destruct (Ascii.eqb x barre); [by destruct (split barre f)|done]. }
  rewrite Hs. unfold resoudre in Hr.
  destruct (est_vide d) eqn:Hv; [done|]. cbn [orb].
  assert (Hpas : marcher fs kd [f] = Some (f :: kd)).
  { cbn. by rewrite Hk, avancer_nom. }
  destruct (endswith barre d) eqn:He.
  - apply endswith_app in He as [d' ->].
    rewrite app_assoc, app_cons, app_nil.
    unfold resoudre. rewrite !est_vide_app. cbn [est_vide andb].
    rewrite !andb_false_r.
    assert (Hdep : depart cwd (d' +:+ String barre f)
                   = depart cwd (d' +:+ String barre "")).
    { unfold depart. by destruct d'. }
    rewrite Hdep, split_app_sep, Hf, marcher_app.
    rewrite split_app_sep, marcher_app in Hr. cbn [split] in Hr.
    destruct (marcher fs _ (split barre d')) as [c0|]; [|done].
    cbn [marcher] in Hr. destruct (est_dossier fs c0) eqn:Hc0; [|done].
    change (avancer c0 "") with c0 in Hr. injection Hr as ->. exact Hpas.
  - unfold resoudre. rewrite est_vide_app, Hv. cbn [andb].
    assert (Hdep : depart cwd (d +:+ String barre f) = depart cwd d).
    { unfold depart. by destruct d. }
    by rewrite Hdep, split_app_sep, Hf, marcher_app, Hr.
Qed.

Lemma split_join2_nom (d f : string) :
  d ≠ "" → split barre f = [f] →
  ∃ l, split barre (join2 d f) = l ++ [f] ∧ est_vide (join2 d f) = false.
Proof.
  intros Hd Hf. unfold join2.
  assert (Hs : startswith barre f = false).
  { destruct f as [|x f]; [done|]. cbn in *.
    destruct (Ascii.eqb x barre); [by destruct (split barre f)|done]. }
  rewrite Hs. assert (Hv : est_vide d = false) by by destruct d.
  rewrite Hv. cbn [orb].
  destruct (endswith barre d) eqn:He.
  - apply endswith_app in He as [d' ->].
    rewrite app_assoc, app_cons, app_nil, split_app_sep, Hf.
    exists (split barre d'). split; [done|].
    rewrite est_vide_app. cbn. by rewrite andb_false_r.
  - rewrite split_app_sep, Hf. exists (split barre d). split; [done|].
    by rewrite est_vide_app, Hv.
Qed.

(** The normal form of a path that ends in a name ends in that name. *)
Lemma resoudre_normpath_nom (cwd : chemin) (fs : sysfich) (d f : string)
    (k : chemin) :
  d ≠ "" → split barre f = [f] → est_nom f = true →
  resoudre cwd fs (normpath (join2 d f)) = Some k →
  ∃ k', k = f :: k'.
Proof.
  intros Hd Hf Hn.
  destruct (split_join2_nom d f Hd Hf) as (l & Hsp & Hv).
  unfold normpath. rewrite Hv, Hsp.
  set (ini := initial_slashes (join2 d f)).
  rewrite fold_left_app. cbn [fold_left].
  set (st := fold_left (normpath_pas ini) l []).
  assert (Hsl : Forall (λ c, contient_car barre c = false) l).
  { assert (H : Forall (λ c, contient_car barre c = false) (l ++ [f])).
    { rewrite <- Hsp. apply split_morceaux. by left. }
    by apply Forall_app in H as [? _]. }
  assert (Hf' : contient_car barre f = false).
  { assert (H : Forall (λ c, contient_car barre c = false) (l ++ [f])).
    { rewrite <- Hsp. apply split_morceaux. by left. }
    apply Forall_app in H as [_ H]. by apply Forall_cons_1 in H as [? _]. }
  pose proof (OsPathFaits.boucle_ok ini l [] Hsl I) as Hok. fold st in Hok.
  assert (Hpas : normpath_pas ini st f = f :: st).
  { unfold normpath_pas. unfold est_nom in Hn.
    apply negb_true_iff, orb_false_iff in Hn as [Hn Hn3].
    rewrite Hn, Hn3. done. }
  rewrite Hpas. cbn [rev].
  assert (Hsans : Forall (λ x, contient_car barre x = false) (rev st ++ [f])).
  { apply Forall_app. split; [|by constructor].
    apply Forall_rev. apply OsPathFaits.pile_ok_propres in Hok.
    eapply Forall_impl; [exact Hok|]. by intros x (_ & _ & ?). }
  assert (Hnv : rev st ++ [f] ≠ []) by by destruct (rev st).
  assert (Hsj : split barre (PyStr.join barre (rev st ++ [f]))
                = rev st ++ [f]) by by apply split_join.
  assert (Hvj : est_vide (PyStr.join barre (rev st ++ [f])) = false).
  { destruct (PyStr.join barre (rev st ++ [f])) eqn:Hj; [|done].
    cbn in Hsj. destruct (rev st) as [|? [|]]; cbn in Hsj; try done.
    injection Hsj as <-. done. }
  assert (Hvp : est_vide (barres ini (PyStr.join barre (rev st ++ [f])))
                = false) by by destruct ini.
  rewrite Hvp. unfold resoudre. rewrite Hvp, OsPathFaits.split_barres, Hsj.
  rewrite List.app_assoc, marcher_app.
  destruct (marcher fs _ (replicate ini "" ++ rev st)) as [k'|]; [|done].
  cbn. destruct (est_dossier fs k'); [|done].
  rewrite avancer_nom by done. intros [= <-]. by exists k'.
Qed.

(** A relative path joined to a directory path resolves from where the
    directory path resolves. *)
Lemma resoudre_join2 (cwd : chemin) (fs : sysfich) (a b : string) :
  a ≠ "" → startswith barre b = false →
  resoudre cwd fs (join2 a b)
  = match resoudre cwd fs a with
    | Some k => marcher fs k (split barre b)
    | None => None
    end.
Proof.
  intros Ha Hb. unfold join2. rewrite Hb.
  assert (Hv : est_vide a = false) by by destruct a.
  rewrite Hv. cbn [orb].
  destruct (endswith barre a) eqn:He.
  - apply endswith_app in He as [a' ->].
    rewrite app_assoc, app_cons, app_nil.
    unfold resoudre. rewrite !est_vide_app. cbn [est_vide andb].
    rewrite !andb_false_r.
    assert (Hdep : depart cwd (a' +:+ String barre b)
                   = depart cwd (a' +:+ String barre "")).
    { unfold depart. by destruct a'. }
    rewrite Hdep, !split_app_sep, !marcher_app. cbn [split].
    destruct (marcher fs _ (split barre a')) as [k|]; [|done].
    cbn [marcher]. destruct (est_dossier fs k) eqn:Hk; [done|].
    pose proof (split_non_vide barre b).
    destruct (split barre b); [done|]. cbn. by rewrite Hk.
  - unfold resoudre. rewrite est_vide_app, Hv. cbn [andb].
    assert (Hdep : depart cwd (a +:+ String barre b) = depart cwd a).
    { unfold depart. by destruct a. }
    by rewrite Hdep, split_app_sep, marcher_app.
Qed.

(** Two spellings of a directory give two spellings of what lies
    below it; an absolute path does not depend on the directory. *)
Lemma resoudre_join2_racine (cwd : chemin) (fs : sysfich) (a a' b : string) :
  startswith barre b = true
  ∨ (a ≠ "" ∧ a' ≠ "" ∧ resoudre cwd fs a = resoudre cwd fs a') →
  resoudre cwd fs (join2 a b) = resoudre cwd fs (join2 a' b).
Proof.
  destruct (startswith barre b) eqn:Hb.
  - intros _. unfold join2. by rewrite Hb.
  - intros [?|(Ha & Ha' & Heq)]; [done|].
    by rewrite !resoudre_join2, Heq.
Qed.

Lemma ecrire_dossiers_inv (cwd : chemin) (fs fs' : sysfich) (p : string)
    (c : contenu) (r : res unit) (x : chemin) :
  ecrire cwd fs p c = (r, fs') →
  est_dossier fs' x = true → est_dossier fs x = true.
Proof.
  unfold ecrire.
  destruct (resoudre cwd fs p) as [[|n parent]|]; try by intros [= _ <-].
  destruct (est_dossier fs parent); cbn [negb]; [|by intros [= _ <-]].
  destruct (est_dossier fs (n :: parent)); [by intros [= _ <-]|].
  intros [= _ <-]. unfold est_dossier. rewrite noeud_en_insert by done.
  by case_decide.
Qed.

Lemma copy2_ok (cwd : chemin) (fs fs' : sysfich) (src dst : string) :
  copy2 cwd fs src dst = (Ok tt, fs') →
  ∃ c, lire cwd fs src = Ok c
       ∧ ecrire cwd fs
           (if isdir cwd fs dst then join2 dst (basename src) else dst) c
         = (Ok tt, fs').
Proof.
  unfold copy2. destruct (meme_fichier _ _ _ _); [done|].
  destruct (lire cwd fs src) as [c|e]; [|done]. intros H. by exists c.
Qed.

End FeuilleFaits.

(* ===================================================================== *)
(** ** Searching the placements *)

Lemma existsb_egal_str (s : string) (l : list json) :
  existsb (Py.egal_str s) l = true ↔ JStr s ∈ l.
Proof.
  induction l as [|x l IH]; cbn.
  - split; [discriminate|]. intros H. inversion H.
  - rewrite orb_true_iff, IH, elem_of_cons. split.
    + intros [H|H]; [left|by right].
      destruct x; try discriminate. cbn in H. case_bool_decide; congruence.
    + intros [<-|H]; [left|by right]. cbn. by rewrite bool_decide_eq_true_2.
Qed.

Lemma chercher_case_spec (produit : string) (m : dict) :
  placements_types m →
  ∃ r, chercher_case produit m = Ok r
       ∧ (∀ case, r = Some case ↔ premiere_occurrence produit m case)
       ∧ (r = None ↔ aucune_occurrence produit m).
Proof.
  induction 1 as [|[k v] m [ps Hv] Hm (r & Hr & Hsome & Hnone)]; cbn in *.
  - exists None. split; [reflexivity|]. split.
    + intros case. split; [discriminate|].
      intros (avant & ? & ? & H & _). by destruct avant.
    + split; [|reflexivity]. intros _ case ps H. inversion H.
  - subst v. cbn. destruct (existsb (Py.egal_str produit) ps) eqn:He.
    + apply existsb_egal_str in He. exists (Some k).
      split; [reflexivity|]. split.
      * intros case. split.
        -- intros [= <-]. by exists [], ps, m.
        -- intros ([|e avant] & ps' & apres & H & Hin & Hav).
           ++ cbn in H. congruence.
           ++ cbn in H. injection H as <- _. apply Forall_cons_1 in Hav as [Hav _].
              by destruct (Hav ps eq_refl).
      * split; [discriminate|]. intros H.
        destruct (H k ps); [left|done].
    + assert (Hnot : JStr produit ∉ ps).
      { intros H. apply existsb_egal_str in H. congruence. }
      exists r. split; [exact Hr|]. split.
      * intros case. rewrite Hsome. split.
        -- intros (avant & ps' & apres & -> & Hin & Hav).
           exists ((k, JArr ps) :: avant), ps', apres. split; [reflexivity|].
           split; [done|]. constructor; [|done]. cbn. by intros ? [= <-].
        -- intros ([|e avant] & ps' & apres & H & Hin & Hav).
           ++ cbn in H. injection H as _ <- _. done.
           ++ cbn in H. injection H as _ ->. apply Forall_cons_1 in Hav as [_ Hav].
              by exists avant, ps', apres.
      * rewrite Hnone. split.
        -- intros H case ps' [[= -> ->]|Hin]%elem_of_cons; [done|]. by eapply H.
        -- intros H case ps' Hin. eapply H. by right.
Qed.

(* ===================================================================== *)
(** ** The methods, step by step *)

Section Methodes.
Variable DOSSIER_PROJETS : string.
Variable cwd : chemin.

Local Abbreviation creer_projet := (creer_projet DOSSIER_PROJETS cwd).
Local Abbreviation charger_projet := (charger_projet DOSSIER_PROJETS cwd).
Local Abbreviation supprimer_projet := (supprimer_projet DOSSIER_PROJETS cwd).
Local Abbreviation sauvegarder := (sauvegarder DOSSIER_PROJETS cwd).
Local Abbreviation definir_produits_case :=
  (definir_produits_case DOSSIER_PROJETS cwd).
Local Abbreviation mon_dossier := (mon_dossier DOSSIER_PROJETS).
Local Abbreviation mon_fichier := (mon_fichier DOSSIER_PROJETS).
Local Abbreviation executer := (executer DOSSIER_PROJETS cwd).
Local Abbreviation atteignable := (atteignable DOSSIER_PROJETS cwd).

(** What a successful [creer_projet] went through. *)
Lemma creer_projet_ok (nom magasin auteur plan : string) (s s' : etat) :
  creer_projet nom magasin auteur plan s = (Ok tt, s') →
  let nom' := PyStr.strip nom in
  forallb PyStr.vrai [nom; magasin; auteur; plan] = true
  ∧ PyStr.vrai nom' = true
  ∧ FS.existe cwd (disque s) (mon_dossier nom') = false
  ∧ FS.isfile cwd (disque s) plan = true
  ∧ ∃ fs1 fs2 fs3,
      FS.makedirs cwd (disque s) (mon_dossier nom') = (Ok tt, fs1)
      ∧ FS.copy2 cwd fs1 plan (mon_plan nom' plan) = (Ok tt, fs2)
      ∧ FS.ecrire cwd fs2 (mon_fichier nom')
          (Document (JObj (ma_config nom' magasin auteur plan))) = (Ok tt, fs3)
      ∧ s' = {| disque := fs3;
                projet_actuel := Some (ma_config nom' magasin auteur plan) |}.
Proof.
  unfold creer_projet.
  destruct (forallb _ _) eqn:Hchamps; cbn [negb]; [|discriminate].
  destruct (PyStr.vrai (PyStr.strip nom)) eqn:Hnom; cbn [negb]; [|discriminate].
  unfold lier at 1, lire_disque at 1.
  destruct (FS.existe _ _ _) eqn:Hex; [discriminate|].
  unfold lier at 1, lire_disque at 1.
  destruct (FS.isfile _ _ _) eqn:Hplan; cbn [negb]; [|discriminate].
  unfold lier, sur_disque, json_dump, affecter_projet. cbn [disque projet_actuel].
  destruct (FS.makedirs _ _ _) as [[[]|e1] fs1] eqn:H1; [|discriminate].
  cbn [disque projet_actuel].
  destruct (FS.copy2 _ _ _ _) as [[[]|e2] fs2] eqn:H2; [|discriminate].
  unfold sur_disque. cbn [disque projet_actuel].
  destruct (FS.ecrire _ _ _ _) as [[[]|e3] fs3] eqn:H3; [|discriminate].
  cbn [disque projet_actuel].
  intros [= <-]. repeat split; try done. by exists fs1, fs2, fs3.
Qed.

(** A call of [creer_projet] leaves the current project as it was or
    sets it to the new configuration. *)
Lemma creer_projet_projet (nom magasin auteur plan : string)
    (s s' : etat) (r : res unit) :
  creer_projet nom magasin auteur plan s = (r, s') →
  match r with
  | Ok _ => projet_actuel s'
            = Some (ma_config (PyStr.strip nom) magasin auteur plan)
  | Err _ => projet_actuel s' = projet_actuel s
  end.
Proof.
  unfold creer_projet.
  destruct (forallb _ _); cbn [negb]; [|by intros [= <- <-]].
  destruct (PyStr.vrai (PyStr.strip nom)); cbn [negb]; [|by intros [= <- <-]].
  unfold lier at 1, lire_disque at 1.
  destruct (FS.existe _ _ _); [by intros [= <- <-]|].
  unfold lier at 1, lire_disque at 1.
  destruct (FS.isfile _ _ _); cbn [negb]; [|by intros [= <- <-]].
  unfold lier, sur_disque, json_dump, affecter_projet. cbn [disque projet_actuel].
  destruct (FS.makedirs _ _ _) as [[[]|e1] fs1]; [|by intros [= <- <-]].
  cbn [disque projet_actuel].
  destruct (FS.copy2 _ _ _ _) as [[[]|e2] fs2]; [|by intros [= <- <-]].
  unfold sur_disque. cbn [disque projet_actuel].
  destruct (FS.ecrire _ _ _ _) as [[[]|e3] fs3]; by intros [= <- <-].
Qed.

(** What a successful [charger_projet] read and returned. *)
Lemma charger_projet_ok (nom : string) (s s' : etat) (d' : dict) :
  charger_projet nom s = (Ok d', s') →
  ∃ d chemin,
    FS.isdir cwd (disque s) (mon_dossier nom) = true
    ∧ FS.lire cwd (disque s) (mon_fichier nom) = Ok (Document (JObj d))
    ∧ Py.tous_dans champs_requis (JObj d) = Ok true
    ∧ Dict.get "chemin_plan" d = Some (JStr chemin)
    ∧ d' = compatibilite_produits
             (Dict.set "chemin_plan"
                (JStr (PyStr.replace PyStr.contre_barre PyStr.barre
                         (OsPath.normpath chemin))) d)
    ∧ s' = {| disque := disque s; projet_actuel := Some d' |}.
Proof.
  unfold charger_projet.
  unfold lier at 1, lire_disque at 1.
  destruct (FS.isdir _ _ _) eqn:Hdir; cbn [negb]; [|discriminate].
  unfold lier at 1, essayer, json_load, lier at 1, lire_disque.
  destruct (FS.lire _ _ _) as [[j|b]|e] eqn:Hlire;
    unfold ret, lever; cbv beta iota; try discriminate.
  unfold lier at 1, de_res at 1.
  destruct (Py.tous_dans _ _) as [[|]|e] eqn:Htous; cbn [negb]; try discriminate.
  destruct j as [| | | |l|d]; try discriminate.
  unfold lier at 1, de_res, Dict.item.
  destruct (Dict.get "chemin_plan" d) as [[| | |chemin| |]|] eqn:Hc; try discriminate.
  unfold lier, affecter_projet, ret. cbn [disque].
  intros [= <- <-]. by exists d, chemin.
Qed.

Lemma charger_projet_err (nom : string) (s : etat) (e : exn) (s' : etat) :
  charger_projet nom s = (Err e, s') → s' = s.
Proof.
  unfold charger_projet.
  unfold lier at 1, lire_disque at 1.
  destruct (FS.isdir _ _ _); cbn [negb]; [|by intros [= _ <-]].
  unfold lier at 1, essayer, json_load, lier at 1, lire_disque.
  destruct (FS.lire _ _ _) as [[j|b]|e0];
    unfold ret, lever; cbv beta iota; try by intros [= _ <-].
  unfold lier at 1, de_res at 1.
  destruct (Py.tous_dans _ _) as [[|]|e0]; cbn [negb]; try by intros [= _ <-].
  destruct j as [| | | |l|d]; try by intros [= _ <-].
  unfold lier at 1, de_res, Dict.item.
  destruct (Dict.get "chemin_plan" d) as [[| | |chemin| |]|];
    by intros [= _ <-].
Qed.

(** [sauvegarder] never touches the current project. *)
Lemma sauvegarder_projet (s : etat) :
  projet_actuel (sauvegarder s).2 = projet_actuel s.
Proof.
  unfold sauvegarder, lier, obtenir_projet.
  destruct (projet_actuel s) as [d|] eqn:Hp; [|done].
  destruct (projet_vrai (Some d)); cbn [negb]; [|done].
  unfold de_res. destruct (Dict.item "nom" d) as [[| | |nom| |]|]; try done.
  unfold essayer, json_dump, sur_disque.
  by destruct (FS.ecrire _ _ _ _) as [[[]|e] fs'].
Qed.

Lemma sauvegarder_ok (s s' : etat) :
  sauvegarder s = (Ok tt, s') →
  ∃ d nom,
    projet_actuel s = Some d ∧ Dict.get "nom" d = Some (JStr nom)
    ∧ FS.ecrire cwd (disque s) (mon_fichier nom) (Document (JObj d))
      = (Ok tt, disque s')
    ∧ projet_actuel s' = Some d.
Proof.
  unfold sauvegarder, lier, obtenir_projet.
  destruct (projet_actuel s) as [d|] eqn:Hp; [|discriminate].
  destruct (projet_vrai (Some d)); cbn [negb]; [|discriminate].
  unfold de_res, Dict.item.
  destruct (Dict.get "nom" d) as [[| | |nom| |]|] eqn:Hn; try discriminate.
  unfold essayer, json_dump, sur_disque.
  destruct (FS.ecrire _ _ _ _) as [[[]|e] fs'] eqn:He; [|discriminate].
  intros [= <-]. exists d, nom. by rewrite Hp.
Qed.

(** A call of [definir_produits_case] on a current project whose
    placements are a dictionary: the placements are updated, then saved. *)
Lemma definir_produits_case_dict (case : string) (produits : json)
    (s : etat) (d m : dict) :
  projet_actuel s = Some d → projet_vrai (Some d) = true →
  Dict.get "produits" d = Some (JObj m) →
  definir_produits_case case produits s
  = sauvegarder
      {| disque := disque s;
         projet_actuel :=
           Some (Dict.set "produits" (JObj (placer case produits m)) d) |}.
Proof.
  intros Hp Hv Hm. unfold definir_produits_case.
  unfold lier at 1, obtenir_projet. rewrite Hp, Hv. cbn [negb].
  unfold placer. destruct (Py.vrai produits).
  - unfold lier at 1, modifier_produits, lier at 1, de_res, Dict.item.
    rewrite Hm. unfold affecter_projet. reflexivity.
  - unfold lier at 1, lier at 1, de_res at 1, Dict.item. rewrite Hm.
    unfold lier at 1, de_res at 1. cbn [Py.dans].
    destruct (Dict.contient case m).
    + unfold modifier_produits, lier at 1, de_res, Dict.item. rewrite Hm.
      unfold affecter_projet. reflexivity.
    + unfold ret. rewrite (DictFaits.set_get_id _ _ _ Hm).
      destruct s as [fs p]. cbn in *. by subst p.
Qed.
Lemma obtenir_sans_projet (case : string) (s : etat) :
projet_actuel s = None → obtenir_produits_case case s = (Ok (JArr []), s).
Proof.
intros H. unfold obtenir_produits_case, lier, obtenir_projet. rewrite H. reflexivity.
Qed.

Lemma appels_obtenir_sans_projet (cases : list string) (s : etat) :
projet_actuel s = None →
appels_obtenir cases s = ((λ _, Ok (JArr [])) <$> cases, s).
Proof.
intros H. induction cases as [|c cases IH]; [reflexivity|].
cbn [appels_obtenir]. rewrite (obtenir_sans_projet c s H), IH. reflexivity.
Qed.

(** What a successful [supprimer_projet] does to the current project. *)
Lemma supprimer_projet_ok (nom : string) (s s' : etat) :
supprimer_projet nom s = (Ok tt, s') →
projet_actuel s' =
  match projet_actuel s with
  | Some d => if projet_vrai (Some d) then
                match Dict.get "nom" d with
                | Some n => if Py.egal_str nom n then None else Some d
                | None => Some d end
              else Some d
  | None => None
  end.
Proof.
unfold supprimer_projet, lier, lire_disque, essayer, sur_disque, lever, obtenir_projet.
destruct (FS.isdir _ _ _); cbn [negb]; [|discriminate].
destruct (FS.rmtree _ _ _) as [[[]|e] fs'] eqn:Hrm; cbn; [|discriminate].
destruct (projet_actuel s) as [[|e0 d]|] eqn:Hp; cbn [projet_vrai].
- unfold ret. intros [= <-]. cbn. congruence.
- unfold de_res, Dict.item.
  destruct (Dict.get "nom" (e0 :: d)) as [n|]; [|discriminate].
  destruct (Py.egal_str nom n); unfold affecter_projet, ret;
    intros [= <-]; cbn [projet_actuel]; congruence.
- unfold ret. intros [= <-]. cbn. congruence.
Qed.

Lemma obtenir_produits_case_etat (case : string) (s : etat) :
  (obtenir_produits_case case s).2 = s.
Proof.
  unfold obtenir_produits_case, lier, obtenir_projet.
  destruct (projet_actuel s) as [d|]; [|done].
  destruct (projet_vrai (Some d)); cbn [negb]; [|done].
  unfold de_res. destruct (Dict.item "produits" d) as [[]|]; done.
Qed.

Lemma obtenir_tous_produits_places_etat (s : etat) :
  (obtenir_tous_produits_places s).2 = s.
Proof.
  unfold obtenir_tous_produits_places, lier, obtenir_projet.
  destruct (projet_actuel s) as [d|]; [|done].
  destruct (projet_vrai (Some d)); cbn [negb]; [|done].
  unfold de_res. destruct (Dict.item "produits" d) as [[]|]; done.
Qed.

Lemma trouver_case_produit_etat (produit : string) (s : etat) :
  (trouver_case_produit produit s).2 = s.
Proof.
  unfold trouver_case_produit, lier, obtenir_projet.
  destruct (projet_actuel s) as [d|]; [|done].
  destruct (projet_vrai (Some d)); cbn [negb]; [|done].
  unfold de_res. destruct (Dict.item "produits" d) as [[]|]; done.
Qed.

Lemma supprimer_projet_projet (nom : string) (s : etat) :
  projet_actuel (supprimer_projet nom s).2 = projet_actuel s
  ∨ projet_actuel (supprimer_projet nom s).2 = None.
Proof.
  unfold supprimer_projet, lier, lire_disque, essayer, sur_disque, lever, obtenir_projet.
  destruct (FS.isdir _ _ _); cbn [negb]; [|by left].
  destruct (FS.rmtree _ _ _) as [[[]|e] fs']; cbn [disque projet_actuel]; [|by left].
  destruct (projet_actuel s) as [[|e0 d]|]; cbn [projet_vrai]; try by left.
  unfold de_res. destruct (Dict.item "nom" (e0 :: d)) as [n|]; [|by left].
  destruct (Py.egal_str nom n); [by right|by left].
Qed.

(** A call of [definir_produits_case] leaves the current project as it
    was or with its placements updated. *)
Lemma definir_produits_case_projet (case : string) (produits : json) (s : etat) :
  projet_actuel (definir_produits_case case produits s).2 = projet_actuel s
  ∨ ∃ d m, projet_actuel s = Some d ∧ Dict.get "produits" d = Some (JObj m)
      ∧ projet_actuel (definir_produits_case case produits s).2
        = Some (Dict.set "produits" (JObj (placer case produits m)) d).
Proof.
  destruct (projet_actuel s) as [d|] eqn:Hp.
  2:{ left. unfold definir_produits_case, lier, obtenir_projet. by rewrite Hp. }
  destruct (projet_vrai (Some d)) eqn:Hv.
  2:{ left. unfold definir_produits_case, lier, obtenir_projet. by rewrite Hp, Hv. }
  destruct (Dict.get "produits" d) as [v|] eqn:Hm.
  2:{ left. unfold definir_produits_case, lier, obtenir_projet, modifier_produits,
        lier, de_res, Dict.item. rewrite Hp, Hv, Hm. cbn [negb].
      by destruct (Py.vrai produits). }
  destruct v as [| | |t|l|m].
  6:{ right. exists d, m. split; [done|]. split; [done|].
      rewrite (definir_produits_case_dict _ _ _ _ _ Hp Hv Hm).
      by rewrite sauvegarder_projet. }
  all: left; unfold definir_produits_case, lier at 1, obtenir_projet;
    rewrite Hp, Hv; cbn [negb];
    destruct (Py.vrai produits);
    [ unfold lier, modifier_produits, lier, de_res, Dict.item; by rewrite Hm
    | unfold lier at 1, lier at 1, de_res at 1, Dict.item; rewrite Hm;
      unfold lier at 1, de_res at 1; cbn [Py.dans] ].
  - done.
  - done.
  - done.
  - destruct (PyStr.sous_chaine case t).
    + unfold modifier_produits, lier, de_res, Dict.item. by rewrite Hm.
    + unfold ret. pose proof (sauvegarder_projet s) as H.
      by rewrite H.
  - destruct (existsb _ l).
    + unfold modifier_produits, lier, de_res, Dict.item. by rewrite Hm.
    + unfold ret. pose proof (sauvegarder_projet s) as H.
      by rewrite H.
Qed.

Lemma tous_dans_champs (d : dict) :
  Py.tous_dans champs_requis (JObj d) = Ok true
  ↔ Dict.contient "nom" d = true ∧ Dict.contient "magasin" d = true
    ∧ Dict.contient "auteur" d = true ∧ Dict.contient "chemin_plan" d = true.
Proof.
  unfold champs_requis. cbn.
  destruct (Dict.contient "nom" d), (Dict.contient "magasin" d),
    (Dict.contient "auteur" d), (Dict.contient "chemin_plan" d);
    split; first [done | by intros (? & ? & ? & ?)].
Qed.

Lemma projet_normalise_ma_config (nom magasin auteur plan : string) :
  projet_normalise (ma_config nom magasin auteur plan).
Proof. repeat split; by eexists. Qed.

Lemma projet_normalise_set_produits (d : dict) (v : json) :
  projet_normalise d → projet_normalise (Dict.set "produits" v d).
Proof.
  intros (Hc & Hp & Hl & chemin & Hch). apply tous_dans_champs in Hc.
  unfold projet_normalise. rewrite tous_dans_champs, !DictFaits.contient_set.
  rewrite DictFaits.get_set_ne by done. cbn.
  destruct Hc as (? & ? & ? & ?). repeat split; try done. by exists chemin.
Qed.

Lemma compatibilite_produits_get (d : dict) :
  Dict.get "produits" (compatibilite_produits d)
  = match Dict.get "produits_par_case" d with
    | Some v => Some v
    | None =>
        match Dict.get "produits" d with
        | Some (JArr _) | None => Some (JObj [])
        | Some v => Some v
        end
    end.
Proof.
  unfold compatibilite_produits, Dict.contient.
  destruct (Dict.get "produits_par_case" d) as [v|] eqn:Hl.
  - by rewrite DictFaits.get_set_eq.
  - destruct (Dict.get "produits" d) as [v|] eqn:Hp; cbn [negb].
    + destruct v; try done. by rewrite DictFaits.get_set_eq.
    + by rewrite DictFaits.get_set_eq.
Qed.

Lemma compatibilite_produits_autre (d : dict) (k : string) :
  k ≠ "produits" → k ≠ "produits_par_case" →
  Dict.get k (compatibilite_produits d) = Dict.get k d.
Proof.
  intros H1 H2. unfold compatibilite_produits, Dict.contient.
  destruct (Dict.get "produits_par_case" d) as [v|] eqn:Hl.
  - rewrite DictFaits.get_set_ne by done. by rewrite DictFaits.get_del_ne.
  - destruct (Dict.get "produits" d) as [v|] eqn:Hp; cbn [negb].
    + destruct v; try done; by rewrite DictFaits.get_set_ne.
    + by rewrite DictFaits.get_set_ne.
Qed.

Lemma compatibilite_produits_ancienne (d : dict) :
  Dict.get "produits_par_case" (compatibilite_produits d) = None.
Proof.
  unfold compatibilite_produits, Dict.contient.
  destruct (Dict.get "produits_par_case" d) as [v|] eqn:Hl.
  - rewrite DictFaits.get_set_ne by done. apply DictFaits.get_del_eq.
  - destruct (Dict.get "produits" d) as [v|] eqn:Hp; cbn [negb].
    + destruct v; try done; by rewrite DictFaits.get_set_ne.
    + by rewrite DictFaits.get_set_ne.
Qed.

(** The two keys are not treated alike: a list under the legacy key is
    kept, a list under the current key becomes an empty dictionary. *)
Lemma compatibilite_produits_listes (d : dict) (l : list json) :
  (Dict.get "produits_par_case" d = Some (JArr l) →
   Dict.get "produits" (compatibilite_produits d) = Some (JArr l))
  ∧ (Dict.get "produits_par_case" d = None →
     Dict.get "produits" d = Some (JArr l) →
     Dict.get "produits" (compatibilite_produits d) = Some (JObj [])).
Proof.
  rewrite compatibilite_produits_get. split.
  - by intros ->.
  - by intros -> ->.
Qed.

(** A document [charger_projet] accepts gives a normalised project. *)
Lemma projet_normalise_charge (d : dict) (chemin nouveau : string) :
  Py.tous_dans champs_requis (JObj d) = Ok true →
  projet_normalise
    (compatibilite_produits (Dict.set "chemin_plan" (JStr nouveau) d)).
Proof.
  intros Hc. apply tous_dans_champs in Hc as (H1 & H2 & H3 & H4).
  set (d0 := Dict.set "chemin_plan" (JStr nouveau) d).
  unfold projet_normalise. rewrite tous_dans_champs. unfold Dict.contient in *.
  rewrite !compatibilite_produits_autre by done.
  rewrite compatibilite_produits_ancienne, compatibilite_produits_get.
  unfold d0. rewrite DictFaits.get_set_eq.
  rewrite !(DictFaits.get_set_ne "chemin_plan") by done.
  destruct (Dict.get "nom" d), (Dict.get "magasin" d), (Dict.get "auteur" d);
    try done.
  repeat split; [|by eexists].
  destruct (Dict.get "produits_par_case" d); [done|].
  by destruct (Dict.get "produits" d) as [[]|].
Qed.

Lemma executer_invariant (a : appel) (s : etat) :
  invariant s → invariant (executer a s).
Proof.
  intros Hinv d. destruct a; cbn [executer].
  - destruct (creer_projet nom magasin auteur plan s) as [r s'] eqn:Hc.
    apply creer_projet_projet in Hc. cbn [snd]. destruct r as [[]|e].
    + rewrite Hc. intros [= <-]. apply projet_normalise_ma_config.
    + rewrite Hc. apply Hinv.
  - destruct (charger_projet nom s) as [[d'|e] s'] eqn:Hc; cbn [snd].
    + apply charger_projet_ok in Hc as (d0 & chemin & _ & _ & Ht & _ & -> & ->).
      cbn [projet_actuel]. intros [= <-]. by apply projet_normalise_charge.
    + apply charger_projet_err in Hc as ->. apply Hinv.
  - destruct (supprimer_projet_projet nom s) as [-> | ->]; [apply Hinv|done].
  - rewrite sauvegarder_projet. apply Hinv.
  - rewrite obtenir_produits_case_etat. apply Hinv.
  - destruct (definir_produits_case_projet case produits s)
      as [-> | (d0 & m & Hp & Hm & ->)]; [apply Hinv|].
    intros [= <-]. apply projet_normalise_set_produits. by apply Hinv.
  - rewrite obtenir_tous_produits_places_etat. apply Hinv.
  - rewrite trouver_case_produit_etat. apply Hinv.
Qed.

Lemma atteignable_invariant (s : etat) : atteignable s → invariant s.
Proof.
  induction 1 as [fs|a s _ IH]; [by intros d|]. by apply executer_invariant.
Qed.
Lemma projet_normalise_cles (d : dict) :
  projet_normalise d → cles_presentes (Some d).
Proof.
  intros (Hc & Hp & _) d' [= <-]. apply tous_dans_champs in Hc as (Hn & _).
  by split.
Qed.

Lemma etendre_sans_KeyError (acc valeurs : list json) (k : string) :
  etendre acc valeurs ≠ Err (KeyError k).
Proof.
  revert acc. induction valeurs as [|v valeurs IH]; intros acc; cbn; [done|].
  destruct v; cbn; try done; apply IH.
Qed.

Lemma chercher_case_sans_KeyError (produit : string) (m : dict) (k : string) :
  chercher_case produit m ≠ Err (KeyError k).
Proof.
  induction m as [|[case v] m IH]; cbn; [done|].
  destruct v; cbn; try done.
  - by destruct (PyStr.sous_chaine produit s).
  - by destruct (existsb _ l).
  - by destruct (Dict.contient produit d).
Qed.

Lemma sauvegarder_sans_KeyError (s : etat) (k : string) :
  cles_presentes (projet_actuel s) → (sauvegarder s).1 ≠ Err (KeyError k).
Proof.
  intros Hc. unfold sauvegarder, lier, obtenir_projet.
  destruct (projet_actuel s) as [d|] eqn:Hp; [|done].
  destruct (Hc d eq_refl) as [_ Hn%DictFaits.contient_get].
  destruct Hn as [n Hn].
  destruct (projet_vrai (Some d)); cbn [negb]; [|done].
  unfold de_res, Dict.item. rewrite Hn. destruct n; try done.
  unfold essayer, json_dump, sur_disque.
  by destruct (FS.ecrire _ _ _ _) as [[[]|e] fs'].
Qed.

Lemma obtenir_produits_case_sans_KeyError (case : string) (s : etat) (k : string) :
  cles_presentes (projet_actuel s) →
  (obtenir_produits_case case s).1 ≠ Err (KeyError k).
Proof.
  intros Hc. unfold obtenir_produits_case, lier, obtenir_projet.
  destruct (projet_actuel s) as [d|] eqn:Hp; [|done].
  destruct (Hc d eq_refl) as [[v Hv]%DictFaits.contient_get _].
  destruct (projet_vrai (Some d)); cbn [negb]; [|done].
  unfold de_res, Dict.item. rewrite Hv. by destruct v.
Qed.

Lemma obtenir_tous_produits_places_sans_KeyError (s : etat) (k : string) :
  cles_presentes (projet_actuel s) →
  (obtenir_tous_produits_places s).1 ≠ Err (KeyError k).
Proof.
  intros Hc. unfold obtenir_tous_produits_places, lier, obtenir_projet.
  destruct (projet_actuel s) as [d|] eqn:Hp; [|done].
  destruct (Hc d eq_refl) as [[v Hv]%DictFaits.contient_get _].
  destruct (projet_vrai (Some d)); cbn [negb]; [|done].
  unfold de_res, Dict.item. rewrite Hv. destruct v; try done.
  cbn. apply etendre_sans_KeyError.
Qed.

Lemma trouver_case_produit_sans_KeyError (produit : string) (s : etat) (k : string) :
  cles_presentes (projet_actuel s) →
  (trouver_case_produit produit s).1 ≠ Err (KeyError k).
Proof.
  intros Hc. unfold trouver_case_produit, lier, obtenir_projet.
  destruct (projet_actuel s) as [d|] eqn:Hp; [|done].
  destruct (Hc d eq_refl) as [[v Hv]%DictFaits.contient_get _].
  destruct (projet_vrai (Some d)); cbn [negb]; [|done].
  unfold de_res, Dict.item. rewrite Hv. destruct v; try done.
  cbn. apply chercher_case_sans_KeyError.
Qed.

Lemma cles_presentes_set_produits (d : dict) (v : json) :
  cles_presentes (Some d) → cles_presentes (Some (Dict.set "produits" v d)).
Proof.
  intros Hc d' [= <-]. destruct (Hc d eq_refl) as [H1 H2].
  rewrite !DictFaits.contient_set. by rewrite H2.
Qed.

Lemma definir_produits_case_sans_KeyError (case : string) (produits : json)
    (s : etat) (k : string) :
  cles_presentes (projet_actuel s) →
  (definir_produits_case case produits s).1 ≠ Err (KeyError k).
Proof.
  intros Hc.
  destruct (projet_actuel s) as [d|] eqn:Hp.
  2:{ unfold definir_produits_case, lier, obtenir_projet. by rewrite Hp. }
  destruct (projet_vrai (Some d)) eqn:Hv.
  2:{ unfold definir_produits_case, lier, obtenir_projet. by rewrite Hp, Hv. }
  destruct (Hc d eq_refl) as [[v Hm]%DictFaits.contient_get _].
  destruct v as [| | |t|l|m].
  6:{ rewrite (definir_produits_case_dict _ _ _ _ _ Hp Hv Hm).
      apply sauvegarder_sans_KeyError. cbn [projet_actuel].
      by apply cles_presentes_set_produits. }
  all: unfold definir_produits_case, lier at 1, obtenir_projet;
    rewrite Hp, Hv; cbn [negb];
    destruct (Py.vrai produits);
    [ unfold lier, modifier_produits, lier, de_res, Dict.item; by rewrite Hm
    | unfold lier at 1, lier at 1, de_res at 1, Dict.item; rewrite Hm;
      unfold lier at 1, de_res at 1; cbn [Py.dans] ].
  - done.
  - done.
  - done.
  - destruct (PyStr.sous_chaine case t).
    + unfold modifier_produits, lier, de_res, Dict.item. by rewrite Hm.
    + unfold ret. apply sauvegarder_sans_KeyError. by rewrite Hp.
  - destruct (existsb _ l).
    + unfold modifier_produits, lier, de_res, Dict.item. by rewrite Hm.
    + unfold ret. apply sauvegarder_sans_KeyError. by rewrite Hp.
Qed.

Lemma join2_non_vide (a b : string) : a ≠ "" → OsPath.join2 a b ≠ "".
Proof.
  intros Ha. unfold OsPath.join2.
  destruct (PyStr.startswith PyStr.barre b) eqn:Hb; [by destruct b|].
  destruct a as [|x a]; [done|]. cbn [PyStr.est_vide orb].
  destruct (PyStr.endswith _ _); by rewrite PyStrFaits.app_cons.
Qed.

Lemma join2_non_vide_d (a b : string) : b ≠ "" → OsPath.join2 a b ≠ "".
Proof.
  intros Hb. unfold OsPath.join2.
  destruct (PyStr.startswith PyStr.barre b); [done|].
  destruct a as [|x a]; [done|]. cbn [PyStr.est_vide orb].
  destruct (PyStr.endswith _ _); by rewrite PyStrFaits.app_cons.
Qed.

(** Saving a normalised project, then loading its name, gives it back
    up to the plan path, which is normalised again. *)
Lemma charger_apres_sauvegarder (fs : sysfich) (s1 : etat) (d : dict)
    (nom : string) (m : dict) :
  mon_dossier nom ≠ "" →
  projet_normalise d →
  Dict.get "produits" d = Some (JObj m) →
  FS.ecrire cwd fs (mon_fichier nom) (Document (JObj d))
    = (Ok tt, disque s1) →
  ∃ d' chemin,
    Dict.get "chemin_plan" d = Some (JStr chemin)
    ∧ d' = Dict.set "chemin_plan"
             (JStr (PyStr.replace PyStr.contre_barre PyStr.barre
                      (OsPath.normpath chemin))) d
    ∧ charger_projet nom s1
      = (Ok d', {| disque := disque s1; projet_actuel := Some d' |}).
Proof.
  intros Hroot (Hc & Hp & Hl & chemin & Hch) Hm He.
  exists (Dict.set "chemin_plan"
            (JStr (PyStr.replace PyStr.contre_barre PyStr.barre
                     (OsPath.normpath chemin))) d), chemin.
  split; [done|]. split; [done|].
  pose proof (FSFaits.lire_ecrire _ _ _ _ _ He) as Hlire.
  pose proof (λ x, FSFaits.ecrire_dossiers _ _ _ _ _ _ x He) as Hd.
  apply FSFaits.ecrire_ok in He as (n & parent & Hr & _ & _ & _).
  unfold mon_fichier, OsPath.join in Hr. cbn [fold_left] in Hr.
  apply FSFaits.isdir_parent in Hr as (kd & Hkd & Hdir & _);
    [|done|done|done].
  unfold charger_projet, lier at 1, lire_disque at 1.
  assert (Hisdir : FS.isdir cwd (disque s1) (mon_dossier nom) = true).
  { unfold FS.isdir.
    rewrite (FSFaits.resoudre_mono _ _ _ _ _ Hd Hkd). by apply Hd. }
  rewrite Hisdir. cbn [negb].
  unfold lier at 1, essayer, json_load, lier at 1, lire_disque.
  rewrite Hlire. unfold ret. cbv beta iota.
  unfold lier at 1, de_res at 1. rewrite Hc. cbn [negb].
  unfold lier at 1, de_res, Dict.item. rewrite Hch.
  unfold lier, affecter_projet. cbn [disque].
  assert (Hcompat : ∀ d0, Dict.contient "produits_par_case" d0 = false →
            Dict.get "produits" d0 = Some (JObj m) →
            compatibilite_produits d0 = d0).
  { intros d0 H1 H2. unfold compatibilite_produits, Dict.contient in *.
    destruct (Dict.get "produits_par_case" d0); [done|]. by rewrite H2. }
  rewrite Hcompat; [done| |].
  - rewrite DictFaits.contient_set. by rewrite Hl.
  - by rewrite DictFaits.get_set_ne.
Qed.

Lemma sans_case_vide_placer (case : string) (produits : json) (m : dict)
    (autre : string) :
  Dict.get autre m ≠ Some (JArr []) →
  Dict.get autre (placer case produits m) ≠ Some (JArr []).
Proof.
  intros Hm. unfold placer. destruct (Py.vrai produits) eqn:Hv.
  - destruct (decide (case = autre)) as [->|Hne].
    + rewrite DictFaits.get_set_eq. intros [= ->]. discriminate.
    + by rewrite DictFaits.get_set_ne.
  - destruct (Dict.contient case m); [|done].
    destruct (decide (case = autre)) as [->|Hne].
    + by rewrite DictFaits.get_del_eq.
    + by rewrite DictFaits.get_del_ne.
Qed.

Lemma placer_vide (case : string) (produits : json) (m : dict) :
  Py.vrai produits = false → Dict.get case (placer case produits m) = None.
Proof.
  intros Hv. unfold placer. rewrite Hv. unfold Dict.contient.
  destruct (Dict.get case m) eqn:Hc; [|done]. apply DictFaits.get_del_eq.
Qed.

End Methodes.

(* ===================================================================== *)
(** ** The behaviour of the methods *)

Section Comportement.
Variable DOSSIER_PROJETS : string.
Variable cwd : chemin.

Local Abbreviation creer_projet := (creer_projet DOSSIER_PROJETS cwd).
Local Abbreviation charger_projet := (charger_projet DOSSIER_PROJETS cwd).
Local Abbreviation supprimer_projet := (supprimer_projet DOSSIER_PROJETS cwd).
Local Abbreviation definir_produits_case :=
  (definir_produits_case DOSSIER_PROJETS cwd).
Local Abbreviation mon_dossier := (mon_dossier DOSSIER_PROJETS).
Local Abbreviation mon_fichier := (mon_fichier DOSSIER_PROJETS).
Local Abbreviation atteignable := (atteignable DOSSIER_PROJETS cwd).

(** C3, as amended. When [creer_projet] returns, loading the stripped
    name returns the stripped name, the store and the author as given,
    empty placements, and the plan path of the created project
    normalised once more; without a backslash in the stripped name and
    in the extension of the plan this is the plan path of the created
    project. *)
Theorem creer_puis_charger (s s1 : etat) (nom magasin auteur plan : string) :
  creer_projet nom magasin auteur plan s = (Ok tt, s1) →
  let nom' := PyStr.strip nom in
  let recharge :=
    PyStr.replace PyStr.contre_barre PyStr.barre
      (OsPath.normpath (chemin_plan nom' plan)) in
  projet_actuel s1 = Some (ma_config nom' magasin auteur plan)
  ∧ (charger_projet nom' s1).1
    = Ok [ ("nom", JStr nom'); ("magasin", JStr magasin);
           ("auteur", JStr auteur); ("chemin_plan", JStr recharge);
           ("produits", JObj []) ]
  ∧ (PyStr.contient_car PyStr.contre_barre nom' = false →
     PyStr.contient_car PyStr.contre_barre (extension plan) = false →
     recharge = chemin_plan nom' plan).
Proof.
  intros Hc. cbv zeta.
  apply creer_projet_ok in Hc
    as (_ & Hnom & _ & _ & fs1 & fs2 & fs3 & _ & _ & He & ->).
  set (nom' := PyStr.strip nom) in *. split; [done|]. split.
  - destruct (charger_apres_sauvegarder DOSSIER_PROJETS cwd fs2
                {| disque := fs3;
                   projet_actuel := Some (ma_config nom' magasin auteur plan) |}
                (ma_config nom' magasin auteur plan) nom' [])
      as (d' & chemin & Hch & -> & ->); try done.
    + apply join2_non_vide_d. by destruct nom'.
    + apply projet_normalise_ma_config.
    + injection Hch as <-. reflexivity.
  - intros Hn Hx. unfold chemin_plan, mon_plan.
    assert (Hcb : PyStr.contre_barre ≠ PyStr.barre) by done.
    assert (Hcp : PyStr.contre_barre ≠ PyStr.point) by done.
    set (X := OsPath.join "App1" ["projets"; nom'; "plan" +:+ extension plan]).
    assert (HX : PyStr.contient_car PyStr.contre_barre X = false).
    { unfold X, OsPath.join. cbn [fold_left].
      repeat apply CheminFaits.join2_sans; done. }
    assert (HN : PyStr.contient_car PyStr.contre_barre (OsPath.normpath X)
                 = false) by by apply OsPathFaits.normpath_sans.
    rewrite (DecoupeFaits.replace_sans _ _ (OsPath.normpath X)) by done.
    rewrite OsPathFaits.normpath_idempotent.
    by apply DecoupeFaits.replace_sans.
Qed.

(** C4. In a state the instance can be in, with a current project:
    when [definir_produits_case case produits] returns for a non-empty
    list [produits], [obtenir_produits_case case] returns that list, and
    loading the project again by its name returns placements that bind
    [case] to that list. *)
Theorem definir_puis_obtenir (s s1 : etat) (case : string)
    (produits : list json) :
  DOSSIER_PROJETS ≠ "" →
  atteignable s →
  is_Some (projet_actuel s) →
  produits ≠ [] →
  definir_produits_case case (JArr produits) s = (Ok tt, s1) →
  obtenir_produits_case case s1 = (Ok (JArr produits), s1)
  ∧ ∃ nom d' s2 m',
      (∀ d, projet_actuel s = Some d → Dict.get "nom" d = Some (JStr nom))
      ∧ charger_projet nom s1 = (Ok d', s2)
      ∧ Dict.get "produits" d' = Some (JObj m')
      ∧ Dict.get case m' = Some (JArr produits).
Proof.
  intros Hroot Hinv%atteignable_invariant [d Hp] Hne Hdef.
  specialize (Hinv d Hp).
  assert (Hv : projet_vrai (Some d) = true).
  { destruct d; [|done]. by destruct Hinv as (H & _). }
  assert (Hvp : Py.vrai (JArr produits) = true) by by destruct produits.
  destruct (Dict.get "produits" d) as [v|] eqn:Hm.
  2:{ destruct Hinv as (_ & Hc & _). unfold Dict.contient in Hc.
      by rewrite Hm in Hc. }
  assert (∃ m, v = JObj m) as [m ->].
  { destruct v; try by eexists.
    all: revert Hdef;
      unfold definir_produits_case, lier at 1, obtenir_projet;
      rewrite Hp, Hv, Hvp; cbn [negb];
      unfold lier, modifier_produits, lier, de_res, Dict.item;
      by rewrite Hm. }
  rewrite (definir_produits_case_dict _ _ _ _ _ _ _ Hp Hv Hm) in Hdef.
  unfold placer in Hdef. rewrite Hvp in Hdef.
  set (d1 := Dict.set "produits"
               (JObj (Dict.set case (JArr produits) m)) d) in *.
  apply sauvegarder_ok in Hdef as (d1' & nom & [= <-] & Hn & He & Hp1).
  cbn [disque] in He.
  split.
  - unfold obtenir_produits_case, lier, obtenir_projet. rewrite Hp1.
    assert (Hv1 : projet_vrai (Some d1) = true).
    { pose proof (DictFaits.set_non_vide "produits"
        (JObj (Dict.set case (JArr produits) m)) d). by destruct d1. }
    rewrite Hv1. cbn [negb]. unfold de_res, Dict.item, d1.
    rewrite DictFaits.get_set_eq. by rewrite DictFaits.get_set_eq.
  - destruct (charger_apres_sauvegarder DOSSIER_PROJETS cwd (disque s) s1 d1
                nom (Dict.set case (JArr produits) m))
      as (d' & chemin & Hch & Hd' & Hcharge); try done.
    + by apply join2_non_vide.
    + by apply projet_normalise_set_produits.
    + apply DictFaits.get_set_eq.
    + exists nom, d', {| disque := disque s1; projet_actuel := Some d' |},
        (Dict.set case (JArr produits) m).
      split; [|split; [exact Hcharge|split]].
      * intros d0 Hd0. rewrite Hp in Hd0. injection Hd0 as <-.
        unfold d1 in Hn. by rewrite DictFaits.get_set_ne in Hn.
      * rewrite Hd'. rewrite DictFaits.get_set_ne by done.
        apply DictFaits.get_set_eq.
      * apply DictFaits.get_set_eq.
Qed.

(** C5, as amended. [creer_projet] and [definir_produits_case] keep the
    placements of the current project free of locations bound to an
    empty list, [definir_produits_case] with a false value leaves the
    location unbound, and [charger_projet] hands over the placements of
    the document as they are: the project it sets has no location bound
    to an empty list exactly when the document has none. *)
Theorem placements_sans_case_vide :
  (∀ s nom magasin auteur plan,
     sans_case_vide (projet_actuel s) →
     sans_case_vide
       (projet_actuel (creer_projet nom magasin auteur plan s).2))
  ∧ (∀ s case produits,
       sans_case_vide (projet_actuel s) →
       sans_case_vide
         (projet_actuel (definir_produits_case case produits s).2))
  ∧ (∀ s case produits d m,
       projet_actuel s = Some d → projet_vrai (Some d) = true →
       Dict.get "produits" d = Some (JObj m) →
       Py.vrai produits = false →
       ∃ d' m',
         projet_actuel (definir_produits_case case produits s).2 = Some d'
         ∧ Dict.get "produits" d' = Some (JObj m')
         ∧ Dict.get case m' = None)
  ∧ (∀ s nom d d' s',
       FS.lire cwd (disque s) (mon_fichier nom) = Ok (Document (JObj d)) →
       charger_projet nom s = (Ok d', s') →
       sans_case_vide (projet_actuel s') ↔ document_sans_case_vide d).
Proof.
  split; [|split; [|split]].
  - intros s nom magasin auteur plan Hs.
    destruct (creer_projet nom magasin auteur plan s) as [r s'] eqn:Hc.
    apply creer_projet_projet in Hc. cbn [snd]. destruct r as [[]|e].
    + rewrite Hc. intros d m case [= <-] [= <-]. done.
    + by rewrite Hc.
  - intros s case produits Hs.
    destruct (definir_produits_case_projet DOSSIER_PROJETS cwd case produits s)
      as [-> | (d0 & m & Hp & Hm & ->)]; [done|].
    intros d m' autre [= <-]. rewrite DictFaits.get_set_eq. intros [= <-].
    apply sans_case_vide_placer. by apply (Hs d0 m autre).
  - intros s case produits d m Hp Hv Hm Hf.
    rewrite (definir_produits_case_dict _ _ _ _ _ _ _ Hp Hv Hm).
    rewrite sauvegarder_projet. cbn [projet_actuel].
    eexists _, _. split; [done|]. rewrite DictFaits.get_set_eq.
    split; [done|]. by apply placer_vide.
  - intros s nom d d' s' Hlire Hc.
    apply charger_projet_ok in Hc
      as (d0 & chemin & _ & Hlire' & _ & _ & -> & ->).
    rewrite Hlire in Hlire'. injection Hlire' as <-.
    cbn [projet_actuel]. unfold sans_case_vide, document_sans_case_vide.
    set (nouveau := PyStr.replace _ _ _).
    pose proof (compatibilite_produits_get
                  (Dict.set "chemin_plan" (JStr nouveau) d)) as Hget.
    rewrite !(DictFaits.get_set_ne "chemin_plan") in Hget by done.
    split.
    + intros H m case Hdoc. destruct Hdoc as [Hl | [Hl Hp]].
      * rewrite Hl in Hget. by apply (H _ m case eq_refl).
      * rewrite Hl, Hp in Hget. by apply (H _ m case eq_refl).
    + intros H d1 m case [= <-] Hm. rewrite Hm in Hget.
      destruct (Dict.get "produits_par_case" d) as [v|] eqn:Hl.
      * injection Hget as Hv. subst v. apply H. by left.
      * destruct (Dict.get "produits" d) as [[]|] eqn:Hp';
          try discriminate; injection Hget as Hv; subst; try done.
        apply H. by right.
Qed.

(** C6. When the fields are there, the project is new and [plan] is not
    a regular file, [creer_projet] raises the error on the plan and
    leaves the disk and the current project as they were. *)
Theorem creer_projet_plan_introuvable (s : etat)
    (nom magasin auteur plan : string) :
  forallb PyStr.vrai [nom; magasin; auteur; plan] = true →
  PyStr.vrai (PyStr.strip nom) = true →
  FS.existe cwd (disque s) (mon_dossier (PyStr.strip nom)) = false →
  FS.isfile cwd (disque s) plan = false →
  creer_projet nom magasin auteur plan s
  = (Err (ValueError (PlanIntrouvable plan)), s).
Proof.
  intros Hchamps Hnom Hlibre Hplan.
  unfold creer_projet. rewrite Hchamps, Hnom. cbn [negb].
  unfold lier, lire_disque, lever. rewrite Hlibre, Hplan. reflexivity.
Qed.

(** C7. With no current project [trouver_case_produit] returns [None].
    With one whose placements map locations to lists, it returns the
    first location, in the order of the dictionary, whose list contains
    the product, and [None] when no list contains it. *)
Theorem trouver_case_produit_premiere (s : etat) (produit : string) :
  (projet_vrai (projet_actuel s) = false →
     trouver_case_produit produit s = (Ok None, s))
  ∧ (∀ d m,
       projet_actuel s = Some d → projet_vrai (Some d) = true →
       Dict.get "produits" d = Some (JObj m) → placements_types m →
       ∃ r, trouver_case_produit produit s = (Ok r, s)
            ∧ (∀ case, r = Some case ↔ premiere_occurrence produit m case)
            ∧ (r = None ↔ aucune_occurrence produit m)).
Proof.
  split.
  - unfold trouver_case_produit, lier, obtenir_projet.
    destruct (projet_actuel s) as [d|]; [|reflexivity].
    by intros ->.
  - intros d m Hp Hv Hm Ht.
    destruct (chercher_case_spec produit m Ht) as (r & Hr & Hspec).
    exists r. split; [|exact Hspec].
    unfold trouver_case_produit, lier, obtenir_projet. rewrite Hp, Hv.
    cbn [negb]. unfold de_res, Dict.item. rewrite Hm, Hr. reflexivity.
Qed.

(** C8. When the current project is named [N] and [supprimer_projet N]
    returns, there is no current project any more, and every call of
    [obtenir_produits_case] that follows returns the empty list. *)
Theorem supprimer_projet_actuel (s s' : etat) (d : dict) (N : string)
    (cases : list string) :
  projet_actuel s = Some d →
  Dict.get "nom" d = Some (JStr N) →
  supprimer_projet N s = (Ok tt, s') →
  projet_actuel s' = None
  ∧ appels_obtenir cases s' = ((λ _, Ok (JArr [])) <$> cases, s').
Proof.
  intros Hp Hn Hs. apply supprimer_projet_ok in Hs.
  rewrite Hp, Hn in Hs.
  assert (Hv : projet_vrai (Some d) = true) by (by destruct d).
  rewrite Hv in Hs. cbn in Hs. rewrite bool_decide_eq_true_2 in Hs by done.
  split; [exact Hs|]. by apply appels_obtenir_sans_projet.
Qed.

(** C9. When there is no current project, or its name is not [N], and
    [supprimer_projet N] returns, the current project is as before. *)
Theorem supprimer_autre_projet (s s' : etat) (N : string) :
  (∀ d, projet_actuel s = Some d → Dict.get "nom" d ≠ Some (JStr N)) →
  supprimer_projet N s = (Ok tt, s') →
  projet_actuel s' = projet_actuel s.
Proof.
  intros Hn Hs. apply supprimer_projet_ok in Hs.
  rewrite Hs. destruct (projet_actuel s) as [d|]; [|reflexivity].
  specialize (Hn d eq_refl).
  destruct (projet_vrai (Some d)); [|reflexivity].
  destruct (Dict.get "nom" d) as [n|]; [|reflexivity].
  destruct n; try reflexivity. cbn. case_bool_decide; [congruence|reflexivity].
Qed.

(** C10. In every state the instance can be in, a current project has
    the key ["produits"], and none of [obtenir_produits_case],
    [definir_produits_case], [obtenir_tous_produits_places] and
    [trouver_case_produit] raises [KeyError]. *)
Theorem cle_produits_toujours_presente (s : etat) :
  atteignable s →
  (∀ d, projet_actuel s = Some d → Dict.contient "produits" d = true)
  ∧ ∀ k : string,
      (∀ case, (obtenir_produits_case case s).1 ≠ Err (KeyError k))
      ∧ (∀ case produits,
           (definir_produits_case case produits s).1 ≠ Err (KeyError k))
      ∧ (obtenir_tous_produits_places s).1 ≠ Err (KeyError k)
      ∧ (∀ produit, (trouver_case_produit produit s).1 ≠ Err (KeyError k)).
Proof.
  intros Hs%atteignable_invariant.
  assert (Hc : cles_presentes (projet_actuel s)).
  { intros d Hd. by apply (projet_normalise_cles d (Hs d Hd)). }
  split; [intros d Hd; by apply (Hc d Hd)|]. intros k.
  repeat split; intros.
  - by apply obtenir_produits_case_sans_KeyError.
  - by apply definir_produits_case_sans_KeyError.
  - by apply obtenir_tous_produits_places_sans_KeyError.
  - by apply trouver_case_produit_sans_KeyError.
Qed.

End Comportement.

(* ===================================================================== *)
(** ** Where the plan is copied *)

Section Copie.
Variable DOSSIER_PROJETS : string.
Variable cwd : chemin.

Import PyStr PyStrFaits DecoupeFaits CheminFaits.

Lemma lire_isfile (fs : sysfich) (p : string) :
  FS.isfile cwd fs p = true →
  ∃ k c, FS.resoudre cwd fs p = Some k
         ∧ FS.noeud_en fs k = Some (Fichier c)
         ∧ FS.lire cwd fs p = Ok c.
Proof.
  unfold FS.isfile, FS.lire, FS.est_fichier.
  destruct (FS.resoudre cwd fs p) as [k|]; [|done].
  destruct (FS.noeud_en fs k) as [[|c]|] eqn:Hk; try done.
  intros _. by exists k, c.
Qed.

(** The file name of the copy is an entry name other than that of the
    document. *)
Lemma plan_simple (plan : string) :
  FS.est_nom ("plan" +:+ extension plan) = true
  ∧ split barre ("plan" +:+ extension plan) = ["plan" +:+ extension plan]
  ∧ "plan" +:+ extension plan ≠ "config.json".
Proof.
  repeat split; try done.
  apply split_sans_sep. rewrite contient_car_app. unfold extension.
  by rewrite splitext_sans_barre.
Qed.

Lemma mon_plan_join2 (nom plan : string) :
  mon_plan nom plan
  = OsPath.normpath
      (OsPath.join2 (mon_dossier "App1/projets" nom)
         ("plan" +:+ extension plan)).
Proof. reflexivity. Qed.

Lemma mon_dossier_non_vide (racine nom : string) :
  nom ≠ "" → mon_dossier racine nom ≠ "".
Proof.
  intros Hn. unfold mon_dossier, OsPath.join. cbn [fold_left].
  by apply join2_non_vide_d.
Qed.

(** C2, as amended.  A successful [creer_projet] leaves the directory
    of the project on the disk.  When [App1/projets/<name>] designates
    that directory, as it does when the name is absolute and when the
    projects root designates the directory [App1/projets], however it
    is spelled, the entry [plan<extension>] directly inside it is a
    regular file that holds what the plan held, unless it is a
    directory.  On a disk where every entry lies in a directory and for
    a name that ends in an entry name, the directory of the project was
    not there before and the entry is the regular file.  In every case,
    whatever the projects root, the normal form of
    [App1/projets/<name>/plan<extension>] resolves to a regular file
    that holds what the plan held, or to a directory. *)
Theorem copie_dans_le_dossier_du_projet (s s1 : etat)
    (nom magasin auteur plan : string) :
  creer_projet DOSSIER_PROJETS cwd nom magasin auteur plan s = (Ok tt, s1) →
  ∃ dossier c,
    FS.resoudre cwd (disque s1) (mon_dossier DOSSIER_PROJETS (strip nom))
    = Some dossier
    ∧ FS.noeud_en (disque s1) dossier = Some Dossier
    ∧ FS.lire cwd (disque s) plan = Ok c
    ∧ (startswith barre (strip nom) = true
       ∨ (DOSSIER_PROJETS ≠ ""
          ∧ FS.resoudre cwd (disque s1) DOSSIER_PROJETS
            = FS.resoudre cwd (disque s1) "App1/projets") →
       FS.resoudre cwd (disque s1) (mon_dossier "App1/projets" (strip nom))
       = Some dossier)
    ∧ (FS.resoudre cwd (disque s1) (mon_dossier "App1/projets" (strip nom))
       = Some dossier →
       (FS.noeud_en (disque s1) (("plan" +:+ extension plan) :: dossier)
        = Some (Fichier c)
        ∨ FS.noeud_en (disque s1) (("plan" +:+ extension plan) :: dossier)
          = Some Dossier)
       ∧ (bien_forme (disque s) → nom_final (strip nom) →
          FS.noeud_en (disque s1) (("plan" +:+ extension plan) :: dossier)
          = Some (Fichier c)))
    ∧ (bien_forme (disque s) → nom_final (strip nom) →
       FS.noeud_en (disque s) dossier = None)
    ∧ ∃ k, FS.resoudre cwd (disque s1) (mon_plan (strip nom) plan) = Some k
           ∧ (FS.noeud_en (disque s1) k = Some (Fichier c)
              ∨ FS.noeud_en (disque s1) k = Some Dossier).
Proof.
  intros Hc.
  apply creer_projet_ok in Hc
    as (_ & Hvrai & _ & Hplan & fs1 & fs2 & fs3 & Hmk & Hcp & Hec & ->).
  set (nom' := strip nom) in *. cbn [disque].
  destruct (plan_simple plan) as (Hfn & Hfs & Hfc).
  set (f := "plan" +:+ extension plan) in *.
  assert (Hne : nom' ≠ "") by (intros H; by rewrite H in Hvrai).
  (* the plan *)
  destruct (ArbreFaits.makedirs_dossier _ _ _ _ Hmk) as [Hd1 _].
  destruct (lire_isfile _ _ Hplan) as (kp & c & Hkp & Hnp & Hlire).
  (* the copy *)
  pose proof (λ x, ArbreFaits.copy2_dossiers _ _ _ _ _ _ x Hcp) as Hd2.
  destruct (FeuilleFaits.copy2_ok _ _ _ _ _ Hcp) as (c' & Hl' & Hcopie).
  assert (c' = c) as ->.
  { pose proof (FeuilleFaits.makedirs_lire _ _ _ _ _ _ _ Hmk Hlire).
    congruence. }
  clear Hl'.
  pose proof (λ x, FeuilleFaits.ecrire_dossiers_inv _ _ _ _ _ _ x Hcopie)
    as Hi2.
  (* the document *)
  pose proof (λ x, FSFaits.ecrire_dossiers _ _ _ _ _ _ x Hec) as Hd3.
  pose proof (λ x, FeuilleFaits.ecrire_dossiers_inv _ _ _ _ _ _ x Hec)
    as Hi3.
  apply FSFaits.ecrire_ok in Hec as (n & parent & Hr & _ & _ & ->).
  unfold mon_fichier, OsPath.join in Hr. cbn [fold_left] in Hr.
  apply FSFaits.isdir_parent in Hr as (kd & Hrd2 & Hkd2 & Hnp');
    [|by apply mon_dossier_non_vide|done|done].
  rewrite Hnp' in *. clear Hnp' n parent.
  set (fs3 := <["config.json" :: kd := Fichier
                 (Document (JObj (ma_config nom' magasin auteur plan)))]>
                fs2) in *.
  assert (Hkd1 : FS.est_dossier fs1 kd = true) by by apply Hi2.
  assert (Hrd1 : FS.resoudre cwd fs1 (mon_dossier DOSSIER_PROJETS nom')
                 = Some kd).
  { by apply (FSFaits.resoudre_mono _ fs2 fs1). }
  assert (Hrd3 : FS.resoudre cwd fs3 (mon_dossier DOSSIER_PROJETS nom')
                 = Some kd).
  { by apply (FSFaits.resoudre_mono _ fs2 fs3). }
  assert (Hconf : ∀ x k, x ≠ "config.json" →
            FS.noeud_en fs3 (x :: k) = FS.noeud_en fs2 (x :: k)).
  { intros x k Hx. unfold fs3. rewrite FSFaits.noeud_en_insert by done.
    rewrite decide_False; [done|]. congruence. }
  (* where the copy went, seen after the call *)
  assert (Hcible : ∀ k, FS.resoudre cwd fs1 (mon_plan nom' plan) = Some k →
            (FS.est_dossier fs1 k = false ∧
             FS.noeud_en fs3 k = Some (Fichier c))
            ∨ (FS.est_dossier fs1 k = true ∧
               FS.noeud_en fs3 k = Some Dossier)).
  { intros k Hk. destruct (FS.est_dossier fs1 k) eqn:Hdk.
    - right. split; [done|].
      apply FeuilleFaits.est_dossier_noeud. by apply Hd3, Hd2.
    - left. split; [done|]. unfold FS.isdir in Hcopie.
      rewrite Hk, Hdk in Hcopie.
      apply FSFaits.ecrire_ok in Hcopie as (n & parent & Hr & _ & _ & ->).
      rewrite Hk in Hr. injection Hr as ->.
      rewrite mon_plan_join2 in Hk.
      apply FeuilleFaits.resoudre_normpath_nom in Hk as [k' Hk'];
        [|by apply mon_dossier_non_vide|done|done].
      injection Hk' as -> ->.
      rewrite Hconf by done.
      rewrite FSFaits.noeud_en_insert by done. by rewrite decide_True. }
  assert (Hplan1 : ∃ k, FS.resoudre cwd fs1 (mon_plan nom' plan) = Some k).
  { destruct (FS.isdir cwd fs1 (mon_plan nom' plan)) eqn:Hisdir.
    - unfold FS.isdir in Hisdir.
      destruct (FS.resoudre cwd fs1 (mon_plan nom' plan)) as [k|]; [|done].
      by exists k.
    - apply FSFaits.ecrire_ok in Hcopie as (n & parent & Hr & _).
      by eexists. }
  (* the asset directory is the directory of the project *)
  assert (Hdedans :
    FS.resoudre cwd fs3 (mon_dossier "App1/projets" nom') = Some kd →
    FS.resoudre cwd fs1 (mon_plan nom' plan) = Some (f :: kd)).
  { intros Hmeme.
    assert (Hm1 : FS.resoudre cwd fs1 (mon_dossier "App1/projets" nom')
                  = Some kd).
    { apply (FSFaits.resoudre_mono _ fs3 fs1); [|done].
      intros x Hx. by apply Hi2, Hi3. }
    rewrite mon_plan_join2. apply NormFaits.resoudre_normpath.
    by apply FeuilleFaits.resoudre_join2_nom. }
  exists kd, c. split; [done|]. split.
  { apply FeuilleFaits.est_dossier_noeud. by apply Hd3. }
  split; [done|]. split.
  { (* the projects root is the asset root, or the name is absolute *)
    intros Hrac. rewrite <- Hrd3.
    unfold mon_dossier, OsPath.join. cbn [fold_left]. symmetry.
    apply FeuilleFaits.resoudre_join2_racine.
    destruct Hrac as [?|[? ?]]; [by left|right]. by repeat split. }
  split.
  { intros Hmeme. specialize (Hdedans Hmeme). split.
    - destruct (Hcible _ Hdedans) as [[_ ?]|[_ ?]]; [by left|by right].
    - intros Hbf Hnf.
      assert (Hnfd : nom_final (mon_dossier DOSSIER_PROJETS nom'))
        by by apply FeuilleFaits.nom_final_join2.
      destruct (FeuilleFaits.makedirs_feuille _ _ _ _ Hbf Hnfd Hmk)
        as (kd0 & Hr0 & _ & _ & Hvide & _).
      rewrite Hrd1 in Hr0. injection Hr0 as <-.
      destruct (Hcible _ Hdedans) as [[_ ?]|[Hdir _]]; [done|].
      unfold FS.est_dossier in Hdir. by rewrite Hvide in Hdir. }
  split.
  { intros Hbf Hnf.
    assert (Hnfd : nom_final (mon_dossier DOSSIER_PROJETS nom'))
      by by apply FeuilleFaits.nom_final_join2.
    destruct (FeuilleFaits.makedirs_feuille _ _ _ _ Hbf Hnfd Hmk)
      as (kd0 & Hr0 & Hnew & _).
    rewrite Hrd1 in Hr0. by injection Hr0 as <-. }
  destruct Hplan1 as [k Hk]. exists k. split.
  { apply (FSFaits.resoudre_mono _ fs1); [|done].
    intros x Hx. by apply Hd3, Hd2. }
  destruct (Hcible _ Hk) as [[_ ?]|[_ ?]]; [by left|by right].
Qed.

End Copie.

(* ===================================================================== *)
(** ** On the sample disks *)

Module Constats.
Import Exemples.

(** The state after a project ["p"] was created on the empty checkout. *)
Local Abbreviation etat_cree :=
  (executer racine cwd (ACreer "p" "m" "a" "plan.png") (init disque_vide)).

(** C1. A document with the legacy key bound to an empty list: the
    project [charger_projet] returns has the list under ["produits"],
    not a dictionary, and reading a location then raises
    [AttributeError]. *)
Theorem charger_ancienne_cle_liste_vide :
  (charger_projet racine cwd "p" (init disque_ancien)).1
  = Ok [ ("nom", JStr "p"); ("magasin", JStr "m"); ("auteur", JStr "a");
         ("chemin_plan", JStr "App1/projets/p/plan.png");
         ("produits", JArr []) ]
  ∧ (obtenir_produits_case "A"
       (charger_projet racine cwd "p" (init disque_ancien)).2).1
    = Err AttributeError.
Proof. split; vm_compute; reflexivity. Qed.

(** C2, as stated, fails when the projects root is not the asset root:
    [creer_projet] makes [projets/p], and copies the plan to
    [App1/projets/p/plan.png], which is not below the directory it made;
    that directory holds no plan. *)
Lemma copie_hors_du_dossier_contre_exemple :
  (creer_projet autre_racine cwd "p" "m" "a" "plan.png"
     (init disque_autre_racine)).1 = Ok tt
  ∧ FS.noeud_en disque_autre_racine ["p"; "projets"; "depot"] = None
  ∧ FS.resoudre cwd
      (disque (creer_projet autre_racine cwd "p" "m" "a" "plan.png"
                 (init disque_autre_racine)).2)
      (mon_dossier autre_racine "p")
    = Some ["p"; "projets"; "depot"]
  ∧ FS.resoudre cwd
      (disque (creer_projet autre_racine cwd "p" "m" "a" "plan.png"
                 (init disque_autre_racine)).2)
      (mon_plan "p" "plan.png")
    = Some ["plan.png"; "p"; "projets"; "App1"; "depot"]
  ∧ ¬ FS.sous ["p"; "projets"; "depot"]
        ["plan.png"; "p"; "projets"; "App1"; "depot"]
  ∧ FS.noeud_en
      (disque (creer_projet autre_racine cwd "p" "m" "a" "plan.png"
                 (init disque_autre_racine)).2)
      ["plan.png"; "p"; "projets"; "App1"; "depot"]
    = Some (Fichier (Octets "PNG"))
  ∧ FS.noeud_en
      (disque (creer_projet autre_racine cwd "p" "m" "a" "plan.png"
                 (init disque_autre_racine)).2)
      ["plan.png"; "p"; "projets"; "depot"]
    = None.
Proof.
  repeat split; try (vm_compute; reflexivity).
  apply (bool_decide_unpack _). vm_compute. exact I.
Qed.

(** C2: why the entry may be a directory when the name does not end in
    an entry name.  [makedirs] returns on the final ["."] after it made
    [p/plan.png], the destination of the copy is that directory, and the
    plan goes below it. *)
Lemma copie_sans_nom_final_contre_exemple :
  let s1 := (creer_projet racine cwd "p/plan.png/../." "m" "a" "plan.png"
               (init disque_vide)) in
  s1.1 = Ok tt
  ∧ ¬ nom_final (PyStr.strip "p/plan.png/../.")
  ∧ FS.resoudre cwd (disque s1.2) (mon_dossier racine "p/plan.png/../.")
    = Some ["p"; "projets"; "App1"; "depot"]
  ∧ FS.noeud_en (disque s1.2) ["plan.png"; "p"; "projets"; "App1"; "depot"]
    = Some Dossier
  ∧ FS.noeud_en (disque s1.2)
      ["plan.png"; "plan.png"; "p"; "projets"; "App1"; "depot"]
    = Some (Fichier (Octets "PNG")).
Proof.
  repeat split; try (vm_compute; reflexivity).
  vm_compute. discriminate.
Qed.

(** The asset root under another spelling, and a name of two
    components. *)
Lemma copie_dans_le_dossier_du_projet_temoin :
  let s1 := (creer_projet ExemplesSuite.racine_epelee cwd " rayons/frais "
               "m" "a" "plan.png" (init disque_vide)).2 in
  FS.resoudre cwd (disque s1)
    (mon_dossier ExemplesSuite.racine_epelee "rayons/frais")
  = Some ["frais"; "rayons"; "projets"; "App1"; "depot"]
  ∧ FS.noeud_en disque_vide ["frais"; "rayons"; "projets"; "App1"; "depot"]
    = None
  ∧ FS.noeud_en (disque s1)
      ["plan.png"; "frais"; "rayons"; "projets"; "App1"; "depot"]
    = Some (Fichier (Octets "PNG")).
Proof.
  intros s1.
  destruct (copie_dans_le_dossier_du_projet ExemplesSuite.racine_epelee cwd
              (init disque_vide) s1 " rayons/frais " "m" "a" "plan.png")
    as (dossier & c & Hr & _ & Hl & Hrac & Hin & Hnew & _).
  - vm_compute. reflexivity.
  - assert (Hd : dossier = ["frais"; "rayons"; "projets"; "App1"; "depot"]).
    { vm_compute in Hr. congruence. }
    assert (Hc : c = Octets "PNG").
    { vm_compute in Hl. congruence. }
    assert (Hbf : bien_forme (disque (init disque_vide))).
    { apply (bool_decide_unpack _). vm_compute. exact I. }
    assert (Hnf : nom_final (PyStr.strip " rayons/frais ")).
    { vm_compute. reflexivity. }
    subst dossier c. split; [exact Hr|]. split; [by apply Hnew|].
    apply Hin; [|exact Hbf|exact Hnf].
    apply Hrac. right. split; [discriminate|]. vm_compute. reflexivity.
Defined.

(** C3, as stated, fails twice.  A name with a space around it is valid
    and the project is created under the stripped name, so loading the
    name as given finds no project.  And a name that holds backslashes
    gives a plan path that loading normalises to another string. *)
Lemma creer_puis_charger_contre_exemple :
  (creer_projet racine cwd " p" "m" "a" "plan.png" (init disque_vide)).1
  = Ok tt
  ∧ (charger_projet racine cwd " p"
       (creer_projet racine cwd " p" "m" "a" "plan.png" (init disque_vide)).2).1
    = Err (ValueError (ProjetIntrouvable " p"))
  ∧ (creer_projet racine cwd "a\\b" "m" "a" "plan.png" (init disque_vide)).1
    = Ok tt
  ∧ (∀ d, projet_actuel
            (creer_projet racine cwd "a\\b" "m" "a" "plan.png"
               (init disque_vide)).2 = Some d →
          Dict.get "chemin_plan" d
          = Some (JStr "App1/projets/a//b/plan.png"))
  ∧ (∀ d, (charger_projet racine cwd "a\\b"
             (creer_projet racine cwd "a\\b" "m" "a" "plan.png"
                (init disque_vide)).2).1 = Ok d →
          Dict.get "chemin_plan" d
          = Some (JStr "App1/projets/a/b/plan.png")).
Proof.
  repeat split; try (vm_compute; reflexivity).
  - intros d H. vm_compute in H. injection H as <-. reflexivity.
  - intros d H. vm_compute in H. injection H as <-. reflexivity.
Qed.

Lemma creer_puis_charger_temoin :
  projet_actuel etat_cree = Some (ma_config "p" "m" "a" "plan.png")
  ∧ (charger_projet racine cwd "p" etat_cree).1
    = Ok [ ("nom", JStr "p"); ("magasin", JStr "m"); ("auteur", JStr "a");
           ("chemin_plan", JStr "App1/projets/p/plan.png");
           ("produits", JObj []) ]
  ∧ (PyStr.contient_car PyStr.contre_barre "p" = false →
     PyStr.contient_car PyStr.contre_barre (extension "plan.png") = false →
     "App1/projets/p/plan.png" = chemin_plan "p" "plan.png").
Proof.
  apply (creer_puis_charger racine cwd (init disque_vide) etat_cree
           "p" "m" "a" "plan.png").
  vm_compute. reflexivity.
Defined.

Lemma definir_puis_obtenir_temoin :
  let s1 := (definir_produits_case racine cwd "A"
               (JArr [JStr "x"; JStr "y"]) etat_cree).2 in
  obtenir_produits_case "A" s1 = (Ok (JArr [JStr "x"; JStr "y"]), s1)
  ∧ ∃ nom d' s2 m',
      (∀ d, projet_actuel etat_cree = Some d →
            Dict.get "nom" d = Some (JStr nom))
      ∧ charger_projet racine cwd nom s1 = (Ok d', s2)
      ∧ Dict.get "produits" d' = Some (JObj m')
      ∧ Dict.get "A" m' = Some (JArr [JStr "x"; JStr "y"]).
Proof.
  apply (definir_puis_obtenir racine cwd etat_cree).
  - discriminate.
  - apply att_appel, att_init.
  - vm_compute. eexists. reflexivity.
  - discriminate.
  - vm_compute. reflexivity.
Defined.

(** C5, as stated, fails on a document that binds a location to an
    empty list: before the load there is no current project, after it
    the current project binds ["A"] to the empty list. *)
Lemma charger_case_vide_contre_exemple :
  sans_case_vide (projet_actuel (init disque_case_vide))
  ∧ (charger_projet racine cwd "p" (init disque_case_vide)).1
    = Ok config_case_vide
  ∧ ¬ sans_case_vide
        (projet_actuel
           (charger_projet racine cwd "p" (init disque_case_vide)).2).
Proof.
  split; [by intros d m case|]. split; [vm_compute; reflexivity|].
  intros H.
  apply (H config_case_vide [("A", JArr [])] "A"); vm_compute; reflexivity.
Qed.

Lemma placements_sans_case_vide_temoin :
  sans_case_vide
    (projet_actuel
       (definir_produits_case racine cwd "A" (JArr [JStr "x"]) etat_cree).2).
Proof.
  apply (proj1 (proj2 (placements_sans_case_vide racine cwd))).
  intros d m case H. vm_compute in H. injection H as <-.
  vm_compute. intros [= <-]. discriminate.
Defined.

Lemma creer_projet_plan_introuvable_temoin :
  creer_projet racine cwd "p" "m" "a" "absent.png" (init disque_vide)
  = (Err (ValueError (PlanIntrouvable "absent.png")), init disque_vide).
Proof.
  apply creer_projet_plan_introuvable; vm_compute; reflexivity.
Defined.

Lemma trouver_case_produit_premiere_temoin :
  ∃ r, trouver_case_produit "y" etat_place = (Ok r, etat_place)
       ∧ (∀ case, r = Some case ↔
                  premiere_occurrence "y"
                    [("A", JArr [JStr "x"; JStr "y"]);
                     ("B", JArr [JStr "z"; JStr "y"])] case)
       ∧ (r = None ↔
          aucune_occurrence "y"
            [("A", JArr [JStr "x"; JStr "y"]);
             ("B", JArr [JStr "z"; JStr "y"])]).
Proof.
  apply (proj2 (trouver_case_produit_premiere etat_place "y")
           config_placee).
  - reflexivity.
  - reflexivity.
  - reflexivity.
  - repeat constructor; by eexists.
Defined.

Lemma supprimer_projet_actuel_temoin :
  let s' := (supprimer_projet racine cwd "p" etat_place).2 in
  projet_actuel s' = None
  ∧ appels_obtenir ["A"; "B"] s' = ([Ok (JArr []); Ok (JArr [])], s').
Proof.
  apply (supprimer_projet_actuel racine cwd etat_place _ config_placee "p"
           ["A"; "B"]).
  - reflexivity.
  - reflexivity.
  - vm_compute. reflexivity.
Defined.

(** The project ["p"] is current and ["q"] is deleted: ["p"] stays. *)
Lemma supprimer_autre_projet_temoin :
  projet_actuel
    (supprimer_projet racine cwd "q" ExemplesSuite.etat_deux_projets).2
  = Some config_placee.
Proof.
  apply (supprimer_autre_projet racine cwd ExemplesSuite.etat_deux_projets
           _ "q").
  - intros d [= <-]. vm_compute. discriminate.
  - vm_compute. reflexivity.
Defined.

Lemma cle_produits_toujours_presente_temoin :
  (∀ d, projet_actuel etat_cree = Some d → Dict.contient "produits" d = true)
  ∧ ∀ k : string,
      (∀ case, (obtenir_produits_case case etat_cree).1 ≠ Err (KeyError k))
      ∧ (∀ case produits,
           (definir_produits_case racine cwd case produits etat_cree).1
           ≠ Err (KeyError k))
      ∧ (obtenir_tous_produits_places etat_cree).1 ≠ Err (KeyError k)
      ∧ (∀ produit,
           (trouver_case_produit produit etat_cree).1 ≠ Err (KeyError k)).
Proof.
  apply (cle_produits_toujours_presente racine cwd etat_cree).
  apply att_appel, att_init.
Defined.

End Constats.

(* ===================================================================== *)
(** ** More on dictionaries and on the errors of the filesystem *)

Module DictSuite.

Lemma set_set (k : string) (v v' : json) (d : dict) :
  Dict.set k v (Dict.set k v' d) = Dict.set k v d.
Proof.
  induction d as [|[k0 v0] d IH]; cbn.
  - by rewrite bool_decide_eq_true_2.
  - case_bool_decide as Hk; cbn.
    + by rewrite bool_decide_eq_true_2.
    + rewrite bool_decide_eq_false_2 by done. by rewrite IH.
Qed.

Lemma del_absent (k : string) (d : dict) :
  Dict.get k d = None → Dict.del k d = d.
Proof.
  induction d as [|[k0 v0] d IH]; cbn; [done|].
  case_bool_decide; [done|]. intros Hg. by rewrite IH.
Qed.

Lemma cles_set_present (k : string) (v : json) (d : dict) :
  is_Some (Dict.get k d) → Dict.cles (Dict.set k v d) = Dict.cles d.
Proof.
  unfold Dict.cles. induction d as [|[k0 v0] d IH]; cbn.
  - by intros [? ?].
  - case_bool_decide as Hk; cbn; [by subst|]. intros Hg. by rewrite IH.
Qed.

Lemma cles_set_absent (k : string) (v : json) (d : dict) :
  Dict.get k d = None → Dict.cles (Dict.set k v d) = Dict.cles d ++ [k].
Proof.
  unfold Dict.cles. induction d as [|[k0 v0] d IH]; cbn; [done|].
  case_bool_decide as Hk; cbn; [done|]. intros Hg. by rewrite IH.
Qed.

Lemma cles_del (k : string) (d : dict) :
  Dict.cles (Dict.del k d) = filter (λ x, x ≠ k) (Dict.cles d).
Proof.
  unfold Dict.cles. induction d as [|[k0 v0] d IH]; [done|].
  cbn [Dict.del]. rewrite !fmap_cons. cbn [fst].
  case_bool_decide as Hk.
  - subst. rewrite filter_cons_False by (by intros ?). exact IH.
  - rewrite fmap_cons, filter_cons_True by done. cbn [fst]. by rewrite IH.
Qed.

Lemma placer_placer (case : string) (produits : json) (m : dict) :
  placer case produits (placer case produits m) = placer case produits m.
Proof.
  unfold placer. destruct (Py.vrai produits).
  - apply set_set.
  - unfold Dict.contient. destruct (Dict.get case m) eqn:Hc.
    + by rewrite DictFaits.get_del_eq.
    + by rewrite Hc.
Qed.

Lemma get_placer_autre (case autre : string) (produits : json) (m : dict) :
  autre ≠ case →
  Dict.get autre (placer case produits m) = Dict.get autre m.
Proof.
  intros Hne. unfold placer. destruct (Py.vrai produits).
  - by rewrite DictFaits.get_set_ne.
  - destruct (Dict.contient case m); [|done].
    by rewrite DictFaits.get_del_ne.
Qed.

End DictSuite.

Module ErreursFaits.
Import FS.

Lemma makedirs_marche_erreur (comps : list string) (fs : sysfich)
    (cur : chemin) (frais : bool) :
  au_plus_OSError (makedirs_marche fs cur frais comps).1.
Proof.
  revert fs cur frais. induction comps as [|c reste IH]; intros fs cur frais.
  - cbn. by eexists.
  - cbn [makedirs_marche]. repeat case_match; cbn; try done; try by eexists.
    all: apply IH.
Qed.

Lemma makedirs_erreur (cwd : chemin) (fs : sysfich) (p : string) :
  au_plus_OSError (makedirs cwd fs p).1.
Proof.
  unfold makedirs. destruct (PyStr.est_vide p); [cbn; by eexists|].
  apply makedirs_marche_erreur.
Qed.

Lemma ecrire_erreur (cwd : chemin) (fs : sysfich) (p : string) (c : contenu) :
  au_plus_OSError (ecrire cwd fs p c).1 ∧
  (∀ e fs', ecrire cwd fs p c = (Err e, fs') → fs' = fs).
Proof.
  unfold ecrire. split.
  - repeat case_match; cbn; try done; by eexists.
  - intros e fs'. repeat case_match; by intros [= _ <-].
Qed.

(** [ouvrable] says when the write goes through. *)
Lemma ecrire_ouvrable (cwd : chemin) (fs : sysfich) (p : string)
    (c : contenu) :
  (ecrire cwd fs p c).1 = Ok tt ↔ ouvrable cwd fs p = true.
Proof.
  unfold ecrire, ouvrable.
  destruct (resoudre cwd fs p) as [[|n parent]|]; try done.
  destruct (est_dossier fs parent); cbn [negb andb]; [|done].
  by destruct (est_dossier fs (n :: parent)).
Qed.

Lemma ecrire_non_ouvrable (cwd : chemin) (fs : sysfich) (p : string)
    (c : contenu) :
  ouvrable cwd fs p = false →
  ∃ o, ecrire cwd fs p c = (Err (OSError o), fs).
Proof.
  unfold ecrire, ouvrable.
  destruct (resoudre cwd fs p) as [[|n parent]|]; try by eexists.
  destruct (est_dossier fs parent); cbn [negb andb]; [|by eexists].
  destruct (est_dossier fs (n :: parent)); [by eexists|done].
Qed.

Lemma lire_erreur (cwd : chemin) (fs : sysfich) (p : string) :
  au_plus_OSError (lire cwd fs p).
Proof. unfold lire. repeat case_match; cbn; try done; by eexists. Qed.

Lemma copy2_erreur (cwd : chemin) (fs : sysfich) (src dst : string) :
  au_plus_OSError (copy2 cwd fs src dst).1.
Proof.
  unfold copy2. destruct (meme_fichier _ _ _ _); [cbn; by eexists|].
  pose proof (lire_erreur cwd fs src) as Hl.
  destruct (lire cwd fs src); [|done]. apply ecrire_erreur.
Qed.

End ErreursFaits.

(* ===================================================================== *)
(** ** Creating: validation, what is left behind *)

Section Creation.
Variable DOSSIER_PROJETS : string.
Variable cwd : chemin.

Local Abbreviation creer_projet := (creer_projet DOSSIER_PROJETS cwd).
Local Abbreviation charger_projet := (charger_projet DOSSIER_PROJETS cwd).
Local Abbreviation mon_dossier := (mon_dossier DOSSIER_PROJETS).
Local Abbreviation mon_fichier := (mon_fichier DOSSIER_PROJETS).

(** The test of lines 48-50: all arguments are non-empty, the stripped
    name is not blank, and its directory is already there. *)
Lemma creer_projet_existe_deja (nom magasin auteur plan : string)
    (s : etat) :
  forallb PyStr.vrai [nom; magasin; auteur; plan] = true →
  PyStr.strip nom ≠ "" →
  FS.existe cwd (disque s) (mon_dossier (PyStr.strip nom)) = true →
  creer_projet nom magasin auteur plan s
  = (Err (ValueError (ProjetExisteDeja (PyStr.strip nom))), s).
Proof.
  unfold creer_projet. intros -> Hn He.
  destruct (PyStr.strip nom); [done|].
  cbn [negb PyStr.vrai PyStr.est_vide].
  unfold lier, lire_disque. by rewrite He.
Qed.

(** X1. A [ValueError] that [creer_projet] raises with one of the
    messages of the class is one of its four tests failing, and it is
    raised before anything is written: the disk and the current project
    are as they were. *)
Theorem creer_projet_ValueError_sans_effet (s s' : etat)
    (nom magasin auteur plan : string) (m : message) :
  creer_projet nom magasin auteur plan s = (Err (ValueError m), s') →
  s' = s
  ∧ (m = DonneesIncompletes ∨ m = NomRequis
     ∨ m = ProjetExisteDeja (PyStr.strip nom) ∨ m = PlanIntrouvable plan).
Proof.
  unfold creer_projet.
  destruct (forallb _ _); cbn [negb]; [|intros [= <- <-]; auto].
  destruct (PyStr.vrai (PyStr.strip nom)); cbn [negb];
    [|intros [= <- <-]; auto].
  unfold lier at 1, lire_disque at 1.
  destruct (FS.existe _ _ _); [intros [= <- <-]; auto|].
  unfold lier at 1, lire_disque at 1.
  destruct (FS.isfile _ _ _); cbn [negb]; [|intros [= <- <-]; auto 6].
  unfold lier, sur_disque, json_dump, affecter_projet.
  cbn [disque projet_actuel].
  pose proof (ErreursFaits.makedirs_erreur cwd (disque s)
                (mon_dossier (PyStr.strip nom))) as H1.
  destruct (FS.makedirs _ _ _) as [[[]|e1] fs1].
  2:{ destruct H1 as [o ->]. discriminate. }
  cbn [disque projet_actuel].
  pose proof (ErreursFaits.copy2_erreur cwd fs1 plan
                (mon_plan (PyStr.strip nom) plan)) as H2.
  destruct (FS.copy2 _ _ _ _) as [[[]|e2] fs2].
  2:{ destruct H2 as [o ->]. discriminate. }
  unfold sur_disque. cbn [disque projet_actuel].
  pose proof (proj1 (ErreursFaits.ecrire_erreur cwd fs2
                (mon_fichier (PyStr.strip nom))
                (Document (JObj (ma_config (PyStr.strip nom) magasin
                                   auteur plan))))) as H3.
  destruct (FS.ecrire _ _ _ _) as [[[]|e3] fs3]; [discriminate|].
  destruct H3 as [o ->]. discriminate.
Qed.

(** X2. The tests come in the order of the source: an empty argument,
    then a name that is blank once stripped, then a directory that is
    already there under the stripped name.  Each raises its own error
    and changes nothing. *)
Theorem creer_projet_validation (s : etat)
    (nom magasin auteur plan : string) :
  (nom = "" ∨ magasin = "" ∨ auteur = "" ∨ plan = "" →
   creer_projet nom magasin auteur plan s
   = (Err (ValueError DonneesIncompletes), s))
  ∧ (forallb PyStr.vrai [nom; magasin; auteur; plan] = true →
     PyStr.strip nom = "" →
     creer_projet nom magasin auteur plan s
     = (Err (ValueError NomRequis), s))
  ∧ (forallb PyStr.vrai [nom; magasin; auteur; plan] = true →
     PyStr.strip nom ≠ "" →
     FS.existe cwd (disque s) (mon_dossier (PyStr.strip nom)) = true →
     creer_projet nom magasin auteur plan s
     = (Err (ValueError (ProjetExisteDeja (PyStr.strip nom))), s)).
Proof.
  split; [|split]; [| |apply creer_projet_existe_deja].
  - intros H. unfold creer_projet.
    assert (forallb PyStr.vrai [nom; magasin; auteur; plan] = false) as ->;
      [|done].
    cbn. destruct H as [-> | [-> | [-> | ->]]]; cbn;
      by rewrite ?andb_false_r.
  - unfold creer_projet. intros -> ->. done.
Qed.

(** X3. After a successful [creer_projet] the directory of the project
    is there and [config.json] holds the configuration that became the
    current project; any further [creer_projet] under a name that strips
    to the same raises the error of the existing project and changes
    nothing. *)
Theorem creer_projet_puis_creer (s s1 : etat)
    (nom magasin auteur plan : string) :
  creer_projet nom magasin auteur plan s = (Ok tt, s1) →
  FS.isdir cwd (disque s1) (mon_dossier (PyStr.strip nom)) = true
  ∧ FS.lire cwd (disque s1) (mon_fichier (PyStr.strip nom))
    = Ok (Document (JObj (ma_config (PyStr.strip nom) magasin auteur plan)))
  ∧ ∀ nom2 magasin2 auteur2 plan2,
      forallb PyStr.vrai [nom2; magasin2; auteur2; plan2] = true →
      PyStr.strip nom2 = PyStr.strip nom →
      creer_projet nom2 magasin2 auteur2 plan2 s1
      = (Err (ValueError (ProjetExisteDeja (PyStr.strip nom))), s1).
Proof.
  intros Hc.
  apply creer_projet_ok in Hc
    as (_ & Hnom & _ & _ & fs1 & fs2 & fs3 & _ & _ & He & ->).
  cbn [disque].
  assert (Hne : PyStr.strip nom ≠ "") by (by destruct (PyStr.strip nom)).
  pose proof (FSFaits.lire_ecrire _ _ _ _ _ He) as Hlire.
  pose proof (λ x, FSFaits.ecrire_dossiers _ _ _ _ _ _ x He) as Hd.
  assert (Hdir : FS.isdir cwd fs3 (mon_dossier (PyStr.strip nom)) = true).
  { apply FSFaits.ecrire_ok in He as (n & parent & Hr & _ & _ & _).
    unfold mon_fichier, OsPath.join in Hr. cbn [fold_left] in Hr.
    apply FSFaits.isdir_parent in Hr as (kd & Hkd & Hkdir & _);
      [|by apply join2_non_vide_d|done|done].
    apply (ArbreFaits.isdir_mono _ fs2); [done|].
    unfold FS.isdir. by rewrite Hkd. }
  split; [done|]. split; [done|].
  intros nom2 magasin2 auteur2 plan2 Hv Hs. rewrite <- Hs.
  apply creer_projet_existe_deja; [done|by rewrite Hs|].
  rewrite Hs. cbn [disque]. by apply ArbreFaits.isdir_existe.
Qed.


End Creation.

(* ===================================================================== *)
(** ** Loading, deleting, saving: errors and effects *)

Section Persistance.
Variable DOSSIER_PROJETS : string.
Variable cwd : chemin.

Local Abbreviation creer_projet := (creer_projet DOSSIER_PROJETS cwd).
Local Abbreviation charger_projet := (charger_projet DOSSIER_PROJETS cwd).
Local Abbreviation supprimer_projet := (supprimer_projet DOSSIER_PROJETS cwd).
Local Abbreviation sauvegarder := (sauvegarder DOSSIER_PROJETS cwd).
Local Abbreviation definir_produits_case :=
  (definir_produits_case DOSSIER_PROJETS cwd).
Local Abbreviation mon_dossier := (mon_dossier DOSSIER_PROJETS).
Local Abbreviation mon_fichier := (mon_fichier DOSSIER_PROJETS).

(** X5. [charger_projet] never writes the disk.  When it raises, the
    current project is kept; when it returns, what it returns is the
    current project. *)
Theorem charger_projet_lecture_seule (nom : string) (s s' : etat)
    (r : res dict) :
  charger_projet nom s = (r, s') →
  disque s' = disque s
  ∧ match r with
    | Ok d => projet_actuel s' = Some d
    | Err _ => projet_actuel s' = projet_actuel s
    end.
Proof.
  destruct r as [d|e]; intros Hc.
  - by apply charger_projet_ok in Hc as (? & ? & _ & _ & _ & _ & _ & ->).
  - by apply charger_projet_err in Hc as ->.
Qed.

(** X6. Without a directory for the name, [charger_projet] and
    [supprimer_projet] raise the error of the missing project and
    change nothing. *)
Theorem projet_introuvable (nom : string) (s : etat) :
  FS.isdir cwd (disque s) (mon_dossier nom) = false →
  charger_projet nom s = (Err (ValueError (ProjetIntrouvable nom)), s)
  ∧ supprimer_projet nom s = (Err (ValueError (ProjetIntrouvable nom)), s).
Proof.
  intros H. unfold charger_projet, supprimer_projet, lier, lire_disque.
  by rewrite H.
Qed.

(** X7. The errors of [charger_projet] on the document, the directory
    being there: a file that is missing or is not JSON gives the loading
    error; an object without one of the four fields gives the error of
    the invalid configuration; an object with the four fields whose plan
    path is not a string gives a [TypeError]. *)
Theorem charger_projet_document (nom : string) (s : etat) :
  FS.isdir cwd (disque s) (mon_dossier nom) = true →
  ((∀ j, FS.lire cwd (disque s) (mon_fichier nom) ≠ Ok (Document j)) →
   charger_projet nom s = (Err (ValueError ErreurChargement), s))
  ∧ (∀ d champ,
       FS.lire cwd (disque s) (mon_fichier nom) = Ok (Document (JObj d)) →
       champ ∈ champs_requis → Dict.get champ d = None →
       charger_projet nom s = (Err (ValueError ConfigurationInvalide), s))
  ∧ (∀ d v,
       FS.lire cwd (disque s) (mon_fichier nom) = Ok (Document (JObj d)) →
       Py.tous_dans champs_requis (JObj d) = Ok true →
       Dict.get "chemin_plan" d = Some v → (∀ c, v ≠ JStr c) →
       charger_projet nom s = (Err TypeError, s)).
Proof.
  intros Hdir.
  assert (Hdebut : ∀ k : json → M dict,
            lier (lire_disque (λ fs, FS.isdir cwd fs (mon_dossier nom)))
              (λ la, if negb la
                     then lever (ValueError (ProjetIntrouvable nom))
                     else lier (essayer (json_load cwd (mon_fichier nom))
                                  ErreurChargement) k) s
            = match FS.lire cwd (disque s) (mon_fichier nom) with
              | Ok (Document j) => k j s
              | _ => (Err (ValueError ErreurChargement), s)
              end).
  { intros k. unfold lier at 1, lire_disque at 1. rewrite Hdir. cbn [negb].
    unfold lier at 1, essayer, json_load, lier at 1, lire_disque.
    by destruct (FS.lire _ _ _) as [[j|b]|e]. }
  unfold charger_projet. rewrite Hdebut. repeat split.
  - intros Hl. destruct (FS.lire _ _ _) as [[j|b]|e]; try done.
    by destruct (Hl j).
  - intros d champ -> Hin Hnone.
    unfold lier at 1, de_res at 1.
    assert (Py.tous_dans champs_requis (JObj d) = Ok false) as ->; [|done].
    unfold champs_requis in *. cbn. unfold Dict.contient.
    repeat (apply elem_of_cons in Hin as [->|Hin];
            [rewrite Hnone; by repeat case_match|]).
    by apply elem_of_nil in Hin.
  - intros d v -> Ht Hv Hns.
    unfold lier at 1, de_res at 1. rewrite Ht. cbn [negb].
    unfold lier at 1, de_res, Dict.item. rewrite Hv.
    destruct v; try done. by destruct (Hns s0).
Qed.

(** X8. A document that is not an object is never loaded: the call
    raises the error of the invalid configuration or, when the test of
    the fields passes on a list or a string, a [TypeError]; the state is
    as before. *)
Theorem charger_projet_pas_un_objet (nom : string) (s : etat) (j : json) :
  FS.isdir cwd (disque s) (mon_dossier nom) = true →
  FS.lire cwd (disque s) (mon_fichier nom) = Ok (Document j) →
  (∀ d, j ≠ JObj d) →
  charger_projet nom s
  = (Err (match Py.tous_dans champs_requis j with
          | Ok false => ValueError ConfigurationInvalide
          | _ => TypeError
          end), s).
Proof.
  intros Hdir Hl Hj. unfold charger_projet, lier at 1, lire_disque at 1.
  rewrite Hdir. cbn [negb].
  unfold lier at 1, essayer, json_load, lier at 1, lire_disque.
  cbv beta. rewrite Hl. unfold ret. cbv beta iota.
  unfold lier at 1, de_res at 1.
  destruct j as [| | |t|l|d]; try done.
  - destruct (Py.tous_dans champs_requis (JStr t)) as [[|]|e] eqn:Ht; try done.
    revert Ht. unfold champs_requis. cbn. by repeat case_match.
  - destruct (Py.tous_dans champs_requis (JArr l)) as [[|]|e] eqn:Ht; try done.
    revert Ht. unfold champs_requis. cbn. by repeat case_match.
  - by destruct (Hj d).
Qed.

(** X9. What [charger_projet] does to the keys of an object it loads:
    the value of the legacy key, when there is one, is found under
    ["produits"], whatever was there; the legacy key is gone; without
    either key the placements are the empty dictionary; a dictionary
    under ["produits"] alone is kept; every key other than these two
    and the plan path has the value of the document. *)
Theorem charger_projet_cles (nom : string) (s s' : etat) (d d' : dict) :
  FS.lire cwd (disque s) (mon_fichier nom) = Ok (Document (JObj d)) →
  charger_projet nom s = (Ok d', s') →
  (∀ v, Dict.get "produits_par_case" d = Some v →
        Dict.get "produits" d' = Some v)
  ∧ Dict.get "produits_par_case" d' = None
  ∧ (Dict.get "produits_par_case" d = None →
     Dict.get "produits" d = None →
     Dict.get "produits" d' = Some (JObj []))
  ∧ (∀ m, Dict.get "produits_par_case" d = None →
          Dict.get "produits" d = Some (JObj m) →
          Dict.get "produits" d' = Some (JObj m))
  ∧ (∀ k, k ≠ "produits" → k ≠ "produits_par_case" → k ≠ "chemin_plan" →
          Dict.get k d' = Dict.get k d).
Proof.
  intros Hl Hc.
  apply charger_projet_ok in Hc as (d0 & chemin & _ & Hl' & _ & _ & -> & _).
  rewrite Hl in Hl'. injection Hl' as <-.
  set (nouveau := JStr _).
  pose proof (compatibilite_produits_get (Dict.set "chemin_plan" nouveau d))
    as Hget.
  rewrite !(DictFaits.get_set_ne "chemin_plan") in Hget by done.
  repeat split.
  - intros v Hv. by rewrite Hget, Hv.
  - apply compatibilite_produits_ancienne.
  - intros H1 H2. by rewrite Hget, H1, H2.
  - intros m H1 H2. by rewrite Hget, H1, H2.
  - intros k H1 H2 H3. rewrite compatibilite_produits_autre by done.
    by rewrite DictFaits.get_set_ne.
Qed.

(** X10. After a successful [supprimer_projet] the directory is gone
    with all that lay below it, and nothing else on the disk changed;
    loading or deleting the name again raises the error of the missing
    project. *)
Theorem supprimer_projet_efface (nom : string) (s s' : etat) :
  supprimer_projet nom s = (Ok tt, s') →
  FS.isdir cwd (disque s') (mon_dossier nom) = false
  ∧ (∃ k, FS.resoudre cwd (disque s) (mon_dossier nom) = Some k
          ∧ ∀ x, FS.noeud_en (disque s') x
                 = if decide (FS.sous k x) then None
                   else FS.noeud_en (disque s) x)
  ∧ (charger_projet nom s').1 = Err (ValueError (ProjetIntrouvable nom))
  ∧ (supprimer_projet nom s').1 = Err (ValueError (ProjetIntrouvable nom)).
Proof.
  intros Hs.
  assert (Hrm : FS.rmtree cwd (disque s) (mon_dossier nom)
                = (Ok tt, disque s')).
  { revert Hs. unfold supprimer_projet, lier, lire_disque, essayer,
      sur_disque, lever, obtenir_projet.
    destruct (FS.isdir _ _ _); cbn [negb]; [|done].
    destruct (FS.rmtree _ _ _) as [[[]|e] fs']; cbn [disque projet_actuel];
      [|done].
    destruct (projet_actuel s) as [[|e0 d]|]; cbn [projet_vrai];
      try by intros [= <-].
    unfold de_res. destruct (Dict.item "nom" (e0 :: d)) as [n|]; [|done].
    destruct (Py.egal_str nom n); by intros [= <-]. }
  destruct (ArbreFaits.isdir_apres_rmtree _ _ _ _ Hrm) as [Hdir _].
  split; [done|]. split.
  - apply ArbreFaits.rmtree_ok in Hrm as (k & Hr & _ & Hk & ->).
    exists k. split; [done|]. intros x. by apply ArbreFaits.noeud_en_filtre.
  - unfold charger_projet, supprimer_projet, lier, lire_disque.
    by rewrite Hdir.
Qed.

(** X11. A [supprimer_projet] that raises leaves the current project
    as it was. *)
Theorem supprimer_projet_erreur (nom : string) (s s' : etat) (e : exn) :
  supprimer_projet nom s = (Err e, s') →
  projet_actuel s' = projet_actuel s.
Proof.
  unfold supprimer_projet, lier, lire_disque, essayer, sur_disque, lever,
    obtenir_projet.
  destruct (FS.isdir _ _ _); cbn [negb]; [|by intros [= _ <-]].
  destruct (FS.rmtree _ _ _) as [[[]|e1] fs']; cbn [disque projet_actuel];
    [|by intros [= _ <-]].
  destruct (projet_actuel s) as [[|e0 d]|]; cbn [projet_vrai]; try done.
  unfold de_res. destruct (Dict.item "nom" (e0 :: d)) as [n|];
    [|by intros [= _ <-]].
  by destruct (Py.egal_str nom n).
Qed.

(** X12. With no current project, or an empty dictionary for one,
    [sauvegarder] and [definir_produits_case] raise their errors and
    change nothing, the two readers of lists return empty lists, and
    [trouver_case_produit] returns no location. *)
Theorem sans_projet_actif (s : etat) (case produit : string)
    (produits : json) :
  projet_actuel s = None ∨ projet_actuel s = Some [] →
  sauvegarder s = (Err (ValueError AucunProjetASauvegarder), s)
  ∧ definir_produits_case case produits s
    = (Err (ValueError AucunProjetActif), s)
  ∧ obtenir_produits_case case s = (Ok (JArr []), s)
  ∧ obtenir_tous_produits_places s = (Ok [], s)
  ∧ trouver_case_produit produit s = (Ok None, s).
Proof.
  intros Hv.
  unfold sauvegarder, definir_produits_case, obtenir_produits_case,
    obtenir_tous_produits_places, trouver_case_produit, lier,
    obtenir_projet.
  by destruct Hv as [-> | ->].
Qed.

(** X13. A successful [sauvegarder] puts the current project in the
    [config.json] of its name, where it reads back, and touches no other
    location of the disk nor the current project. *)
Theorem sauvegarder_ecrit (s s' : etat) :
  sauvegarder s = (Ok tt, s') →
  ∃ d nom k,
    projet_actuel s = Some d ∧ Dict.get "nom" d = Some (JStr nom)
    ∧ FS.resoudre cwd (disque s) (mon_fichier nom) = Some k
    ∧ disque s' = <[k := Fichier (Document (JObj d))]> (disque s)
    ∧ FS.lire cwd (disque s') (mon_fichier nom) = Ok (Document (JObj d))
    ∧ projet_actuel s' = projet_actuel s.
Proof.
  intros (d & nom & Hp & Hn & He & Hp')%sauvegarder_ok.
  pose proof (FSFaits.lire_ecrire _ _ _ _ _ He) as Hl.
  apply FSFaits.ecrire_ok in He as (n & parent & Hr & _ & _ & Hfs).
  exists d, nom, (n :: parent). by rewrite Hp, Hp'.
Qed.

(** X14. When [config.json] of the current project cannot be opened
    for writing, [sauvegarder] raises the saving error, not the
    [OSError] of [open], and changes nothing. *)
Theorem sauvegarder_ouverture_impossible (s : etat) (d : dict)
    (nom : string) :
  projet_actuel s = Some d → Dict.get "nom" d = Some (JStr nom) →
  ouvrable cwd (disque s) (mon_fichier nom) = false →
  sauvegarder s = (Err (ValueError ErreurSauvegarde), s).
Proof.
  intros Hp Hn Ho. unfold sauvegarder, lier, obtenir_projet. rewrite Hp.
  assert (projet_vrai (Some d) = true) as -> by by destruct d.
  cbn [negb]. unfold de_res, Dict.item. rewrite Hn.
  unfold essayer, json_dump, sur_disque.
  destruct (ErreursFaits.ecrire_non_ouvrable cwd (disque s)
              (mon_fichier nom) (Document (JObj d)) Ho) as [o ->].
  by destruct s.
Qed.

End Persistance.

(* ===================================================================== *)
(** ** Placing products and reading them back *)

Section Placements.
Variable DOSSIER_PROJETS : string.
Variable cwd : chemin.

Local Abbreviation sauvegarder := (sauvegarder DOSSIER_PROJETS cwd).
Local Abbreviation definir_produits_case :=
  (definir_produits_case DOSSIER_PROJETS cwd).
Local Abbreviation mon_fichier := (mon_fichier DOSSIER_PROJETS).

Lemma obtenir_produits_case_dict (case : string) (s : etat) (d m : dict) :
  projet_actuel s = Some d → Dict.get "produits" d = Some (JObj m) →
  obtenir_produits_case case s
  = (Ok (default (JArr []) (Dict.get case m)), s).
Proof.
  intros Hp Hm. unfold obtenir_produits_case, lier, obtenir_projet.
  rewrite Hp. assert (projet_vrai (Some d) = true) as -> by by destruct d.
  cbn [negb]. unfold de_res, Dict.item. by rewrite Hm.
Qed.

Lemma obtenir_produits_case_projet (case : string) (s1 s2 : etat) :
  projet_actuel s1 = projet_actuel s2 →
  (obtenir_produits_case case s1).1 = (obtenir_produits_case case s2).1.
Proof.
  intros H. unfold obtenir_produits_case, lier, obtenir_projet. rewrite H.
  destruct (projet_actuel s2) as [d|]; [|done].
  destruct (projet_vrai (Some d)); cbn [negb]; [|done].
  unfold de_res. destruct (Dict.item "produits" d) as [[]|]; done.
Qed.

Lemma projet_vrai_set (k : string) (v : json) (d : dict) :
  projet_vrai (Some (Dict.set k v d)) = true.
Proof. destruct d as [|[k' v'] d]; cbn; [done|]. by case_bool_decide. Qed.

(** X15. On placements that are a dictionary, [definir_produits_case]
    changes them in memory before it saves, and does not undo the
    change: when [config.json] cannot be opened for writing, the call
    raises the saving error, the disk is as it was, and the current
    project holds the new placements, which [obtenir_produits_case]
    returns. *)
Theorem definir_produits_case_sans_retour (case : string) (produits : json)
    (s : etat) (d m : dict) (nom : string) :
  projet_actuel s = Some d → Dict.get "produits" d = Some (JObj m) →
  Dict.get "nom" d = Some (JStr nom) →
  ouvrable cwd (disque s) (mon_fichier nom) = false →
  let s' := {| disque := disque s;
               projet_actuel :=
                 Some (Dict.set "produits"
                         (JObj (placer case produits m)) d) |} in
  definir_produits_case case produits s
  = (Err (ValueError ErreurSauvegarde), s')
  ∧ obtenir_produits_case case s'
    = (Ok (if Py.vrai produits then produits else JArr []), s').
Proof.
  intros Hp Hm Hn Ho s'.
  assert (Hv : projet_vrai (Some d) = true) by by destruct d.
  rewrite (definir_produits_case_dict _ _ _ _ _ _ _ Hp Hv Hm). fold s'.
  split.
  - unfold sauvegarder, lier, obtenir_projet. cbn [projet_actuel s'].
    rewrite projet_vrai_set. cbn [negb]. unfold de_res, Dict.item.
    rewrite DictFaits.get_set_ne, Hn by done.
    unfold essayer, json_dump, sur_disque. cbn [disque projet_actuel s'].
    by destruct (ErreursFaits.ecrire_non_ouvrable cwd (disque s)
                   (mon_fichier nom)
                   (Document (JObj (Dict.set "produits"
                      (JObj (placer case produits m)) d))) Ho) as [o ->].
  - rewrite (obtenir_produits_case_dict case s' _ (placer case produits m)
               eq_refl) by apply DictFaits.get_set_eq.
    f_equal. f_equal. unfold placer. destruct (Py.vrai produits) eqn:Hvr.
    + by rewrite DictFaits.get_set_eq.
    + unfold Dict.contient. destruct (Dict.get case m) eqn:Hc.
      * by rewrite DictFaits.get_del_eq.
      * by rewrite Hc.
Qed.

(** X16. [definir_produits_case] on one location leaves what
    [obtenir_produits_case] returns for every other location, whether
    it returns or raises. *)
Theorem definir_produits_case_autres_cases (case autre : string)
    (produits : json) (s : etat) :
  autre ≠ case →
  (obtenir_produits_case autre
     (definir_produits_case case produits s).2).1
  = (obtenir_produits_case autre s).1.
Proof.
  intros Hne.
  destruct (definir_produits_case_projet DOSSIER_PROJETS cwd case produits s)
    as [Heq | (d & m & Hp & Hm & Heq)].
  - by apply obtenir_produits_case_projet.
  - rewrite (obtenir_produits_case_dict autre _ _ _ Heq
               (DictFaits.get_set_eq _ _ _)).
    rewrite (obtenir_produits_case_dict autre s d m Hp Hm). cbn.
    by rewrite DictSuite.get_placer_autre.
Qed.

(** X17. The order of the locations, which the readers iterate in:
    placing products on a location that has some keeps the order; on a
    new location it puts the location last; placing a false value takes
    the location out and keeps the order of the others. *)
Theorem definir_produits_case_ordre (case : string) (produits : json)
    (s : etat) (d m : dict) :
  projet_actuel s = Some d → Dict.get "produits" d = Some (JObj m) →
  ∃ d' m',
    projet_actuel (definir_produits_case case produits s).2 = Some d'
    ∧ Dict.get "produits" d' = Some (JObj m')
    ∧ Dict.cles d' = Dict.cles d
    ∧ Dict.cles m'
      = if Py.vrai produits then
          if Dict.contient case m then Dict.cles m
          else Dict.cles m ++ [case]
        else filter (λ x, x ≠ case) (Dict.cles m).
Proof.
  intros Hp Hm.
  assert (Hv : projet_vrai (Some d) = true) by by destruct d.
  rewrite (definir_produits_case_dict _ _ _ _ _ _ _ Hp Hv Hm).
  rewrite sauvegarder_projet. cbn [projet_actuel].
  eexists _, _. split; [done|]. split; [apply DictFaits.get_set_eq|].
  split.
  - apply DictSuite.cles_set_present. by rewrite Hm.
  - unfold placer, Dict.contient. destruct (Py.vrai produits).
    + destruct (Dict.get case m) eqn:Hc.
      * apply DictSuite.cles_set_present. by rewrite Hc.
      * by apply DictSuite.cles_set_absent.
    + destruct (Dict.get case m) eqn:Hc.
      * apply DictSuite.cles_del.
      * rewrite <- (DictSuite.del_absent case m Hc) at 1.
        apply DictSuite.cles_del.
Qed.

Lemma ecrire_deux_fois (fs fs' : sysfich) (p : string) (c : contenu) :
  FS.ecrire cwd fs p c = (Ok tt, fs') → FS.ecrire cwd fs' p c = (Ok tt, fs').
Proof.
  intros He. pose proof (λ x, FSFaits.ecrire_dossiers _ _ _ _ _ _ x He) as Hd.
  apply FSFaits.ecrire_ok in He as (n & parent & Hr & Hp & Hk & ->).
  unfold FS.ecrire. rewrite (FSFaits.resoudre_mono _ _ _ _ _ Hd Hr).
  rewrite (Hd _ Hp). cbn [negb].
  assert (FS.est_dossier (<[n :: parent := Fichier c]> fs) (n :: parent)
          = false) as ->.
  { unfold FS.est_dossier. rewrite FSFaits.noeud_en_insert by done.
    by rewrite decide_True. }
  by rewrite insert_insert_eq.
Qed.

Lemma sauvegarder_deux_fois (s s1 : etat) :
  sauvegarder s = (Ok tt, s1) → sauvegarder s1 = (Ok tt, s1).
Proof.
  intros (d & nom & Hp & Hn & He & Hp1)%sauvegarder_ok.
  apply ecrire_deux_fois in He.
  unfold sauvegarder, lier, obtenir_projet. rewrite Hp1.
  assert (projet_vrai (Some d) = true) as -> by by destruct d.
  cbn [negb]. unfold de_res, Dict.item. rewrite Hn.
  unfold essayer, json_dump, sur_disque. rewrite He, Hp1.
  destruct s1. cbn in *. by subst.
Qed.

(** When the placements are not a dictionary, a call that returns did
    nothing but save: the value was false and the location was not in
    the placements. *)
Lemma definir_produits_case_sans_dict (case : string) (produits : json)
    (s s1 : etat) (d : dict) (v : json) :
  projet_actuel s = Some d → Dict.get "produits" d = Some v →
  (∀ m, v ≠ JObj m) →
  definir_produits_case case produits s = (Ok tt, s1) →
  sauvegarder s = (Ok tt, s1)
  ∧ ∀ s2, projet_actuel s2 = Some d →
          definir_produits_case case produits s2 = sauvegarder s2.
Proof.
  intros Hp Hm Hv Hdef.
  assert (Hvr : projet_vrai (Some d) = true) by by destruct d.
  assert (Hforme : ∀ s2, projet_actuel s2 = Some d →
            definir_produits_case case produits s2
            = if Py.vrai produits then (Err TypeError, s2)
              else match Py.dans case v with
                   | Ok true => (Err TypeError, s2)
                   | Ok false => sauvegarder s2
                   | Err e => (Err e, s2)
                   end).
  { intros s2 Hp2. unfold definir_produits_case, lier at 1, obtenir_projet.
    rewrite Hp2, Hvr. cbn [negb]. destruct (Py.vrai produits).
    - unfold lier, modifier_produits, lier, de_res, Dict.item. rewrite Hm.
      destruct v; try done. by destruct (Hv d0).
    - unfold lier at 1, lier at 1, de_res at 1, Dict.item. rewrite Hm.
      unfold lier at 1, de_res at 1.
      destruct (Py.dans case v) as [[|]|e]; try done.
      unfold modifier_produits, lier, de_res, Dict.item. rewrite Hm.
      destruct v; try done. by destruct (Hv d0). }
  rewrite (Hforme s Hp) in Hdef.
  destruct (Py.vrai produits); [done|].
  by destruct (Py.dans case v) as [[|]|e].
Qed.

(** X18. [definir_produits_case] is idempotent: when a call returns,
    the same call again returns and leaves the disk and the current
    project as the first call left them. *)
Theorem definir_produits_case_idempotent (case : string) (produits : json)
    (s s1 : etat) :
  definir_produits_case case produits s = (Ok tt, s1) →
  definir_produits_case case produits s1 = (Ok tt, s1).
Proof.
  intros Hdef.
  destruct (projet_actuel s) as [d|] eqn:Hp.
  2:{ revert Hdef. unfold definir_produits_case, lier, obtenir_projet.
      by rewrite Hp. }
  destruct (projet_vrai (Some d)) eqn:Hvr.
  2:{ revert Hdef. unfold definir_produits_case, lier, obtenir_projet.
      by rewrite Hp, Hvr. }
  destruct (Dict.get "produits" d) as [v|] eqn:Hm.
  2:{ revert Hdef. unfold definir_produits_case, lier, obtenir_projet,
        modifier_produits, lier, de_res, Dict.item.
      rewrite Hp, Hvr, Hm. cbn [negb]. by destruct (Py.vrai produits). }
  destruct v as [| | |t|l|m].
  6:{ rewrite (definir_produits_case_dict _ _ _ _ _ _ _ Hp Hvr Hm) in Hdef.
      pose proof (sauvegarder_projet DOSSIER_PROJETS cwd
        {| disque := disque s;
           projet_actuel :=
             Some (Dict.set "produits" (JObj (placer case produits m)) d) |})
        as Hp1.
      rewrite Hdef in Hp1. cbn [snd projet_actuel] in Hp1.
      assert (Hv1 : projet_vrai (Some (Dict.set "produits"
                       (JObj (placer case produits m)) d)) = true).
      { apply projet_vrai_set. }
      rewrite (definir_produits_case_dict _ _ _ _ _ _ _ Hp1 Hv1
                 (DictFaits.get_set_eq _ _ _)).
      rewrite DictSuite.placer_placer, DictSuite.set_set.
      apply sauvegarder_deux_fois in Hdef. rewrite <- Hp1.
      by destruct s1. }
  all: destruct (definir_produits_case_sans_dict _ _ _ _ _ _ Hp Hm
                   ltac:(done) Hdef) as [Hs Hforme];
    rewrite Hforme;
    [ by apply (sauvegarder_deux_fois s)
    | pose proof (sauvegarder_projet DOSSIER_PROJETS cwd s) as Hq;
      rewrite Hs in Hq; cbn [snd] in Hq; by rewrite Hq ].
Qed.

Lemma etendre_types (m : dict) (acc : list json) :
  placements_types m →
  etendre acc (Dict.valeurs m) = Ok (acc ++ tous_les_produits m).
Proof.
  intros Ht. revert acc.
  induction Ht as [|[k v] m [l Hl] _ IH]; intros acc.
  - cbn. by rewrite app_nil_r.
  - cbn in Hl. subst v.
    change (Dict.valeurs ((k, JArr l) :: m)) with (JArr l :: Dict.valeurs m).
    change (tous_les_produits ((k, JArr l) :: m))
      with (l ++ tous_les_produits m).
    cbn [etendre Py.iterer]. rewrite IH. f_equal. symmetry. apply List.app_assoc.
Qed.

(** X19. On placements that map locations to lists,
    [obtenir_tous_produits_places] returns the lists end to end, in the
    order of the locations, and leaves the state as it is. *)
Theorem obtenir_tous_produits_places_concat (s : etat) (d m : dict) :
  projet_actuel s = Some d → Dict.get "produits" d = Some (JObj m) →
  placements_types m →
  obtenir_tous_produits_places s = (Ok (tous_les_produits m), s).
Proof.
  intros Hp Hm Ht. unfold obtenir_tous_produits_places, lier, obtenir_projet.
  rewrite Hp. assert (projet_vrai (Some d) = true) as -> by by destruct d.
  cbn [negb]. unfold de_res, Dict.item. rewrite Hm.
  by rewrite (etendre_types m [] Ht).
Qed.

Lemma chercher_case_parmi_tous (produit : string) (m : dict) :
  placements_types m →
  ∃ r, chercher_case produit m = Ok r
       ∧ (is_Some r ↔ JStr produit ∈ tous_les_produits m).
Proof.
  induction 1 as [|[k v] m [l Hl] _ (r & Hr & IH)].
  - exists None. split; [done|]. split; [by intros [? ?]|].
    intros H. by apply elem_of_nil in H.
  - cbn in Hl. subst v.
    change (tous_les_produits ((k, JArr l) :: m))
      with (l ++ tous_les_produits m).
    cbn [chercher_case Py.dans].
    destruct (existsb (Py.egal_str produit) l) eqn:He.
    + exists (Some k). split; [done|]. rewrite elem_of_app.
      split; [|by eexists]. intros _. left. by apply existsb_egal_str.
    + exists r. split; [done|]. rewrite elem_of_app, IH.
      split; [by right|].
      intros [Hin|Hin]; [|done]. apply existsb_egal_str in Hin. congruence.
Qed.

(** X20. On placements that map locations to lists,
    [trouver_case_produit] returns a location exactly when the product
    is among the products [obtenir_tous_produits_places] returns. *)
Theorem trouver_ssi_place (s : etat) (d m : dict) (produit : string) :
  projet_actuel s = Some d → Dict.get "produits" d = Some (JObj m) →
  placements_types m →
  ∃ r tous,
    trouver_case_produit produit s = (Ok r, s)
    ∧ obtenir_tous_produits_places s = (Ok tous, s)
    ∧ (is_Some r ↔ JStr produit ∈ tous).
Proof.
  intros Hp Hm Ht.
  destruct (chercher_case_parmi_tous produit m Ht) as (r & Hr & Hiff).
  exists r, (tous_les_produits m). split; [|split; [|done]].
  - unfold trouver_case_produit, lier, obtenir_projet. rewrite Hp.
    assert (projet_vrai (Some d) = true) as -> by by destruct d.
    cbn [negb]. unfold de_res, Dict.item. by rewrite Hm, Hr.
  - unfold obtenir_tous_produits_places, lier, obtenir_projet.
    rewrite Hp. assert (projet_vrai (Some d) = true) as -> by by destruct d.
    cbn [negb]. unfold de_res, Dict.item. rewrite Hm.
    by rewrite (etendre_types m [] Ht).
Qed.

Lemma elem_of_set (k k' : string) (v v' : json) (d : dict) :
  (k', v') ∈ Dict.set k v d → (k', v') = (k, v) ∨ (k', v') ∈ d.
Proof.
  induction d as [|[k0 v0] d IH]; cbn.
  - intros ->%list_elem_of_singleton. by left.
  - case_bool_decide as Hk.
    + intros [->|Hin]%elem_of_cons; [left; by subst|]. right. by right.
    + intros [->|Hin]%elem_of_cons; [right; by left|].
      destruct (IH Hin) as [?|?]; [by left|]. right. by right.
Qed.

Lemma elem_of_set_ici (k : string) (v : json) (d : dict) :
  (k, v) ∈ Dict.set k v d.
Proof.
  induction d as [|[k0 v0] d IH]; cbn; [by left|].
  case_bool_decide as Hk; [subst; by left|by right].
Qed.

Lemma placements_types_set (case : string) (l : list json) (m : dict) :
  placements_types m → placements_types (Dict.set case (JArr l) m).
Proof.
  intros Ht. induction Ht as [|[k v] m Hl Hm IH]; cbn.
  - repeat constructor. by eexists.
  - case_bool_decide; constructor; try done. by eexists.
Qed.

(** X21. After [definir_produits_case] has placed a non-empty list on
    a location of placements that map locations to lists, each product
    of the list is found by [trouver_case_produit], at that location
    when no other location holds the product. *)
Theorem produit_place_trouve (case : string) (l : list json) (s s1 : etat)
    (d m : dict) (produit : string) :
  projet_actuel s = Some d → Dict.get "produits" d = Some (JObj m) →
  placements_types m → JStr produit ∈ l →
  definir_produits_case case (JArr l) s = (Ok tt, s1) →
  ∃ c, trouver_case_produit produit s1 = (Ok (Some c), s1)
       ∧ ((∀ autre l', autre ≠ case → (autre, JArr l') ∈ m →
                       JStr produit ∉ l') → c = case).
Proof.
  intros Hp Hm Ht Hin Hdef.
  assert (Hv : projet_vrai (Some d) = true) by by destruct d.
  assert (Hvl : Py.vrai (JArr l) = true).
  { destruct l; [|done]. by apply elem_of_nil in Hin. }
  rewrite (definir_produits_case_dict _ _ _ _ _ _ _ Hp Hv Hm) in Hdef.
  pose proof (sauvegarder_projet DOSSIER_PROJETS cwd
    {| disque := disque s;
       projet_actuel :=
         Some (Dict.set "produits" (JObj (placer case (JArr l) m)) d) |})
    as Hp1.
  rewrite Hdef in Hp1. cbn [snd projet_actuel] in Hp1.
  unfold placer in Hp1. rewrite Hvl in Hp1.
  set (m1 := Dict.set case (JArr l) m) in *.
  destruct (chercher_case_spec produit m1
              (placements_types_set case l m Ht)) as (r & Hr & Hsome & Hnone).
  destruct r as [c|].
  2:{ exfalso. apply (proj1 Hnone eq_refl case l); [|done].
      apply elem_of_set_ici. }
  exists c. split.
  - unfold trouver_case_produit, lier, obtenir_projet. rewrite Hp1.
    assert (projet_vrai (Some (Dict.set "produits" (JObj m1) d)) = true)
      as ->.
    { apply projet_vrai_set. }
    cbn [negb]. unfold de_res, Dict.item.
    by rewrite DictFaits.get_set_eq, Hr.
  - intros Hseul.
    destruct (proj1 (Hsome c) eq_refl) as (avant & ps & apres & Heq & Hps & _).
    assert (Hel : (c, JArr ps) ∈ m1).
    { rewrite Heq. apply elem_of_app. right. by left. }
    apply elem_of_set in Hel as [[= -> _]|Hel]; [done|].
    destruct (decide (c = case)) as [|Hne]; [done|].
    by destruct (Hseul c ps Hne Hel).
Qed.

End Placements.

(* ===================================================================== *)
(** ** The properties above, on the examples *)

Module Temoins.
Import Exemples ExemplesSuite.

Local Abbreviation etat_cree :=
  (executer racine cwd (ACreer "p" "m" "a" "plan.png") (init disque_vide)).

Lemma creer_projet_ValueError_sans_effet_temoin :
  (creer_projet racine cwd " p " "m" "a" "plan.png" etat_place).2
  = etat_place
  ∧ (ProjetExisteDeja "p" = DonneesIncompletes
     ∨ ProjetExisteDeja "p" = NomRequis
     ∨ ProjetExisteDeja "p" = ProjetExisteDeja (PyStr.strip " p ")
     ∨ ProjetExisteDeja "p" = PlanIntrouvable "plan.png").
Proof.
  apply (creer_projet_ValueError_sans_effet racine cwd etat_place _
           " p " "m" "a" "plan.png" (ProjetExisteDeja "p")).
  vm_compute. reflexivity.
Defined.

Lemma creer_projet_validation_temoin :
  creer_projet racine cwd " p " "m" "a" "plan.png" etat_place
  = (Err (ValueError (ProjetExisteDeja (PyStr.strip " p "))), etat_place).
Proof.
  apply (proj2 (proj2 (creer_projet_validation racine cwd etat_place
                         " p " "m" "a" "plan.png"))).
  - reflexivity.
  - vm_compute. discriminate.
  - vm_compute. reflexivity.
Defined.

Lemma creer_projet_puis_creer_temoin :
  FS.isdir cwd (disque etat_cree) (mon_dossier racine (PyStr.strip "p"))
  = true
  ∧ FS.lire cwd (disque etat_cree) (mon_fichier racine (PyStr.strip "p"))
    = Ok (Document (JObj (ma_config (PyStr.strip "p") "m" "a" "plan.png")))
  ∧ ∀ nom2 magasin2 auteur2 plan2,
      forallb PyStr.vrai [nom2; magasin2; auteur2; plan2] = true →
      PyStr.strip nom2 = PyStr.strip "p" →
      creer_projet racine cwd nom2 magasin2 auteur2 plan2 etat_cree
      = (Err (ValueError (ProjetExisteDeja (PyStr.strip "p"))), etat_cree).
Proof.
  apply (creer_projet_puis_creer racine cwd (init disque_vide) etat_cree
           "p" "m" "a" "plan.png").
  vm_compute. reflexivity.
Defined.


Lemma charger_projet_lecture_seule_temoin :
  let s := {| disque := disque_sans_document;
              projet_actuel := Some config_placee |} in
  disque (charger_projet racine cwd "p" s).2 = disque s
  ∧ projet_actuel (charger_projet racine cwd "p" s).2 = projet_actuel s.
Proof.
  intros s.
  apply (charger_projet_lecture_seule racine cwd "p" s _
           (Err (ValueError ErreurChargement))).
  vm_compute. reflexivity.
Defined.

Lemma projet_introuvable_temoin :
  charger_projet racine cwd "absent" etat_place
  = (Err (ValueError (ProjetIntrouvable "absent")), etat_place)
  ∧ supprimer_projet racine cwd "absent" etat_place
    = (Err (ValueError (ProjetIntrouvable "absent")), etat_place).
Proof.
  apply (projet_introuvable racine cwd "absent" etat_place).
  vm_compute. reflexivity.
Defined.

Lemma charger_projet_document_temoin :
  charger_projet racine cwd "p" (init disque_sans_document)
  = (Err (ValueError ErreurChargement), init disque_sans_document)
  ∧ charger_projet racine cwd "p"
      (init (disque_document (JObj [("nom", JStr "p")])))
    = (Err (ValueError ConfigurationInvalide),
       init (disque_document (JObj [("nom", JStr "p")])))
  ∧ charger_projet racine cwd "p"
      (init (disque_document
               (JObj [("nom", JStr "p"); ("magasin", JStr "m");
                      ("auteur", JStr "a"); ("chemin_plan", JNull)])))
    = (Err TypeError,
       init (disque_document
               (JObj [("nom", JStr "p"); ("magasin", JStr "m");
                      ("auteur", JStr "a"); ("chemin_plan", JNull)]))).
Proof.
  split; [|split].
  - apply (proj1 (charger_projet_document racine cwd "p"
                    (init disque_sans_document) eq_refl)).
    intros j H. vm_compute in H. discriminate.
  - apply (proj1 (proj2 (charger_projet_document racine cwd "p"
                           (init (disque_document (JObj [("nom", JStr "p")])))
                           eq_refl))
             [("nom", JStr "p")] "auteur").
    + vm_compute. reflexivity.
    + apply (bool_decide_unpack _). vm_compute. exact I.
    + reflexivity.
  - apply (proj2 (proj2 (charger_projet_document racine cwd "p"
                           (init (disque_document _)) eq_refl))
             [("nom", JStr "p"); ("magasin", JStr "m");
              ("auteur", JStr "a"); ("chemin_plan", JNull)] JNull).
    + vm_compute. reflexivity.
    + vm_compute. reflexivity.
    + reflexivity.
    + discriminate.
Defined.

(** A text that holds the four field names passes the test of the
    fields. *)
Lemma charger_projet_pas_un_objet_temoin :
  let j := JStr "nom magasin auteur chemin_plan" in
  charger_projet racine cwd "p" (init (disque_document j))
  = (Err (match Py.tous_dans champs_requis j with
          | Ok false => ValueError ConfigurationInvalide
          | _ => TypeError
          end), init (disque_document j))
  ∧ Py.tous_dans champs_requis j = Ok true.
Proof.
  intros j. split; [|vm_compute; reflexivity].
  apply (charger_projet_pas_un_objet racine cwd "p"
           (init (disque_document j)) j).
  - vm_compute. reflexivity.
  - vm_compute. reflexivity.
  - discriminate.
Defined.

Lemma charger_projet_cles_temoin :
  let d' := [ ("nom", JStr "p"); ("magasin", JStr "m"); ("auteur", JStr "a");
              ("chemin_plan", JStr "App1/projets/p/plan.png");
              ("produits", JArr []) ] in
  (∀ v, Dict.get "produits_par_case" config_ancienne = Some v →
        Dict.get "produits" d' = Some v)
  ∧ Dict.get "produits_par_case" d' = None
  ∧ (Dict.get "produits_par_case" config_ancienne = None →
     Dict.get "produits" config_ancienne = None →
     Dict.get "produits" d' = Some (JObj []))
  ∧ (∀ m, Dict.get "produits_par_case" config_ancienne = None →
          Dict.get "produits" config_ancienne = Some (JObj m) →
          Dict.get "produits" d' = Some (JObj m))
  ∧ (∀ k, k ≠ "produits" → k ≠ "produits_par_case" → k ≠ "chemin_plan" →
          Dict.get k d' = Dict.get k config_ancienne).
Proof.
  intros d'.
  apply (charger_projet_cles racine cwd "p" (init disque_ancien)
           {| disque := disque_ancien; projet_actuel := Some d' |}
           config_ancienne d').
  - vm_compute. reflexivity.
  - vm_compute. reflexivity.
Defined.

Lemma supprimer_projet_efface_temoin :
  let s' := (supprimer_projet racine cwd "p" etat_place).2 in
  FS.isdir cwd (disque s') (mon_dossier racine "p") = false
  ∧ (∃ k, FS.resoudre cwd (disque etat_place) (mon_dossier racine "p")
          = Some k
          ∧ ∀ x, FS.noeud_en (disque s') x
                 = if decide (FS.sous k x) then None
                   else FS.noeud_en (disque etat_place) x)
  ∧ (charger_projet racine cwd "p" s').1
    = Err (ValueError (ProjetIntrouvable "p"))
  ∧ (supprimer_projet racine cwd "p" s').1
    = Err (ValueError (ProjetIntrouvable "p")).
Proof.
  apply (supprimer_projet_efface racine cwd "p" etat_place).
  vm_compute. reflexivity.
Defined.

Lemma supprimer_projet_erreur_temoin :
  projet_actuel (supprimer_projet racine cwd "absent" etat_place).2
  = projet_actuel etat_place.
Proof.
  apply (supprimer_projet_erreur racine cwd "absent" etat_place _
           (ValueError (ProjetIntrouvable "absent"))).
  vm_compute. reflexivity.
Defined.

Lemma sans_projet_actif_temoin :
  let s := {| disque := disque_vide; projet_actuel := Some [] |} in
  sauvegarder racine cwd s = (Err (ValueError AucunProjetASauvegarder), s)
  ∧ definir_produits_case racine cwd "A" (JArr [JStr "x"]) s
    = (Err (ValueError AucunProjetActif), s)
  ∧ obtenir_produits_case "A" s = (Ok (JArr []), s)
  ∧ obtenir_tous_produits_places s = (Ok [], s)
  ∧ trouver_case_produit "x" s = (Ok None, s).
Proof.
  intros s. apply (sans_projet_actif racine cwd s "A" "x" (JArr [JStr "x"])).
  right. reflexivity.
Defined.

Lemma sauvegarder_ecrit_temoin :
  ∃ d nom k,
    projet_actuel etat_place = Some d
    ∧ Dict.get "nom" d = Some (JStr nom)
    ∧ FS.resoudre cwd (disque etat_place) (mon_fichier racine nom) = Some k
    ∧ disque (sauvegarder racine cwd etat_place).2
      = <[k := Fichier (Document (JObj d))]> (disque etat_place)
    ∧ FS.lire cwd (disque (sauvegarder racine cwd etat_place).2)
        (mon_fichier racine nom)
      = Ok (Document (JObj d))
    ∧ projet_actuel (sauvegarder racine cwd etat_place).2
      = projet_actuel etat_place.
Proof.
  apply (sauvegarder_ecrit racine cwd etat_place).
  vm_compute. reflexivity.
Defined.

Lemma sauvegarder_ouverture_impossible_temoin :
  sauvegarder racine cwd etat_sans_dossier
  = (Err (ValueError ErreurSauvegarde), etat_sans_dossier).
Proof.
  apply (sauvegarder_ouverture_impossible racine cwd etat_sans_dossier
           config_placee "p").
  - reflexivity.
  - reflexivity.
  - vm_compute. reflexivity.
Defined.

Lemma definir_produits_case_sans_retour_temoin :
  let s' := {| disque := disque etat_sans_dossier;
               projet_actuel :=
                 Some (Dict.set "produits"
                         (JObj (placer "C" (JArr [JStr "w"])
                                  [("A", JArr [JStr "x"; JStr "y"]);
                                   ("B", JArr [JStr "z"; JStr "y"])]))
                         config_placee) |} in
  definir_produits_case racine cwd "C" (JArr [JStr "w"]) etat_sans_dossier
  = (Err (ValueError ErreurSauvegarde), s')
  ∧ obtenir_produits_case "C" s'
    = (Ok (if Py.vrai (JArr [JStr "w"]) then JArr [JStr "w"] else JArr []),
       s').
Proof.
  apply (definir_produits_case_sans_retour racine cwd "C" (JArr [JStr "w"])
           etat_sans_dossier config_placee _ "p").
  - reflexivity.
  - reflexivity.
  - reflexivity.
  - vm_compute. reflexivity.
Defined.

Lemma definir_produits_case_autres_cases_temoin :
  (obtenir_produits_case "B"
     (definir_produits_case racine cwd "A" JNull etat_place).2).1
  = (obtenir_produits_case "B" etat_place).1.
Proof.
  apply (definir_produits_case_autres_cases racine cwd "A" "B" JNull
           etat_place).
  discriminate.
Defined.

Lemma definir_produits_case_ordre_temoin :
  ∃ d' m',
    projet_actuel
      (definir_produits_case racine cwd "C" (JArr [JStr "w"]) etat_place).2
    = Some d'
    ∧ Dict.get "produits" d' = Some (JObj m')
    ∧ Dict.cles d' = Dict.cles config_placee
    ∧ Dict.cles m'
      = if Py.vrai (JArr [JStr "w"]) then
          if Dict.contient "C" [("A", JArr [JStr "x"; JStr "y"]);
                                ("B", JArr [JStr "z"; JStr "y"])]
          then Dict.cles [("A", JArr [JStr "x"; JStr "y"]);
                          ("B", JArr [JStr "z"; JStr "y"])]
          else Dict.cles [("A", JArr [JStr "x"; JStr "y"]);
                          ("B", JArr [JStr "z"; JStr "y"])] ++ ["C"]
        else filter (λ x, x ≠ "C")
               (Dict.cles [("A", JArr [JStr "x"; JStr "y"]);
                           ("B", JArr [JStr "z"; JStr "y"])]).
Proof.
  apply (definir_produits_case_ordre racine cwd "C" (JArr [JStr "w"])
           etat_place config_placee).
  - reflexivity.
  - reflexivity.
Defined.

Lemma definir_produits_case_idempotent_temoin :
  let s1 := (definir_produits_case racine cwd "A" (JArr [JStr "x"])
               etat_cree).2 in
  definir_produits_case racine cwd "A" (JArr [JStr "x"]) s1 = (Ok tt, s1).
Proof.
  apply (definir_produits_case_idempotent racine cwd "A" (JArr [JStr "x"])
           etat_cree).
  vm_compute. reflexivity.
Defined.

Lemma obtenir_tous_produits_places_concat_temoin :
  obtenir_tous_produits_places etat_place
  = (Ok (tous_les_produits [("A", JArr [JStr "x"; JStr "y"]);
                            ("B", JArr [JStr "z"; JStr "y"])]), etat_place).
Proof.
  apply (obtenir_tous_produits_places_concat etat_place config_placee).
  - reflexivity.
  - reflexivity.
  - repeat constructor; by eexists.
Defined.

Lemma trouver_ssi_place_temoin :
  ∃ r tous,
    trouver_case_produit "z" etat_place = (Ok r, etat_place)
    ∧ obtenir_tous_produits_places etat_place = (Ok tous, etat_place)
    ∧ (is_Some r ↔ JStr "z" ∈ tous).
Proof.
  apply (trouver_ssi_place etat_place config_placee
           [("A", JArr [JStr "x"; JStr "y"]);
            ("B", JArr [JStr "z"; JStr "y"])] "z").
  - reflexivity.
  - reflexivity.
  - repeat constructor; by eexists.
Defined.

Lemma produit_place_trouve_temoin :
  let s1 := (definir_produits_case racine cwd "C" (JArr [JStr "w"])
               etat_place).2 in
  ∃ c, trouver_case_produit "w" s1 = (Ok (Some c), s1)
       ∧ ((∀ autre l', autre ≠ "C" →
                       (autre, JArr l') ∈ [("A", JArr [JStr "x"; JStr "y"]);
                                           ("B", JArr [JStr "z"; JStr "y"])] →
                       JStr "w" ∉ l') → c = "C").
Proof.
  apply (produit_place_trouve racine cwd "C" [JStr "w"] etat_place _
           config_placee _ "w").
  - reflexivity.
  - reflexivity.
  - repeat constructor; by eexists.
  - by left.
  - vm_compute. reflexivity.
Defined.

End Temoins.
